(** * Progress synchronisation of the business start-up guide

    A shallow embedding of [src/scripts/enhanced-state-manager.js] and
    [src/scripts/sync-manager.js]: the local progress record, its
    persistence in [localStorage], the debounced upload, the sign-in
    migration and the retry policy; and of what the authentication manager
    and the enhanced page do to the two classes: the authentication events,
    and the handler of sync events that the page puts in place.

    The JavaScript values the two classes handle are JSON data (the stored
    texts, the import payload, the cloud row) and [undefined]; numbers are
    exact decimals (the rounding and the overflow of IEEE doubles are not
    modelled), strings are byte strings. *)

From Stdlib Require Import ZArith Ascii.
From stdpp Require Import base option list strings pretty gmap.

Local Open Scope string_scope.
Local Open Scope list_scope.
Local Open Scope Z_scope.

(** ** JavaScript values *)

Module JS.

(** What a JavaScript operation yields: a value, or a thrown exception. *)
Inductive Result (A : Type) : Type :=
| Ok (a : A)
| Throw.
Arguments Ok {A} a.
Arguments Throw {A}.

Definition is_ok {A} (r : Result A) : bool :=
  match r with Ok _ => true | Throw => false end.

Inductive obj_kind := Plain | Array.

#[local] Set Warnings "-register-all".

(** Objects and arrays are lists of own enumerable properties in the order
    [Object.keys] reports them; an array is an object of kind [Array] whose
    elements sit under the keys "0", "1", ...  A number is an integer
    ([VNum n]) or a decimal fraction [m / 10^e] that is not an integer
    ([VDec m e]). *)
Inductive value :=
| VUndefined
| VNull
| VBool (b : bool)
| VNum (n : Z)
| VDec (m : Z) (e : positive)
| VStr (s : string)
| VObj (k : obj_kind) (props : list (string * value)).

Definition props := list (string * value).

(** *** Characters and decimal digits *)

Definition chars (s : string) : list ascii := String.list_ascii_of_string s.
Definition text (l : list ascii) : string := String.string_of_list_ascii l.

Definition is_digit (c : ascii) : bool :=
  let n := N_of_ascii c in ((48 <=? n) && (n <=? 57))%N.

Definition digit_val (c : ascii) : Z := Z.of_N (N_of_ascii c) - 48.

Definition digits_val (ds : list ascii) : Z :=
  fold_left (fun acc c => 10 * acc + digit_val c) ds 0.

(** A canonical array index: "0", or digits without a leading zero, below
    2^32 - 1.  Such keys come first, in ascending order, among the own
    properties of an object. *)
Definition array_index (k : string) : option Z :=
  match chars k with
  | [] => None
  | c :: r =>
      if forallb is_digit (c :: r)
         && (negb (Ascii.eqb c "0") || match r with [] => true | _ => false end)
      then let n := digits_val (c :: r) in
           if n <? 4294967295 then Some n else None
      else None
  end.

(** *** Own properties *)

Fixpoint own_get (k : string) (ps : props) : option value :=
  match ps with
  | [] => None
  | (k', v) :: r => if String.eqb k k' then Some v else own_get k r
  end.

Definition own_has (k : string) (ps : props) : bool :=
  match own_get k ps with Some _ => true | None => false end.

Fixpoint own_replace (k : string) (v : value) (ps : props) : props :=
  match ps with
  | [] => []
  | (k', v') :: r =>
      if String.eqb k k' then (k, v) :: r else (k', v') :: own_replace k v r
  end.

(** Where a new key goes: an index key before the first key that is not an
    index or is a larger index; any other key at the end. *)
Fixpoint own_add_index (i : Z) (k : string) (v : value) (ps : props) : props :=
  match ps with
  | [] => [(k, v)]
  | (k', v') :: r =>
      match array_index k' with
      | Some j => if i <? j then (k, v) :: ps
                  else (k', v') :: own_add_index i k v r
      | None => (k, v) :: ps
      end
  end.

Definition own_set (k : string) (v : value) (ps : props) : props :=
  if own_has k ps then own_replace k v ps
  else match array_index k with
       | Some i => own_add_index i k v ps
       | None => ps ++ [(k, v)]
       end.

Definition own_keys (ps : props) : list string := map fst ps.

(** [{...a, ...b}] written with the properties each operand contributes. *)
Definition assign (target source : props) : props :=
  fold_left (fun acc kv => own_set (fst kv) (snd kv) acc) source target.

(** *** Conversions *)

(** ToBoolean *)
Definition truthy (v : value) : bool :=
  match v with
  | VUndefined | VNull => false
  | VBool b => b
  | VNum n => negb (n =? 0)
  | VDec _ _ => true
  | VStr s => negb (String.eqb s EmptyString)
  | VObj _ _ => true
  end.

(** [a || b] on values. *)
Definition or_else (a b : value) : value := if truthy a then a else b.

(** The decimal text of [m / 10^e]. *)
Definition pad_left (n : nat) (s : string) : string :=
  text (replicate (n - String.length s)%nat "0"%char) +:+ s.

Definition dec_to_string (m : Z) (e : positive) : string :=
  let p := 10 ^ Z.pos e in
  let a := Z.abs m in
  (if m <? 0 then "-" else EmptyString) +:+ pretty (a / p) +:+ "." +:+
  pad_left (Pos.to_nat e) (pretty (a mod p)).

(** Number of elements of an array: one more than its largest index. *)
Definition array_length (ps : props) : Z :=
  fold_left (fun n kv => match array_index (fst kv) with
                         | Some i => Z.max n (i + 1)
                         | None => n
                         end) ps 0.

Definition indices (n : Z) : list Z := seqZ 0 n.

Definition join (sep : string) (l : list string) : string :=
  match l with
  | [] => EmptyString
  | s :: r => fold_left (fun acc x => acc +:+ sep +:+ x) r s
  end.

Definition sequence {A} (l : list (Result A)) : Result (list A) :=
  fold_right (fun r acc => match r, acc with
                           | Ok a, Ok l' => Ok (a :: l')
                           | _, _ => Throw
                           end) (Ok []) l.

(** ToString.  No value of this universe is callable, so an object that has
    an own property "toString" cannot be converted (TypeError); an array
    whose "join" is shadowed falls back to [Object.prototype.toString]. *)
Fixpoint to_string (v : value) : Result string :=
  match v with
  | VUndefined => Ok "undefined"
  | VNull => Ok "null"
  | VBool b => Ok (if b then "true" else "false")
  | VNum n => Ok (pretty n)
  | VDec m e => Ok (dec_to_string m e)
  | VStr s => Ok s
  | VObj k ps =>
      if own_has "toString" ps then Throw
      else match k with
           | Plain => Ok "[object Object]"
           | Array =>
               if own_has "join" ps then Ok "[object Array]"
               else
                 let strs :=
                   (fix go (l : props) : list (string * Result string) :=
                      match l with
                      | [] => []
                      | (k', x) :: r =>
                          (k', match x with
                               | VUndefined | VNull => Ok EmptyString
                               | _ => to_string x
                               end) :: go r
                      end) ps in
                 let elem (i : Z) : Result string :=
                   match find (fun kr => String.eqb (pretty i) (fst kr)) strs with
                   | Some (_, r) => r
                   | None => Ok EmptyString
                   end in
                 match sequence (map elem (indices (array_length ps))) with
                 | Ok l => Ok (join "," l)
                 | Throw => Throw
                 end
           end
  end.

(** ToPrimitive: the objects of this universe inherit [valueOf], which
    answers the object itself, so their primitive is their string. *)
Definition to_primitive (v : value) : Result value :=
  match v with
  | VObj _ _ => match to_string v with Ok s => Ok (VStr s) | Throw => Throw end
  | _ => Ok v
  end.

(** Numbers as comparisons see them: [Fin m e] is [m * 10^e]. *)
Inductive num :=
| NaN
| Inf (negative : bool)
| Fin (m : Z) (e : Z).

Definition is_space (c : ascii) : bool :=
  let n := N_of_ascii c in
  ((n =? 32) || (n =? 9) || (n =? 10) || (n =? 11) || (n =? 12) || (n =? 13))%N.

Fixpoint span (p : ascii -> bool) (l : list ascii) : list ascii * list ascii :=
  match l with
  | [] => ([], [])
  | c :: r => if p c then let '(a, b) := span p r in (c :: a, b) else ([], l)
  end.

Definition is_nil {A} (l : list A) : bool :=
  match l with [] => true | _ => false end.

Definition scan_sign (w : list ascii) : bool * list ascii :=
  match w with
  | "-"%char :: r => (true, r)
  | "+"%char :: r => (false, r)
  | _ => (false, w)
  end.

(** A decimal literal: sign, digits, fraction, exponent.  The whole word
    must be consumed. *)
Definition scan_decimal (w : list ascii) : option (Z * Z) :=
  let '(neg, w1) := scan_sign w in
  let '(ip, w2) := span is_digit w1 in
  let '(fp, w3) := match w2 with
                   | "."%char :: r => span is_digit r
                   | _ => ([], w2)
                   end in
  if is_nil ip && is_nil fp then None
  else
    let m := digits_val (ip ++ fp) in
    let m := if neg then - m else m in
    let e := - Z.of_nat (length fp) in
    match w3 with
    | [] => Some (m, e)
    | c :: r =>
        if Ascii.eqb c "e" || Ascii.eqb c "E" then
          let '(eneg, r1) := scan_sign r in
          let '(ed, r2) := span is_digit r1 in
          if is_nil ed || negb (is_nil r2) then None
          else Some (m, e + (if eneg then - digits_val ed else digits_val ed))
        else None
    end.

Definition radix_digit (radix : Z) (c : ascii) : option Z :=
  let n := Z.of_N (N_of_ascii c) in
  let d := if (48 <=? n) && (n <=? 57) then n - 48
           else if (97 <=? n) && (n <=? 102) then n - 87
           else if (65 <=? n) && (n <=? 70) then n - 55
           else 16 in
  if d <? radix then Some d else None.

Definition scan_radix (radix : Z) (ds : list ascii) : option Z :=
  if is_nil ds then None
  else fold_left (fun acc c => match acc, radix_digit radix c with
                               | Some a, Some d => Some (radix * a + d)
                               | _, _ => None
                               end) ds (Some 0).

Definition trim (l : list ascii) : list ascii :=
  let drop := fix drop (l : list ascii) :=
    match l with
    | c :: r => if is_space c then drop r else l
    | [] => []
    end in
  rev (drop (rev (drop l))).

(** StringToNumber (white space is the ASCII white space). *)
Definition string_to_number (s : string) : num :=
  let w := trim (chars s) in
  if is_nil w then Fin 0 0
  else if String.eqb (text w) "Infinity" || String.eqb (text w) "+Infinity"
  then Inf false
  else if String.eqb (text w) "-Infinity" then Inf true
  else
    let radix :=
      match w with
      | "0"%char :: c :: r =>
          if Ascii.eqb c "x" || Ascii.eqb c "X" then Some (16, r)
          else if Ascii.eqb c "o" || Ascii.eqb c "O" then Some (8, r)
          else if Ascii.eqb c "b" || Ascii.eqb c "B" then Some (2, r)
          else None
      | _ => None
      end in
    match radix with
    | Some (b, r) => match scan_radix b r with Some n => Fin n 0 | None => NaN end
    | None => match scan_decimal w with Some (m, e) => Fin m e | None => NaN end
    end.

(** ToNumber *)
Definition to_number (v : value) : Result num :=
  match to_primitive v with
  | Throw => Throw
  | Ok VUndefined => Ok NaN
  | Ok VNull => Ok (Fin 0 0)
  | Ok (VBool b) => Ok (Fin (if b then 1 else 0) 0)
  | Ok (VNum n) => Ok (Fin n 0)
  | Ok (VDec m e) => Ok (Fin m (- Z.pos e))
  | Ok (VStr s) => Ok (string_to_number s)
  | Ok (VObj _ _) => Throw
  end.

Definition num_ltb (a b : num) : bool :=
  match a, b with
  | NaN, _ | _, NaN => false
  | Inf true, Inf true | Inf false, _ => false
  | Inf true, _ => true
  | Fin _ _, Inf neg => negb neg
  | Fin m1 e1, Fin m2 e2 =>
      let e := Z.min e1 e2 in
      m1 * 10 ^ (e1 - e) <? m2 * 10 ^ (e2 - e)
  end.

Fixpoint chars_ltb (a b : list ascii) : bool :=
  match a, b with
  | _, [] => false
  | [], _ :: _ => true
  | x :: a', y :: b' =>
      if (N_of_ascii x <? N_of_ascii y)%N then true
      else if (N_of_ascii y <? N_of_ascii x)%N then false
      else chars_ltb a' b'
  end.

(** [a > b]: two strings compare as strings, anything else as numbers. *)
Definition js_gt (a b : value) : Result bool :=
  match to_primitive a, to_primitive b with
  | Ok (VStr x), Ok (VStr y) => Ok (chars_ltb (chars y) (chars x))
  | Ok pa, Ok pb =>
      match to_number pa, to_number pb with
      | Ok x, Ok y => Ok (num_ltb y x)
      | _, _ => Throw
      end
  | _, _ => Throw
  end.

(** *** Property access *)

(** [o.k] for the property names this program reads (none of them is a
    name of a built-in prototype): an own property, else [undefined];
    reading a property of [null] or [undefined] is a TypeError. *)
Definition get_prop (o : value) (k : string) : Result value :=
  match o with
  | VUndefined | VNull => Throw
  | VObj _ ps => Ok (default VUndefined (own_get k ps))
  | _ => Ok VUndefined
  end.

(** [o?.k] *)
Definition get_prop_opt (o : value) (k : string) : Result value :=
  match o with
  | VUndefined | VNull => Ok VUndefined
  | _ => get_prop o k
  end.

(** [o[k] = v] in strict mode (the sources are ES modules): a TypeError on
    [null], [undefined] and on primitives.  The setter [__proto__] creates
    no own property; an object that owns a property of that name (as
    [JSON.parse] can make one) has it assigned like any other.  Returns the
    object after the assignment.  An array takes an index or a name like
    any object; what assigning its [length] does is not modelled, and no
    statement below assigns it. *)
Definition set_prop (o : value) (k : string) (v : value) : Result value :=
  match o with
  | VObj kind ps =>
      if String.eqb k "__proto__" && negb (own_has "__proto__" ps) then Ok o
      else Ok (VObj kind (own_set k v ps))
  | _ => Throw
  end.

Definition string_props (s : string) : props :=
  imap (fun i c => (pretty (Z.of_nat i), VStr (String c EmptyString))) (chars s).

(** The own enumerable properties a spread [...v] copies. *)
Definition spread (v : value) : props :=
  match v with
  | VObj _ ps => ps
  | VStr s => string_props s
  | _ => []
  end.

(** [Object.keys(v)] *)
Definition Object_keys (v : value) : Result (list string) :=
  match v with
  | VUndefined | VNull => Throw
  | _ => Ok (own_keys (spread v))
  end.

(** [v.hasOwnProperty(k)]: the method is inherited, unless an own property
    of that name (never callable here) shadows it. *)
Definition hasOwnProperty (v : value) (k : string) : Result bool :=
  match v with
  | VUndefined | VNull => Throw
  | VObj kind ps =>
      if own_has "hasOwnProperty" ps then Throw
      else Ok (own_has k ps
               || match kind with Array => String.eqb k "length" | Plain => false end)
  | VStr s =>
      Ok (match array_index k with
          | Some i => i <? Z.of_nat (String.length s)
          | None => false
          end || String.eqb k "length")
  | _ => Ok false
  end.

(** [v !== "lit"] *)
Definition strict_neq_str (v : value) (lit : string) : bool :=
  match v with
  | VStr s => negb (String.eqb s lit)
  | _ => true
  end.

(** *** JSON.stringify *)

Definition dquote : ascii := ascii_of_N 34.
Definition backslash : ascii := ascii_of_N 92.

Definition hex_char (n : N) : ascii :=
  if (n <? 10)%N then ascii_of_N (48 + n) else ascii_of_N (87 + n).

Definition quote_char (c : ascii) : list ascii :=
  let n := N_of_ascii c in
  if (n =? 34)%N then [backslash; dquote]
  else if (n =? 92)%N then [backslash; backslash]
  else if (n =? 8)%N then [backslash; "b"%char]
  else if (n =? 12)%N then [backslash; "f"%char]
  else if (n =? 10)%N then [backslash; "n"%char]
  else if (n =? 13)%N then [backslash; "r"%char]
  else if (n =? 9)%N then [backslash; "t"%char]
  else if (n <? 32)%N
  then [backslash; "u"%char; "0"%char; "0"%char; hex_char (n / 16); hex_char (n mod 16)]
  else [c].

Definition quote (s : string) : string :=
  text (dquote :: concat (map quote_char (chars s)) ++ [dquote]).

(** [JSON.stringify(v)]; [None] is the answer [undefined].  A property whose
    value is [undefined] is left out of an object and printed as [null] in
    an array, as is a missing element. *)
Fixpoint JSON_stringify (v : value) : option string :=
  match v with
  | VUndefined => None
  | VNull => Some "null"
  | VBool b => Some (if b then "true" else "false")
  | VNum n => Some (pretty n)
  | VDec m e => Some (dec_to_string m e)
  | VStr s => Some (quote s)
  | VObj k ps =>
      let texts :=
        (fix go (l : props) : list (string * option string) :=
           match l with
           | [] => []
           | (k', x) :: r => (k', JSON_stringify x) :: go r
           end) ps in
      match k with
      | Plain =>
          let members := omap (fun kt => match snd kt with
                                         | Some t => Some (quote (fst kt) +:+ ":" +:+ t)
                                         | None => None
                                         end) texts in
          Some ("{" +:+ join "," members +:+ "}")
      | Array =>
          let elem (i : Z) : string :=
            match find (fun kt => String.eqb (pretty i) (fst kt)) texts with
            | Some (_, Some t) => t
            | _ => "null"
            end in
          Some ("[" +:+ join "," (map elem (indices (array_length ps))) +:+ "]")
      end
  end.

(** *** JSON.parse

    A lexer and a push-down automaton, each a fold over its input, so the
    parse of every text is defined: a value, or a SyntaxError. *)

Inductive token :=
| TLBrace | TRBrace | TLBracket | TRBracket | TColon | TComma
| TStr (s : string)
| TLit (v : value).

Definition is_json_space (c : ascii) : bool :=
  let n := N_of_ascii c in ((n =? 32) || (n =? 9) || (n =? 10) || (n =? 13))%N.

Definition punctuation (c : ascii) : option token :=
  if Ascii.eqb c "{" then Some TLBrace
  else if Ascii.eqb c "}" then Some TRBrace
  else if Ascii.eqb c "[" then Some TLBracket
  else if Ascii.eqb c "]" then Some TRBracket
  else if Ascii.eqb c ":" then Some TColon
  else if Ascii.eqb c "," then Some TComma
  else None.

(** The grammar of a JSON number: no leading zero, no leading plus, digits
    on both sides of the point. *)
Definition json_number_shape (w : list ascii) : bool :=
  let w1 := match w with "-"%char :: r => r | _ => w end in
  let '(ip, w2) := span is_digit w1 in
  let int_ok := match ip with
                | [] => false
                | "0"%char :: _ :: _ => false
                | _ => true
                end in
  let '(frac_ok, w3) := match w2 with
                        | "."%char :: r =>
                            let '(fp, r') := span is_digit r in (negb (is_nil fp), r')
                        | _ => (true, w2)
                        end in
  let exp_ok := match w3 with
                | [] => true
                | c :: r =>
                    (Ascii.eqb c "e" || Ascii.eqb c "E")
                    && let '(_, r1) := scan_sign r in
                       let '(ed, r2) := span is_digit r1 in
                       negb (is_nil ed) && is_nil r2
                end in
  int_ok && frac_ok && exp_ok.

(** [m * 10^e] with [e < 0]: drop the trailing zeros of [m], at most [-e]. *)
Fixpoint strip_zeros (n : nat) (m e : Z) : Z * Z :=
  match n with
  | O => (m, e)
  | S n' => if (e <? 0) && (m mod 10 =? 0) then strip_zeros n' (m / 10) (e + 1)
            else (m, e)
  end.

Definition number_value (m e : Z) : value :=
  if 0 <=? e then VNum (m * 10 ^ e)
  else let '(m', e') := strip_zeros (Z.to_nat (- e)) m e in
       match e' with
       | Z.neg p => VDec m' p
       | _ => VNum m'
       end.

Definition word_token (w : list ascii) : option token :=
  if String.eqb (text w) "true" then Some (TLit (VBool true))
  else if String.eqb (text w) "false" then Some (TLit (VBool false))
  else if String.eqb (text w) "null" then Some (TLit VNull)
  else if json_number_shape w
  then match scan_decimal w with
       | Some (m, e) => Some (TLit (number_value m e))
       | None => None
       end
  else None.

(** A code point of the basic plane as UTF-8 bytes. *)
Definition utf8 (cp : Z) : list ascii :=
  let byte (n : Z) := ascii_of_N (Z.to_N n) in
  if cp <? 128 then [byte cp]
  else if cp <? 2048 then [byte (192 + cp / 64); byte (128 + cp mod 64)]
  else [byte (224 + cp / 4096); byte (128 + (cp / 64) mod 64); byte (128 + cp mod 64)].

Inductive lex_mode :=
| LIdle
| LWord (acc : list ascii)
| LStr (acc : list ascii)
| LEsc (acc : list ascii)
| LUni (acc : list ascii) (hex : list ascii).

Definition lex_state : Type := lex_mode * list token.

Definition lex_idle (c : ascii) (toks : list token) : option lex_state :=
  if is_json_space c then Some (LIdle, toks)
  else if Ascii.eqb c dquote then Some (LStr [], toks)
  else match punctuation c with
       | Some t => Some (LIdle, t :: toks)
       | None => Some (LWord [c], toks)
       end.

Definition lex_step (st : option lex_state) (c : ascii) : option lex_state :=
  match st with
  | None => None
  | Some (LIdle, toks) => lex_idle c toks
  | Some (LWord acc, toks) =>
      if is_json_space c || Ascii.eqb c dquote || bool_decide (is_Some (punctuation c))
      then match word_token (rev acc) with
           | Some t => lex_idle c (t :: toks)
           | None => None
           end
      else Some (LWord (c :: acc), toks)
  | Some (LStr acc, toks) =>
      if Ascii.eqb c dquote then Some (LIdle, TStr (text (rev acc)) :: toks)
      else if Ascii.eqb c backslash then Some (LEsc acc, toks)
      else if (N_of_ascii c <? 32)%N then None
      else Some (LStr (c :: acc), toks)
  | Some (LEsc acc, toks) =>
      if Ascii.eqb c dquote || Ascii.eqb c backslash || Ascii.eqb c "/"
      then Some (LStr (c :: acc), toks)
      else if Ascii.eqb c "b" then Some (LStr (ascii_of_N 8 :: acc), toks)
      else if Ascii.eqb c "f" then Some (LStr (ascii_of_N 12 :: acc), toks)
      else if Ascii.eqb c "n" then Some (LStr (ascii_of_N 10 :: acc), toks)
      else if Ascii.eqb c "r" then Some (LStr (ascii_of_N 13 :: acc), toks)
      else if Ascii.eqb c "t" then Some (LStr (ascii_of_N 9 :: acc), toks)
      else if Ascii.eqb c "u" then Some (LUni acc [], toks)
      else None
  | Some (LUni acc hex, toks) =>
      match radix_digit 16 c with
      | None => None
      | Some _ =>
          let hex' := hex ++ [c] in
          if (length hex' =? 4)%nat
          then match scan_radix 16 hex' with
               | Some cp => Some (LStr (rev (utf8 cp) ++ acc), toks)
               | None => None
               end
          else Some (LUni acc hex', toks)
      end
  end.

Definition lex (s : string) : option (list token) :=
  match fold_left lex_step (chars s) (Some (LIdle, [])) with
  | Some (LIdle, toks) => Some (rev toks)
  | Some (LWord acc, toks) =>
      match word_token (rev acc) with
      | Some t => Some (rev (t :: toks))
      | None => None
      end
  | _ => None
  end.

(** The containers still open, innermost first. *)
Inductive frame :=
| FArr (rev_elems : list value)
| FObj (ps : props) (key : option string).

Inductive expect :=
| EValue | EValueOrClose | EKeyOrClose | EKey | EColon | ECommaOrClose | EEnd.

Record pda := { stack : list frame; expecting : expect; result : option value }.

Definition array_value (elems : list value) : value :=
  VObj Array (imap (fun i v => (pretty (Z.of_nat i), v)) elems).

(** A value is complete: it is the result, or goes into the open container. *)
Definition push_value (v : value) (st : list frame) : option pda :=
  match st with
  | [] => Some {| stack := []; expecting := EEnd; result := Some v |}
  | FArr es :: r =>
      Some {| stack := FArr (v :: es) :: r; expecting := ECommaOrClose; result := None |}
  | FObj ps (Some k) :: r =>
      Some {| stack := FObj (own_set k v ps) None :: r; expecting := ECommaOrClose;
              result := None |}
  | FObj _ None :: _ => None
  end.

Definition close_array (st : list frame) : option pda :=
  match st with
  | FArr es :: r => push_value (array_value (rev es)) r
  | _ => None
  end.

Definition close_object (st : list frame) : option pda :=
  match st with
  | FObj ps None :: r => push_value (VObj Plain ps) r
  | _ => None
  end.

Definition open_value (t : token) (st : list frame) : option pda :=
  match t with
  | TLit v => push_value v st
  | TStr s => push_value (VStr s) st
  | TLBracket => Some {| stack := FArr [] :: st; expecting := EValueOrClose; result := None |}
  | TLBrace => Some {| stack := FObj [] None :: st; expecting := EKeyOrClose; result := None |}
  | _ => None
  end.

Definition set_key (k : string) (st : list frame) : option pda :=
  match st with
  | FObj ps None :: r =>
      Some {| stack := FObj ps (Some k) :: r; expecting := EColon; result := None |}
  | _ => None
  end.

Definition pda_step (a : option pda) (t : token) : option pda :=
  match a with
  | None => None
  | Some a =>
      match expecting a, t with
      | EValue, _ => open_value t (stack a)
      | EValueOrClose, TRBracket => close_array (stack a)
      | EValueOrClose, _ => open_value t (stack a)
      | EKeyOrClose, TRBrace => close_object (stack a)
      | EKeyOrClose, TStr k | EKey, TStr k => set_key k (stack a)
      | EColon, TColon =>
          Some {| stack := stack a; expecting := EValue; result := None |}
      | ECommaOrClose, TComma =>
          match stack a with
          | FArr _ :: _ => Some {| stack := stack a; expecting := EValue; result := None |}
          | FObj _ _ :: _ => Some {| stack := stack a; expecting := EKey; result := None |}
          | [] => None
          end
      | ECommaOrClose, TRBracket => close_array (stack a)
      | ECommaOrClose, TRBrace => close_object (stack a)
      | _, _ => None
      end
  end.

Definition JSON_parse (s : string) : Result value :=
  match lex s with
  | None => Throw
  | Some toks =>
      match fold_left pda_step toks
              (Some {| stack := []; expecting := EValue; result := None |}) with
      | Some {| stack := []; expecting := EEnd; result := Some v |} => Ok v
      | _ => Throw
      end
  end.

(** *** Date.prototype.toISOString *)

Definition pad (n : nat) (z : Z) : string := pad_left n (pretty z).

(** The civil date of a day count from 1970-01-01. *)
Definition civil_from_days (days : Z) : Z * Z * Z :=
  let z := days + 719468 in
  let era := z / 146097 in
  let doe := z - era * 146097 in
  let yoe := (doe - doe / 1460 + doe / 36524 - doe / 146096) / 365 in
  let doy := doe - (365 * yoe + yoe / 4 - yoe / 100) in
  let mp := (5 * doy + 2) / 153 in
  let d := doy - (153 * mp + 2) / 5 + 1 in
  let m := if mp <? 10 then mp + 3 else mp - 9 in
  let y := yoe + era * 400 + (if m <=? 2 then 1 else 0) in
  (y, m, d).

Definition toISOString (ms : Z) : string :=
  let day := 86400000 in
  let '(y, m, d) := civil_from_days (ms / day) in
  let t := ms mod day in
  let year := if (0 <=? y) && (y <=? 9999) then pad 4 y
              else (if y <? 0 then "-" else "+") +:+ pad 6 (Z.abs y) in
  year +:+ "-" +:+ pad 2 m +:+ "-" +:+ pad 2 d +:+ "T" +:+
  pad 2 (t / 3600000) +:+ ":" +:+ pad 2 (t / 60000 mod 60) +:+ ":" +:+
  pad 2 (t / 1000 mod 60) +:+ "." +:+ pad 3 (t mod 1000) +:+ "Z".

End JS.

Import JS.

(** ** The objects of the application *)

(** [this.state] of the state manager: the five content fields and the sync
    metadata, each holding whatever JavaScript value was put there.

    Objects are held by value.  The two classes mutate [this.state._meta]
    and [this.state.completed] in place and reach them through
    [this.state] only; a reference that a caller keeps to an object it
    passed in or was handed (an import payload, an exported snapshot) is
    not followed, and a request is recorded with the record as of the call
    that builds it. *)
Record State := {
  province : value;
  industry : value;
  hiring : value;
  revenue : value;
  completed : value;
  _meta : value
}.

(** The literal [{ lastModified, version, syncedAt, hasLocalChanges }]. *)
Definition meta_literal (lastModified version syncedAt hasLocalChanges : value) : value :=
  VObj Plain [("lastModified", lastModified); ("version", version);
              ("syncedAt", syncedAt); ("hasLocalChanges", hasLocalChanges)].

(** The payload of an upsert, [progressData] in [syncToCloud]. *)
Record ProgressData := {
  pd_province : value;
  pd_industry : value;
  pd_hiring : value;
  pd_revenue : value;
  pd_completed : value
}.

(** A row of [user_progress] as the client receives it; [row_updated_at] is
    [new Date(row.updated_at).getTime()]. *)
Record Row := {
  row_province : value;
  row_industry : value;
  row_hiring : value;
  row_revenue : value;
  row_completed : value;
  row_version : value;
  row_updated_at : Z
}.

Inductive Listener := SyncManagerListener.

(** The fields of [EnhancedStateManager]. *)
Record Manager := {
  state : State;
  syncInProgress : bool;
  syncListeners : list Listener;
  lastSyncTime : value;
  pendingChanges : bool;
  syncTimeout : option Z;
  currentSyncStatus : option string
}.

(** What [syncManager.handleSyncEvent] is at the moment it is called: the
    method of the class, or the function that the enhanced page assigns to
    the instance in its [setupEventListeners]. *)
Inductive SyncEventHandler := ClassHandler | PageHandler.

(** The fields of [SyncManager] that the retry policy uses, and the
    property [handleSyncEvent] of the instance. *)
Record SyncManager := {
  isOnline : bool;
  retryAttempts : Z;
  maxRetries : Z;
  retryDelay : Z;
  syncEventHandler : SyncEventHandler
}.

Record AuthManager := {
  isAuthenticated : bool;
  currentUser : option string
}.

(** [localStorage]: the stored items, and whether the browser lets the page
    use them ([Full]: every write exceeds the quota; [Denied]: every access
    is a SecurityError). *)
Inductive StorageMode := Usable | Full | Denied.

Record Storage := { items : gmap string string; mode : StorageMode }.

Inductive Callback := DebouncedSync | RetrySync.

#[global] Instance Callback_eq_dec : EqDecision Callback.
Proof. solve_decision. Defined.

Record Timer := { timer_id : Z; due : Z; callback : Callback }.

(** What leaves the two classes: requests to the remote service, the
    migration dialog, and the notifications of [showNotification]; the
    trace records each with the time it happened. *)
Inductive Effect :=
| Fetch (user : string)
| Upsert (user : string) (data : ProgressData)
| Dialog
| Notification (type message : string).

Record Browser := {
  localStorage : Storage;
  clock : Z;
  timers : list Timer;
  next_timer : Z;
  trace : list (Z * Effect)
}.

Record World := {
  esm : Manager;
  sync : SyncManager;
  auth : AuthManager;
  env : Browser
}.

(** *** Field updates *)

Definition with_esm (f : Manager -> Manager) (w : World) : World :=
  {| esm := f (esm w); sync := sync w; auth := auth w; env := env w |}.
Definition with_sync (f : SyncManager -> SyncManager) (w : World) : World :=
  {| esm := esm w; sync := f (sync w); auth := auth w; env := env w |}.
Definition with_env (f : Browser -> Browser) (w : World) : World :=
  {| esm := esm w; sync := sync w; auth := auth w; env := f (env w) |}.

Definition set_state (s : State) (m : Manager) : Manager :=
  {| state := s; syncInProgress := syncInProgress m; syncListeners := syncListeners m;
     lastSyncTime := lastSyncTime m; pendingChanges := pendingChanges m;
     syncTimeout := syncTimeout m; currentSyncStatus := currentSyncStatus m |}.
Definition set_syncInProgress (b : bool) (m : Manager) : Manager :=
  {| state := state m; syncInProgress := b; syncListeners := syncListeners m;
     lastSyncTime := lastSyncTime m; pendingChanges := pendingChanges m;
     syncTimeout := syncTimeout m; currentSyncStatus := currentSyncStatus m |}.
Definition set_lastSyncTime (t : value) (m : Manager) : Manager :=
  {| state := state m; syncInProgress := syncInProgress m; syncListeners := syncListeners m;
     lastSyncTime := t; pendingChanges := pendingChanges m;
     syncTimeout := syncTimeout m; currentSyncStatus := currentSyncStatus m |}.
Definition set_pendingChanges (b : bool) (m : Manager) : Manager :=
  {| state := state m; syncInProgress := syncInProgress m; syncListeners := syncListeners m;
     lastSyncTime := lastSyncTime m; pendingChanges := b;
     syncTimeout := syncTimeout m; currentSyncStatus := currentSyncStatus m |}.
Definition set_syncTimeout (t : option Z) (m : Manager) : Manager :=
  {| state := state m; syncInProgress := syncInProgress m; syncListeners := syncListeners m;
     lastSyncTime := lastSyncTime m; pendingChanges := pendingChanges m;
     syncTimeout := t; currentSyncStatus := currentSyncStatus m |}.
Definition set_currentSyncStatus (s : option string) (m : Manager) : Manager :=
  {| state := state m; syncInProgress := syncInProgress m; syncListeners := syncListeners m;
     lastSyncTime := lastSyncTime m; pendingChanges := pendingChanges m;
     syncTimeout := syncTimeout m; currentSyncStatus := s |}.

Definition set_retryAttempts (n : Z) (s : SyncManager) : SyncManager :=
  {| isOnline := isOnline s; retryAttempts := n; maxRetries := maxRetries s;
     retryDelay := retryDelay s; syncEventHandler := syncEventHandler s |}.
Definition set_syncEventHandler (h : SyncEventHandler) (s : SyncManager)
  : SyncManager :=
  {| isOnline := isOnline s; retryAttempts := retryAttempts s;
     maxRetries := maxRetries s; retryDelay := retryDelay s;
     syncEventHandler := h |}.

Definition set_localStorage (s : Storage) (b : Browser) : Browser :=
  {| localStorage := s; clock := clock b; timers := timers b;
     next_timer := next_timer b; trace := trace b |}.
Definition set_timers (ts : list Timer) (n : Z) (b : Browser) : Browser :=
  {| localStorage := localStorage b; clock := clock b; timers := ts;
     next_timer := n; trace := trace b |}.
Definition set_clock (t : Z) (b : Browser) : Browser :=
  {| localStorage := localStorage b; clock := t; timers := timers b;
     next_timer := next_timer b; trace := trace b |}.
Definition emit (e : Effect) (b : Browser) : Browser :=
  {| localStorage := localStorage b; clock := clock b; timers := timers b;
     next_timer := next_timer b; trace := trace b ++ [(clock b, e)] |}.

Definition set_province (v : value) (s : State) : State :=
  {| province := v; industry := industry s; hiring := hiring s; revenue := revenue s;
     completed := completed s; _meta := _meta s |}.
Definition set_industry (v : value) (s : State) : State :=
  {| province := province s; industry := v; hiring := hiring s; revenue := revenue s;
     completed := completed s; _meta := _meta s |}.
Definition set_hiring (v : value) (s : State) : State :=
  {| province := province s; industry := industry s; hiring := v; revenue := revenue s;
     completed := completed s; _meta := _meta s |}.
Definition set_revenue (v : value) (s : State) : State :=
  {| province := province s; industry := industry s; hiring := hiring s; revenue := v;
     completed := completed s; _meta := _meta s |}.
Definition set_completed (v : value) (s : State) : State :=
  {| province := province s; industry := industry s; hiring := hiring s;
     revenue := revenue s; completed := v; _meta := _meta s |}.
Definition set_meta (v : value) (s : State) : State :=
  {| province := province s; industry := industry s; hiring := hiring s;
     revenue := revenue s; completed := completed s; _meta := v |}.

(** *** Synchronous code: a state that survives exceptions

    A method runs on the world and either returns or throws; what it did
    before throwing stays done, which is what [try]/[catch] relies on. *)

Definition M (A : Type) : Type := World -> Result A * World.

Definition ret {A} (a : A) : M A := fun w => (Ok a, w).
Definition throw {A} : M A := fun w => (Throw, w).
Definition bind {A B} (m : M A) (k : A -> M B) : M B :=
  fun w => match m w with
           | (Ok a, w') => k a w'
           | (Throw, w') => (Throw, w')
           end.
Definition lift {A} (r : Result A) : M A := fun w => (r, w).
Definition gets {A} (f : World -> A) : M A := fun w => (Ok (f w), w).
Definition modify (f : World -> World) : M unit := fun w => (Ok tt, f w).

Definition try_catch {A} (body handler : M A) : M A :=
  fun w => match body w with
           | (Ok a, w') => (Ok a, w')
           | (Throw, w') => handler w'
           end.
Definition finally {A} (body : M A) (cleanup : M unit) : M A :=
  fun w => match body w with
           | (r, w') => match cleanup w' with
                        | (Ok _, w'') => (r, w'')
                        | (Throw, w'') => (Throw, w'')
                        end
           end.

Notation "x <- m ;; k" := (bind m (fun x => k))
  (at level 100, m at next level, right associativity).
Notation "m ;;; k" := (bind m (fun _ => k))
  (at level 100, right associativity).

Definition when (b : bool) (m : M unit) : M unit := if b then m else ret tt.

Definition run {A} (m : M A) (w : World) : World := snd (m w).
Definition answer {A} (m : M A) (w : World) : Result A := fst (m w).

(** *** The browser *)

Definition Date_now : M Z := gets (fun w => clock (env w)).

Definition getItem (k : string) : M (option string) :=
  fun w => match mode (localStorage (env w)) with
           | Denied => (Throw, w)
           | _ => (Ok (items (localStorage (env w)) !! k), w)
           end.

(** [localStorage.setItem(k, v)] converts [v] to a string first. *)
Definition setItem (k : string) (v : value) : M unit :=
  s <- lift (to_string v) ;;
  fun w => match mode (localStorage (env w)) with
           | Usable =>
               (Ok tt, with_env (set_localStorage
                         {| items := <[k := s]> (items (localStorage (env w)));
                            mode := Usable |}) w)
           | _ => (Throw, w)
           end.

Definition removeItem (k : string) : M unit :=
  fun w => match mode (localStorage (env w)) with
           | Denied => (Throw, w)
           | md =>
               (Ok tt, with_env (set_localStorage
                         {| items := delete k (items (localStorage (env w)));
                            mode := md |}) w)
           end.

(** [setTimeout(cb, delay)]: the callback runs no earlier than [delay]
    milliseconds from now. *)
Definition setTimeout (cb : Callback) (delay : Z) : M Z :=
  fun w =>
    let id := next_timer (env w) in
    (Ok id,
     with_env (set_timers
                 (timers (env w) ++
                  [{| timer_id := id; due := clock (env w) + delay; callback := cb |}])
                 (id + 1)) w).

Definition clearTimeout (id : Z) : M unit :=
  modify (fun w => with_env (set_timers
                    (filter (fun t => timer_id t ≠ id) (timers (env w)))
                    (next_timer (env w))) w).

Definition effect (e : Effect) : M unit := modify (with_env (emit e)).

Definition for_each {A} (f : A -> M unit) (l : list A) : M unit :=
  fold_right (fun a k => f a ;;; k) (ret tt) l.

Definition get_state : M State := gets (fun w => state (esm w)).
Definition put_state (s : State) : M unit := modify (with_esm (set_state s)).
Definition update_state (f : State -> State) : M unit :=
  modify (with_esm (fun m => set_state (f (state m)) m)).
Definition isUserAuthenticated : M bool := gets (fun w => isAuthenticated (auth w)).
Definition getCurrentUser : M (option string) := gets (fun w => currentUser (auth w)).

(** [user.id] *)
Definition user_id (user : option string) : M string :=
  match user with Some id => ret id | None => throw end.

(** ** SyncManager: the retry policy (sync-manager.js) *)

Definition showNotification (message type : string) : M unit :=
  effect (Notification type message).

(** [queueRetrySync] *)
Definition queueRetrySync : M unit :=
  s <- gets sync ;;
  if retryAttempts s <? maxRetries s then
    modify (with_sync (set_retryAttempts (retryAttempts s + 1))) ;;;
    _ <- setTimeout RetrySync (retryDelay s * (retryAttempts s + 1)) ;;
    ret tt
  else ret tt.

(** [handleSyncEvent] as the class defines it; the update of the status
    display is presentation and left out. *)
Definition handleSyncEvent (status : string) : M unit :=
  online <- gets (fun w => isOnline (sync w)) ;;
  when (String.eqb status "error" && online) queueRetrySync.

(** [handleSyncStatusChange] of the enhanced page, which its
    [setupEventListeners] puts in the place of [handleSyncEvent]: it
    updates the status display and writes to the console (its
    [showNotification] opens an alert for the type "error" only, which it
    never passes here).  All of it is presentation. *)
Definition handleSyncStatusChange (status message : string) : M unit := ret tt.

(** [setupEventListeners] of the enhanced page, as far as the two managers
    see it: [syncManager.handleSyncEvent = ...], which the page does with
    authentication enabled, as it is whenever the sync manager has been
    initialised.  The listeners it puts on the form call the setters and
    [reset]. *)
Definition setupEventListeners : M unit :=
  modify (with_sync (set_syncEventHandler PageHandler)).

(** ** EnhancedStateManager (enhanced-state-manager.js) *)

(** The listener that [SyncManager.initialize] registers is
    [(syncEvent) => { this.handleSyncEvent(syncEvent) }]: the method is
    looked up when the listener is called. *)
Definition call_listener (l : Listener) (status message : string) : M unit :=
  match l with
  | SyncManagerListener =>
      h <- gets (fun w => syncEventHandler (sync w)) ;;
      match h with
      | ClassHandler => handleSyncEvent status
      | PageHandler => handleSyncStatusChange status message
      end
  end.

(** [notifySyncListeners]: a listener that throws does not stop the rest. *)
Definition notifySyncListeners (status message : string) : M unit :=
  ls <- gets (fun w => syncListeners (esm w)) ;;
  for_each (fun l => try_catch (call_listener l status message) (ret tt)) ls.

(** [setSyncStatus] *)
Definition setSyncStatus (status : string) : M unit :=
  modify (with_esm (set_currentSyncStatus (Some status))) ;;;
  notifySyncListeners status EmptyString.

(** [loadDefaultState] *)
Definition loadDefaultState : M State :=
  now <- Date_now ;;
  ret {| province := VStr EmptyString;
         industry := VStr "general";
         hiring := VStr "no";
         revenue := VStr "gte30";
         completed := VObj Plain [];
         _meta := meta_literal (VNum now) (VNum 1) VNull (VBool false) |}.

(** [item || fallback] for what [getItem] answers: a string or [null]. *)
Definition item_or (item : option string) (fallback : string) : string :=
  match item with
  | Some s => if String.eqb s EmptyString then fallback else s
  | None => fallback
  end.

(** The argument of [JSON.parse] is converted to a string. *)
Definition stringified (v : value) : string :=
  default "undefined" (JSON_stringify v).

(** [loadLocalState]: [{ ...defaultState, ...saved }] is [saved], which
    carries all six keys. *)
Definition loadLocalState : M State :=
  defaultState <- loadDefaultState ;;
  try_catch
    (p <- getItem "province" ;;
     i <- getItem "industry" ;;
     h <- getItem "hiring" ;;
     r <- getItem "revenue" ;;
     c <- getItem "completed" ;;
     c' <- lift (JSON_parse (item_or c "{}")) ;;
     m <- getItem "_state_meta" ;;
     m' <- lift (JSON_parse (item_or m (stringified (_meta defaultState)))) ;;
     ret {| province := VStr (item_or p EmptyString);
            industry := VStr (item_or i "general");
            hiring := VStr (item_or h "no");
            revenue := VStr (item_or r "gte30");
            completed := c';
            _meta := m' |})
    (ret defaultState).

(** [if (this.syncTimeout)]: the field holds [null] or a timer id, and the
    id 0 would count as no timer. *)
Definition timer_set (pending : option Z) : option Z :=
  match pending with
  | Some id => if id =? 0 then None else Some id
  | None => None
  end.

(** [scheduleSyncToCloud(delay)]; what the timer runs is [DebouncedSync]. *)
Definition scheduleSyncToCloud (delay : Z) : M unit :=
  pending <- gets (fun w => syncTimeout (esm w)) ;;
  match timer_set pending with Some id => clearTimeout id | None => ret tt end ;;;
  id <- setTimeout DebouncedSync delay ;;
  modify (with_esm (set_syncTimeout (Some id))).

(** [this.state._meta.k = v] *)
Definition assign_meta (k : string) (v : value) : M unit :=
  s <- get_state ;;
  m <- lift (set_prop (_meta s) k v) ;;
  put_state (set_meta m s).

(** [persistLocal] *)
Definition persistLocal : M unit :=
  try_catch
    (now <- Date_now ;;
     assign_meta "lastModified" (VNum now) ;;;
     assign_meta "hasLocalChanges" (VBool true) ;;;
     s <- get_state ;;
     setItem "province" (province s) ;;;
     setItem "industry" (industry s) ;;;
     setItem "hiring" (hiring s) ;;;
     setItem "revenue" (revenue s) ;;;
     setItem "completed" (VStr (stringified (completed s))) ;;;
     setItem "_state_meta" (VStr (stringified (_meta s))) ;;;
     modify (with_esm (set_pendingChanges true)) ;;;
     scheduleSyncToCloud 2000)
    (ret tt).

(** An [async] method stops at its first [await]: either it has returned
    by then, or a request is under way and the rest runs on the reply. *)
Inductive Started (Q : Type) :=
| Returned (r : bool)
| Awaiting (request : Q).
Arguments Returned {Q} r.
Arguments Awaiting {Q} request.

Definition progressData (s : State) : ProgressData :=
  {| pd_province := province s; pd_industry := industry s; pd_hiring := hiring s;
     pd_revenue := revenue s; pd_completed := completed s |}.

(** [syncToCloud]: the [try] block up to the request, *)
Definition syncToCloud_request : M ProgressData :=
  modify (with_esm (set_syncInProgress true)) ;;;
  setSyncStatus "syncing" ;;;
  user <- getCurrentUser ;;
  s <- get_state ;;
  id <- user_id user ;;
  effect (Upsert id (progressData s)) ;;;
  ret (progressData s).

(** the [try] block after the reply, *)
Definition syncToCloud_saved (savedProgress : Row) : M bool :=
  now <- Date_now ;;
  update_state (set_meta (meta_literal (VNum (row_updated_at savedProgress))
                            (row_version savedProgress) (VNum now) (VBool false))) ;;;
  persistLocal ;;;
  assign_meta "hasLocalChanges" (VBool false) ;;;
  now' <- Date_now ;;
  modify (with_esm (set_lastSyncTime (VNum now'))) ;;;
  modify (with_esm (set_pendingChanges false)) ;;;
  setSyncStatus "synced" ;;;
  notifySyncListeners "synced" "Progress synced to cloud" ;;;
  ret true.

(** the [catch] and the [finally] block. *)
Definition syncToCloud_catch : M bool :=
  setSyncStatus "error" ;;;
  notifySyncListeners "error" "Failed to sync progress" ;;;
  ret false.

Definition syncToCloud_finally : M unit :=
  modify (with_esm (set_syncInProgress false)).

Definition syncToCloud_start : M (Started ProgressData) :=
  a <- isUserAuthenticated ;;
  busy <- gets (fun w => syncInProgress (esm w)) ;;
  if negb a || busy then ret (Returned false)
  else try_catch
         (pd <- syncToCloud_request ;; ret (Awaiting pd))
         (r <- finally syncToCloud_catch syncToCloud_finally ;; ret (Returned r)).

Definition syncToCloud_settle (reply : Result Row) : M bool :=
  finally (try_catch (saved <- lift reply ;; syncToCloud_saved saved) syncToCloud_catch)
          syncToCloud_finally.

(** The whole call, the reply of the service given. *)
Definition syncToCloud (respond : ProgressData -> Result Row) : M bool :=
  s <- syncToCloud_start ;;
  match s with
  | Returned r => ret r
  | Awaiting pd => syncToCloud_settle (respond pd)
  end.

(** [forceSyncToCloud] *)
Definition cancel_debounce : M unit :=
  pending <- gets (fun w => syncTimeout (esm w)) ;;
  match timer_set pending with Some id => clearTimeout id | None => ret tt end.

Definition forceSyncToCloud_start : M (Started ProgressData) :=
  cancel_debounce ;;; syncToCloud_start.

Definition forceSyncToCloud (respond : ProgressData -> Result Row) : M bool :=
  cancel_debounce ;;; syncToCloud respond.

(** [hasProgressData] *)
Definition hasProgressData (s : State) : Result bool :=
  if truthy (province s) then Ok true
  else match Object_keys (completed s) with
       | Throw => Throw
       | Ok keys =>
           Ok ((0 <? Z.of_nat (length keys))
               || strict_neq_str (industry s) "general"
               || strict_neq_str (hiring s) "no"
               || strict_neq_str (revenue s) "gte30")
       end.

(** [syncFromCloud]: up to the request, *)
Definition syncFromCloud_start : M (Started string) :=
  a <- isUserAuthenticated ;;
  if negb a then ret (Returned false)
  else try_catch
         (setSyncStatus "syncing" ;;;
          user <- getCurrentUser ;;
          id <- user_id user ;;
          effect (Fetch id) ;;;
          ret (Awaiting id))
         (setSyncStatus "error" ;;; ret (Returned false)).

(** the branch that adopts the cloud row, *)
Definition adopt_cloud (cloudProgress : Row) : M unit :=
  now <- Date_now ;;
  put_state {| province := row_province cloudProgress;
               industry := row_industry cloudProgress;
               hiring := row_hiring cloudProgress;
               revenue := row_revenue cloudProgress;
               completed := or_else (row_completed cloudProgress) (VObj Plain []);
               _meta := meta_literal (VNum (row_updated_at cloudProgress))
                          (row_version cloudProgress) (VNum now) (VBool false) |} ;;;
  persistLocal ;;;
  assign_meta "hasLocalChanges" (VBool false) ;;;
  notifySyncListeners "synced" "Progress synced from cloud".

(** the [try] block after the reply, *)
Definition syncFromCloud_fetched (cloudProgress : option Row)
    (respond : ProgressData -> Result Row) : M bool :=
  match cloudProgress with
  | Some cloud =>
      s <- get_state ;;
      localModified <- lift (get_prop (_meta s) "lastModified") ;;
      newer <- lift (js_gt (VNum (row_updated_at cloud)) localModified) ;;
      syncedAt <- lift (get_prop (_meta s) "syncedAt") ;;
      when (newer || negb (truthy syncedAt)) (adopt_cloud cloud)
  | None =>
      s <- get_state ;;
      has <- lift (hasProgressData s) ;;
      if has then _ <- syncToCloud respond ;; ret tt else ret tt
  end ;;;
  now <- Date_now ;;
  modify (with_esm (set_lastSyncTime (VNum now))) ;;;
  setSyncStatus "synced" ;;;
  ret true.

Definition syncFromCloud_settle (reply : Result (option Row))
    (respond : ProgressData -> Result Row) : M bool :=
  try_catch (cloud <- lift reply ;; syncFromCloud_fetched cloud respond)
            (setSyncStatus "error" ;;; ret false).

(** and the whole call. *)
Definition syncFromCloud (reply : Result (option Row))
    (respond : ProgressData -> Result Row) : M bool :=
  s <- syncFromCloud_start ;;
  match s with
  | Returned r => ret r
  | Awaiting _ => syncFromCloud_settle reply respond
  end.

(** [handleAuthStateChange(authState)] of the state manager: what follows
    [await this.syncFromCloud()], *)
Definition upload_local_changes (respond : ProgressData -> Result Row) : M unit :=
  s <- get_state ;;
  dirty <- lift (get_prop (_meta s) "hasLocalChanges") ;;
  if truthy dirty then _ <- syncToCloud respond ;; ret tt else ret tt.

(** the part that runs when the cloud has answered, *)
Definition handleAuthStateChange_settle (reply : Result (option Row))
    (respond : ProgressData -> Result Row) : M unit :=
  _ <- syncFromCloud_settle reply respond ;;
  upload_local_changes respond.

(** and the whole call; [authenticated] is [authState.isAuthenticated]. *)
Definition handleAuthStateChange (authenticated : bool)
    (reply : Result (option Row)) (respond : ProgressData -> Result Row) : M unit :=
  if authenticated then
    _ <- syncFromCloud reply respond ;;
    upload_local_changes respond
  else modify (with_esm (set_lastSyncTime VNull)).

(** [getSyncStatus] of the state manager; [currentSyncStatus] is not set
    before the first [setSyncStatus]. *)
Definition getSyncStatus : M string :=
  a <- isUserAuthenticated ;;
  if negb a then ret "offline"
  else
    st <- gets (fun w => currentSyncStatus (esm w)) ;;
    ret match st with
        | Some s => if String.eqb s EmptyString then "synced" else s
        | None => "synced"
        end.

(** [getSyncMeta] *)
Definition getSyncMeta (s : State) : value :=
  VObj Plain (assign [] (spread (_meta s))).

(** The setters. *)
Definition setProvince (v : value) : M unit :=
  update_state (set_province v) ;;; persistLocal.
Definition setIndustry (v : value) : M unit :=
  update_state (set_industry v) ;;; persistLocal.
Definition setHiring (v : value) : M unit :=
  update_state (set_hiring v) ;;; persistLocal.
Definition setRevenue (v : value) : M unit :=
  update_state (set_revenue v) ;;; persistLocal.

(** [setStepCompleted(key, completed)] *)
Definition setStepCompleted (key : string) (done : value) : M unit :=
  s <- get_state ;;
  c <- lift (set_prop (completed s) key done) ;;
  put_state (set_completed c s) ;;;
  persistLocal ;;;
  a <- isUserAuthenticated ;;
  when (truthy done && a) (scheduleSyncToCloud 500).

(** [getState]: the state without [_meta]. *)
Definition getState (s : State) : value :=
  VObj Plain [("province", province s); ("industry", industry s);
              ("hiring", hiring s); ("revenue", revenue s);
              ("completed", completed s)].

(** [reset]; the call of [syncToCloud] is not awaited. *)
Definition reset : M unit :=
  d <- loadDefaultState ;;
  put_state d ;;;
  try_catch
    (removeItem "province" ;;;
     removeItem "industry" ;;;
     removeItem "hiring" ;;;
     removeItem "revenue" ;;;
     removeItem "completed" ;;;
     removeItem "_state_meta")
    (ret tt) ;;;
  a <- isUserAuthenticated ;;
  if a then _ <- syncToCloud_start ;; ret tt else ret tt.

(** The state object as its properties, and back. *)
Definition state_props (s : State) : props :=
  [("province", province s); ("industry", industry s); ("hiring", hiring s);
   ("revenue", revenue s); ("completed", completed s); ("_meta", _meta s)].

Definition field (k : string) (ps : props) : value :=
  default VUndefined (own_get k ps).

Definition props_state (ps : props) : State :=
  {| province := field "province" ps; industry := field "industry" ps;
     hiring := field "hiring" ps; revenue := field "revenue" ps;
     completed := field "completed" ps; _meta := field "_meta" ps |}.

Definition validKeys : list string :=
  ["province"; "industry"; "hiring"; "revenue"; "completed"].

(** The loop of [importProgress] that fills [filteredData]. *)
Definition filter_step (importData : value) (acc : Result props) (key : string)
  : Result props :=
  match acc with
  | Throw => Throw
  | Ok filteredData =>
      match hasOwnProperty importData key with
      | Throw => Throw
      | Ok false => Ok filteredData
      | Ok true =>
          match get_prop importData key with
          | Ok v => Ok (own_set key v filteredData)
          | Throw => Throw
          end
      end
  end.

Definition filter_import (importData : value) : Result props :=
  fold_left (filter_step importData) validKeys (Ok []).

(** [importProgress]; the call of [syncToCloud] is not awaited. *)
Definition importProgress (importData : value) : M bool :=
  try_catch
    (filteredData <- lift (filter_import importData) ;;
     s <- get_state ;;
     now <- Date_now ;;
     put_state
       (props_state
          (own_set "_meta"
             (VObj Plain
                (own_set "hasLocalChanges" (VBool true)
                   (own_set "lastModified" (VNum now)
                      (assign [] (spread (_meta s))))))
             (assign (assign [] (state_props s)) filteredData))) ;;;
     persistLocal ;;;
     a <- isUserAuthenticated ;;
     (if a then _ <- syncToCloud_start ;; ret tt else ret tt) ;;;
     ret true)
    (ret false).

(** [exportProgress] *)
Definition exportProgress : M value :=
  s <- get_state ;;
  now <- Date_now ;;
  e <- lift (set_prop (getState s) "_exportedAt" (VStr (toISOString now))) ;;
  version <- lift (get_prop (_meta s) "version") ;;
  lift (set_prop e "_version" version).

(** ** SyncManager: the sign-in migration (sync-manager.js) *)

(** [getMostRecent] *)
Definition getMostRecent (localValue cloudValue localTime cloudTime : value)
  : Result value :=
  if negb (truthy localTime) || negb (truthy cloudTime)
  then Ok (or_else localValue cloudValue)
  else match js_gt localTime cloudTime with
       | Ok gt => Ok (if gt then localValue else cloudValue)
       | Throw => Throw
       end.

(** [localState.k] with [localState._meta?.lastModified] and the cloud
    time, as each line of the [mergedData] literal has it. *)
Definition merged_field (k : string) (localState cloudValue : value)
    (cloudTime : Z) : Result value :=
  match get_prop localState k with
  | Throw => Throw
  | Ok localValue =>
      match get_prop localState "_meta" with
      | Throw => Throw
      | Ok m =>
          match get_prop_opt m "lastModified" with
          | Throw => Throw
          | Ok localTime =>
              getMostRecent localValue cloudValue localTime (VNum cloudTime)
          end
      end
  end.

(** The [mergedData] literal of [mergeLocalAndCloudData]. *)
Definition mergedData (localState : value) (cloudProgress : Row) : Result props :=
  let t := row_updated_at cloudProgress in
  match merged_field "province" localState (row_province cloudProgress) t,
        merged_field "industry" localState (row_industry cloudProgress) t,
        merged_field "hiring" localState (row_hiring cloudProgress) t,
        merged_field "revenue" localState (row_revenue cloudProgress) t,
        get_prop localState "completed" with
  | Ok p, Ok i, Ok h, Ok r, Ok c =>
      Ok [("province", p); ("industry", i); ("hiring", h); ("revenue", r);
          ("completed",
           VObj Plain (assign (assign [] (spread (row_completed cloudProgress)))
                         (spread c)))]
  | _, _, _, _, _ => Throw
  end.

(** [uploadLocalData] *)
Definition uploadLocalData (respond : ProgressData -> Result Row) : M unit :=
  try_catch
    (_ <- forceSyncToCloud respond ;;
     showNotification "Local progress uploaded to cloud" "success")
    (showNotification "Error uploading progress" "error").

(** [useCloudData] *)
Definition useCloudData (reply : Result (option Row))
    (respond : ProgressData -> Result Row) : M unit :=
  try_catch
    (_ <- syncFromCloud reply respond ;;
     showNotification "Using cloud progress data" "success")
    (showNotification "Error loading cloud data" "error").

(** [mergeLocalAndCloudData] *)
Definition mergeLocalAndCloudData (reply : Result (option Row))
    (respond : ProgressData -> Result Row) : M unit :=
  try_catch
    (user <- getCurrentUser ;;
     id <- user_id user ;;
     effect (Fetch id) ;;;
     cloudProgress <- lift reply ;;
     s <- get_state ;;
     match cloudProgress with
     | None => uploadLocalData respond
     | Some cloud =>
         merged <- lift (mergedData (getState s) cloud) ;;
         put_state (props_state (assign (assign [] (state_props s)) merged)) ;;;
         _ <- forceSyncToCloud respond ;;
         showNotification "Progress merged successfully!" "success"
     end)
    (showNotification "Error merging progress data" "error").

(** [handleUserSignIn]; [choice] is what the dialog resolves with. *)
Definition handleUserSignIn (choice : string) (reply : Result (option Row))
    (respond : ProgressData -> Result Row) : M unit :=
  try_catch
    (s <- get_state ;;
     hasLocalData <- lift (hasProgressData s) ;;
     if hasLocalData then
       effect Dialog ;;;
       if String.eqb choice "merge" then mergeLocalAndCloudData reply respond
       else if String.eqb choice "cloud" then useCloudData reply respond
       else if String.eqb choice "local" then uploadLocalData respond
       else mergeLocalAndCloudData reply respond
     else
       _ <- syncFromCloud reply respond ;; ret tt)
    (ret tt).

(** [handleUserSignIn] in two parts: up to the dialog or the request it
    waits for, *)
Inductive SignInWait :=
| WaitChoice
| WaitCloud (user : string)
| NoWait.

Definition handleUserSignIn_start : M SignInWait :=
  try_catch
    (s <- get_state ;;
     hasLocalData <- lift (hasProgressData s) ;;
     if hasLocalData then effect Dialog ;;; ret WaitChoice
     else
       st <- syncFromCloud_start ;;
       ret match st with
           | Awaiting user => WaitCloud user
           | Returned _ => NoWait
           end)
    (ret NoWait).

(** and from the choice on. *)
Definition handleUserSignIn_chosen (choice : string) (reply : Result (option Row))
    (respond : ProgressData -> Result Row) : M unit :=
  try_catch
    (if String.eqb choice "merge" then mergeLocalAndCloudData reply respond
     else if String.eqb choice "cloud" then useCloudData reply respond
     else if String.eqb choice "local" then uploadLocalData respond
     else mergeLocalAndCloudData reply respond)
    (ret tt).

(** [forceSync] *)
Definition forceSync (reply : Result (option Row))
    (respond : ProgressData -> Result Row) : M bool :=
  a <- isUserAuthenticated ;;
  if negb a then
    showNotification "Please sign in to sync your progress" "info" ;;; ret false
  else
    online <- gets (fun w => isOnline (sync w)) ;;
    if negb online then showNotification "No internet connection" "error" ;;; ret false
    else
      try_catch
        (_ <- syncFromCloud reply respond ;;
         _ <- forceSyncToCloud respond ;;
         showNotification "Progress synced successfully!" "success" ;;;
         ret true)
        (showNotification "Sync failed. Please try again." "error" ;;; ret false).

(** [importProgressData] up to [await forceSyncToCloud()]: the upload
    that [importProgress] has started is still under way then. *)
Definition importProgressData_start (importData : value) : M (Started ProgressData) :=
  try_catch
    (success <- importProgress importData ;;
     if success then
       showNotification "Progress imported successfully!" "success" ;;;
       a <- isUserAuthenticated ;;
       if a then
         st <- forceSyncToCloud_start ;;
         ret match st with
             | Awaiting pd => Awaiting pd
             | Returned _ => Returned success
             end
       else ret (Returned success)
     else
       showNotification "Failed to import progress data" "error" ;;;
       ret (Returned success))
    (showNotification "Error importing progress data" "error" ;;; ret (Returned false)).

(** *** The queue of the sync manager

    [syncQueue] and the sync manager's own [syncInProgress], beside the
    world. *)
Record Page := {
  world : World;
  syncQueue : list value;
  queueInProgress : bool
}.

Definition with_world (f : World -> World) (p : Page) : Page :=
  {| world := f (world p); syncQueue := syncQueue p;
     queueInProgress := queueInProgress p |}.
Definition set_syncQueue (q : list value) (p : Page) : Page :=
  {| world := world p; syncQueue := q; queueInProgress := queueInProgress p |}.
Definition set_queueInProgress (b : bool) (p : Page) : Page :=
  {| world := world p; syncQueue := syncQueue p; queueInProgress := b |}.

Definition set_isOnline (b : bool) (s : SyncManager) : SyncManager :=
  {| isOnline := b; retryAttempts := retryAttempts s; maxRetries := maxRetries s;
     retryDelay := retryDelay s; syncEventHandler := syncEventHandler s |}.

(** The [try] block of [executeSync]: [switch (operation.type)]. *)
Definition sync_operation (operation : value) (reply : Result (option Row))
    (respond : ProgressData -> Result Row) : M unit :=
  type <- lift (get_prop operation "type") ;;
  match type with
  | VStr t =>
      if String.eqb t "upload" then _ <- forceSyncToCloud respond ;; ret tt
      else if String.eqb t "download" then _ <- syncFromCloud reply respond ;; ret tt
      else ret tt
  | _ => ret tt
  end.

(** [executeSync]: an operation that throws goes back to the end of the
    queue. *)
Definition executeSync (operation : value) (reply : Result (option Row))
    (respond : ProgressData -> Result Row) (p : Page) : Page :=
  match sync_operation operation reply respond (world p) with
  | (Ok _, w) => with_world (fun _ => w) p
  | (Throw, w) => set_syncQueue (syncQueue p ++ [operation]) (with_world (fun _ => w) p)
  end.

(** The loop of [processSyncQueue], which runs while the queue has an
    operation; [fuel] bounds the turns looked at, and no answer means the
    loop is still turning.  The service answers the download of turn [i]
    with [replies i]. *)
Fixpoint drain (fuel : nat) (i : nat) (replies : nat -> Result (option Row))
    (respond : ProgressData -> Result Row) (p : Page) : option Page :=
  match syncQueue p with
  | [] => Some p
  | operation :: rest =>
      match fuel with
      | O => None
      | S fuel' =>
          drain fuel' (S i) replies respond
            (executeSync operation (replies i) respond (set_syncQueue rest p))
      end
  end.

(** [processSyncQueue] *)
Definition processSyncQueue (fuel : nat) (replies : nat -> Result (option Row))
    (respond : ProgressData -> Result Row) (p : Page) : option Page :=
  if queueInProgress p || (length (syncQueue p) =? 0)%nat then Some p
  else option_map (set_queueInProgress false)
         (drain fuel 0 replies respond (set_queueInProgress true p)).

(** [clearSyncQueue] *)
Definition clearSyncQueue (p : Page) : Page :=
  with_world (with_sync (set_retryAttempts 0)) (set_syncQueue [] p).

(** [handleOnlineStatusChange] *)
Definition handleOnlineStatusChange (online : bool) (fuel : nat)
    (replies : nat -> Result (option Row)) (respond : ProgressData -> Result Row)
    (p : Page) : option Page :=
  let p' := with_world (with_sync (set_isOnline online)) p in
  if online then processSyncQueue fuel replies respond p' else Some p'.

(** *** Authentication events (auth-manager.js)

    [AuthManager.handleAuthStateChange(event, session)] before it notifies
    its listeners; [user] is [session?.user].  The look at the profile
    ([ensureUserProfile]) touches nothing of the two classes and is left
    out. *)
Definition with_auth (f : AuthManager -> AuthManager) (w : World) : World :=
  {| esm := esm w; sync := sync w; auth := f (auth w); env := env w |}.

Definition authenticate (event : string) (user : option string) : M unit :=
  if String.eqb event "SIGNED_IN" then
    modify (with_auth (fun _ => {| isAuthenticated := bool_decide (is_Some user);
                                   currentUser := user |}))
  else if String.eqb event "SIGNED_OUT" then
    modify (with_auth (fun _ => {| isAuthenticated := false; currentUser := None |}))
  else ret tt.

(** [handleAuthChange] of the sync manager, up to what it waits for. *)
Definition handleAuthChange_start (authenticated : bool) (p : Page)
  : SignInWait * Page :=
  if authenticated then
    match handleUserSignIn_start (world p) with
    | (Ok wait, w) => (wait, with_world (fun _ => w) p)
    | (Throw, w) => (NoWait, with_world (fun _ => w) p)
    end
  else (NoWait, clearSyncQueue p).

(** [handleAuthStateChange] of the state manager, up to what it waits
    for. *)
Definition handleAuthStateChange_start (authenticated : bool)
  : M (Started string) :=
  if authenticated then syncFromCloud_start
  else modify (with_esm (set_lastSyncTime VNull)) ;;; ret (Returned false).

(** An authentication event reaches the page: the auth manager takes it
    in and calls its listeners, the sync manager's and the state manager's
    as their [initialize] register them, each running up to its first
    [await]. *)
Definition auth_event (event : string) (user : option string) (p : Page)
  : SignInWait * Started string * Page :=
  let p1 := with_world (run (authenticate event user)) p in
  let authenticated := isAuthenticated (auth (world p1)) in
  let '(wait, p2) := handleAuthChange_start authenticated p1 in
  match handleAuthStateChange_start authenticated (world p2) with
  | (Ok st, w) => (wait, st, with_world (fun _ => w) p2)
  | (Throw, w) => (wait, Returned false, with_world (fun _ => w) p2)
  end.

(** ** Timers *)

(** The callback of [scheduleSyncToCloud]. *)
Definition debounced_sync (respond : ProgressData -> Result Row) : M unit :=
  a <- isUserAuthenticated ;;
  pending <- gets (fun w => pendingChanges (esm w)) ;;
  if a && pending then _ <- syncToCloud respond ;; ret tt else ret tt.

(** The callback of [queueRetrySync]. *)
Definition retry_sync (respond : ProgressData -> Result Row) : M unit :=
  success <- forceSyncToCloud respond ;;
  s <- gets sync ;;
  if success then modify (with_sync (set_retryAttempts 0))
  else if maxRetries s <=? retryAttempts s then
    showNotification "Sync failed after multiple attempts" "error" ;;;
    modify (with_sync (set_retryAttempts 0))
  else ret tt.

Definition run_callback (respond : ProgressData -> Result Row) (cb : Callback)
  : M unit :=
  match cb with
  | DebouncedSync => debounced_sync respond
  | RetrySync => retry_sync respond
  end.

(** The timer that fires next: the earliest, the oldest among equals. *)
Definition earliest (ts : list Timer) : option Timer :=
  fold_left (fun best t => match best with
                           | Some b => if due t <? due b then Some t else best
                           | None => Some t
                           end) ts None.

(** A timer fires: time has reached its due date, it leaves the timer
    list, its callback runs to the end (the service replies at once). *)
Definition fire (respond : ProgressData -> Result Row) (t : Timer) : M unit :=
  modify (fun w => with_env (fun b =>
            set_clock (Z.max (clock b) (due t))
              (set_timers (filter (fun t' => timer_id t' ≠ timer_id t) (timers b))
                 (next_timer b) b)) w) ;;;
  try_catch (run_callback respond (callback t)) (ret tt).

(** Let time pass until [deadline], firing at most [n] timers. *)
Fixpoint elapse (n : nat) (respond : ProgressData -> Result Row) (deadline : Z)
    (w : World) : World :=
  match n with
  | O => w
  | S n' =>
      match earliest (timers (env w)) with
      | Some t =>
          if due t <=? deadline
          then elapse n' respond deadline (run (fire respond t) w)
          else with_env (set_clock (Z.max (clock (env w)) deadline)) w
      | None => with_env (set_clock (Z.max (clock (env w)) deadline)) w
      end
  end.

(** The requests sent to [saveUserProgress], in order. *)
Definition upserts (w : World) : list (Z * ProgressData) :=
  omap (fun te => match snd te with
                  | Upsert _ pd => Some (fst te, pd)
                  | _ => None
                  end) (trace (env w)).

Definition dialogs (w : World) : nat :=
  length (omap (fun te => match snd te with
                          | Dialog => Some tt
                          | _ => None
                          end) (trace (env w))).

Definition debounce_timers (w : World) : list Timer :=
  filter (fun t => callback t = DebouncedSync) (timers (env w)).

(** ** A world to start from

    The managers as their constructors leave them, the state as
    [loadLocalState] finds it, the sync manager listening. *)
Definition new_manager (s : State) : Manager :=
  {| state := s; syncInProgress := false; syncListeners := [SyncManagerListener];
     lastSyncTime := VNull; pendingChanges := false; syncTimeout := None;
     currentSyncStatus := None |}.

Definition new_syncManager (online : bool) : SyncManager :=
  {| isOnline := online; retryAttempts := 0; maxRetries := 3; retryDelay := 5000;
     syncEventHandler := ClassHandler |}.

Definition boot (store : Storage) (user : option string) (now : Z) : World :=
  let w0 :=
    {| esm := new_manager {| province := VUndefined; industry := VUndefined;
                             hiring := VUndefined; revenue := VUndefined;
                             completed := VUndefined; _meta := VUndefined |};
       sync := new_syncManager true;
       auth := {| isAuthenticated := bool_decide (is_Some user); currentUser := user |};
       env := {| localStorage := store; clock := now; timers := [];
                 next_timer := 1; trace := [] |} |} in
  match loadLocalState w0 with
  | (Ok s, w) => with_esm (set_state s) w
  | (Throw, w) => w
  end.

(** ** Vocabulary of the statements *)

(** The record [loadDefaultState] builds at time [now]. *)
Definition default_state (now : Z) : State :=
  {| province := VStr EmptyString;
     industry := VStr "general";
     hiring := VStr "no";
     revenue := VStr "gte30";
     completed := VObj Plain [];
     _meta := meta_literal (VNum now) (VNum 1) VNull (VBool false) |}.

(** The stored texts [loadLocalState] hands to [JSON.parse]. *)
Definition completed_text (w : World) : string :=
  item_or (items (localStorage (env w)) !! "completed") "{}".

Definition meta_text (w : World) : string :=
  item_or (items (localStorage (env w)) !! "_state_meta")
          (stringified (_meta (default_state (clock (env w))))).

(** The four string fields hold what is stored, a default standing in for
    a missing or empty item. *)
Definition retains_stored_fields (w : World) (s : State) : Prop :=
  let it := items (localStorage (env w)) in
  province s = VStr (item_or (it !! "province") EmptyString) /\
  industry s = VStr (item_or (it !! "industry") "general") /\
  hiring s = VStr (item_or (it !! "hiring") "no") /\
  revenue s = VStr (item_or (it !! "revenue") "gte30").

(** A browser with the given stored items, nobody signed in, at time 0. *)
Definition world_storing (l : list (string * string)) : World :=
  boot {| items := list_to_map l; mode := Usable |} None 0.

(** A method preserves an observation of the world. *)
Definition preserves {T A} (obs : World -> T) (m : M A) : Prop :=
  forall w, obs (run m w) = obs w.

(** The content fields of the local record. *)
Definition content_of (w : World) : ProgressData := progressData (state (esm w)).

(** The claim about the completion union, in the words of the
    specification: a [true] on either side is a [true] in the merge. *)
Definition true_dominates (local remote merged : props) : Prop :=
  forall k,
    own_get k local = Some (VBool true) \/ own_get k remote = Some (VBool true) ->
    own_get k merged = Some (VBool true).

(** Somebody signed in, with the given local record, at time [now]. *)
Definition signed_in (s : State) (now : Z) : World :=
  {| esm := new_manager s;
     sync := new_syncManager true;
     auth := {| isAuthenticated := true; currentUser := Some "user-1" |};
     env := {| localStorage := {| items := ∅; mode := Usable |}; clock := now;
               timers := []; next_timer := 1; trace := [] |} |}.

(** A record that last changed at [modified] and has synced before. *)
Definition record (p : string) (c : props) (modified : Z) : State :=
  {| province := VStr p; industry := VStr "general"; hiring := VStr "no";
     revenue := VStr "gte30"; completed := VObj Plain c;
     _meta := meta_literal (VNum modified) (VNum 1) (VNum modified) (VBool true) |}.

(** A cloud row updated at [updated]. *)
Definition cloud_row (p : string) (c : props) (updated : Z) : Row :=
  {| row_province := VStr p; row_industry := VStr "general"; row_hiring := VStr "no";
     row_revenue := VStr "gte30"; row_completed := VObj Plain c;
     row_version := VNum 2; row_updated_at := updated |}.

(** A service that stores what it is sent. *)
Definition accept (version updated : Z) (pd : ProgressData) : Result Row :=
  Ok {| row_province := pd_province pd; row_industry := pd_industry pd;
        row_hiring := pd_hiring pd; row_revenue := pd_revenue pd;
        row_completed := pd_completed pd; row_version := VNum version;
        row_updated_at := updated |}.

(** A service that cannot be reached. *)
Definition unreachable (pd : ProgressData) : Result Row := Throw.

(** An observation of the world that does not look at the flags of the
    state manager, the sync manager, the storage or the timers, and in the
    trace looks at the [loud] effects only, *)
Class Onlooker {T : Type} (loud : Effect -> bool) (obs : World -> T) : Prop := {
  by_storage : forall w st, obs (with_env (set_localStorage st) w) = obs w;
  by_timers : forall w ts n, obs (with_env (set_timers ts n) w) = obs w;
  by_sync : forall w f, obs (with_sync f w) = obs w;
  by_flags : forall w f, (forall m, state (f m) = state m) -> obs (with_esm f w) = obs w;
  by_effect : forall w e, loud e = false -> obs (with_env (emit e) w) = obs w
}.

(** and one that does not look at the metadata either. *)
Class Bystander {T : Type} (loud : Effect -> bool) (obs : World -> T) : Prop := {
  bystander_onlooker :: Onlooker loud obs;
  by_meta : forall w m,
      obs (with_esm (set_state (set_meta m (state (esm w)))) w) = obs w
}.

Definition silent (e : Effect) : bool := false.
Definition is_dialog (e : Effect) : bool :=
  match e with Dialog => true | _ => false end.
Definition is_upsert (e : Effect) : bool :=
  match e with Upsert _ _ => true | _ => false end.

(** The local record, the clock, the session. *)
Definition state_of (w : World) : State := state (esm w).
Definition time_of (w : World) : Z := clock (env w).
Definition session_of (w : World) : AuthManager := auth w.

(** What [persistLocal] does to the record: it stamps the metadata. *)
Definition touch (now : Z) (s : State) : State :=
  match set_prop (_meta s) "lastModified" (VNum now) with
  | Throw => s
  | Ok m =>
      match set_prop m "hasLocalChanges" (VBool true) with
      | Throw => set_meta m s
      | Ok m' => set_meta m' s
      end
  end.

(** The record [syncFromCloud] installs from a cloud row at time [now]. *)
Definition adopted (cloud : Row) (now : Z) : State :=
  {| province := row_province cloud;
     industry := row_industry cloud;
     hiring := row_hiring cloud;
     revenue := row_revenue cloud;
     completed := or_else (row_completed cloud) (VObj Plain []);
     _meta := meta_literal (VNum now) (row_version cloud) (VNum now) (VBool false) |}.

(** "Meaningful data" in the words of the specification: a content field
    away from its default, or a completion flag that is [true]. *)
Definition some_flag_true (c : value) : bool :=
  existsb (fun kv => match snd kv with VBool true => true | _ => false end)
          (spread c).

Definition meaningful_as_specified (s : State) : bool :=
  truthy (province s)
  || strict_neq_str (industry s) "general"
  || strict_neq_str (hiring s) "no"
  || strict_neq_str (revenue s) "gte30"
  || some_flag_true (completed s).

(** The mutations of the presentation layer: the four selections, and a
    check box ticked or cleared. *)
Inductive Mutation :=
| SetProvince (v : string)
| SetIndustry (v : string)
| SetHiring (v : string)
| SetRevenue (v : string)
| SetStepCompleted (key : string) (done : bool).

Definition mutate (m : Mutation) : M unit :=
  match m with
  | SetProvince v => setProvince (VStr v)
  | SetIndustry v => setIndustry (VStr v)
  | SetHiring v => setHiring (VStr v)
  | SetRevenue v => setRevenue (VStr v)
  | SetStepCompleted key done => setStepCompleted key (VBool done)
  end.

(** The debounce window in the words of the specification, *)
Definition window_as_specified (m : Mutation) : Z :=
  match m with
  | SetStepCompleted _ _ => 500
  | _ => 2000
  end.

(** and the one the code uses: the short window is for a step ticked by a
    signed-in user. *)
Definition debounce_window (m : Mutation) (signedIn : bool) : Z :=
  match m with
  | SetStepCompleted _ true => if signedIn then 500 else 2000
  | _ => 2000
  end.

Definition is_string (v : value) : bool :=
  match v with VStr _ => true | _ => false end.
Definition is_object (v : value) : bool :=
  match v with VObj _ _ => true | _ => false end.
Definition is_plain (v : value) : bool :=
  match v with VObj Plain _ => true | _ => false end.

(** Timer ids are positive, as [setTimeout] hands them out, and the only
    debounce timer that can be pending is the one the state manager
    remembers in [syncTimeout]. *)
Definition timers_ok (w : World) : Prop :=
  0 < next_timer (env w) /\
  forall t, t ∈ timers (env w) -> callback t = DebouncedSync ->
            syncTimeout (esm w) = Some (timer_id t) /\ timer_id t <> 0.

(** A world in working order: storage takes writes, the record has the
    types of the data model (strings, a completion map that is a plain
    object, a metadata object). *)
Definition ready (w : World) : Prop :=
  let s := state (esm w) in
  mode (localStorage (env w)) = Usable /\
  is_string (province s) = true /\ is_string (industry s) = true /\
  is_string (hiring s) = true /\ is_string (revenue s) = true /\
  is_plain (completed s) = true /\ is_object (_meta s) = true /\
  timers_ok w.

(** The timer list after [scheduleSyncToCloud]. *)
Definition reschedule (pending : option Z) (ts : list Timer) (id due' : Z)
  : list Timer :=
  match timer_set pending with
  | Some old => filter (fun t => timer_id t ≠ old) ts
  | None => ts
  end ++ [{| timer_id := id; due := due'; callback := DebouncedSync |}].

Definition scheduled (delay : Z) (w : World) : World :=
  with_esm (set_syncTimeout (Some (next_timer (env w))))
    (with_env (set_timers
                 (reschedule (syncTimeout (esm w)) (timers (env w))
                    (next_timer (env w)) (clock (env w) + delay))
                 (next_timer (env w) + 1)) w).

(** The world after a [persistLocal] that went through, [st] being the
    storage it wrote. *)
Definition persisted (st : Storage) (w : World) : World :=
  scheduled 2000
    (with_esm (set_pendingChanges true)
       (with_env (set_localStorage st)
          (with_esm (set_state (touch (clock (env w)) (state (esm w)))) w))).

(** A method never throws. *)
Definition total {A} (m : M A) : Prop :=
  forall w, exists a w', m w = (Ok a, w').

(** The payloads [importProgress] takes: anything but [null], [undefined]
    and an object that shadows [hasOwnProperty]. *)
Definition import_accepts (v : value) : bool :=
  match v with
  | VUndefined | VNull => false
  | VObj _ ps => negb (own_has "hasOwnProperty" ps)
  | _ => true
  end.

(** The own property [k] of a payload, for [k] one of the content keys. *)
Definition payload_field (v : value) (k : string) : option value :=
  match v with
  | VObj _ ps => own_get k ps
  | _ => None
  end.

(** The content after an import: a field the payload has replaces the
    local one. *)
Definition imported (v : value) (pd : ProgressData) : ProgressData :=
  {| pd_province := default (pd_province pd) (payload_field v "province");
     pd_industry := default (pd_industry pd) (payload_field v "industry");
     pd_hiring := default (pd_hiring pd) (payload_field v "hiring");
     pd_revenue := default (pd_revenue pd) (payload_field v "revenue");
     pd_completed := default (pd_completed pd) (payload_field v "completed") |}.

(** The six keys of the record in [localStorage]. *)
Definition storage_keys : list string :=
  ["province"; "industry"; "hiring"; "revenue"; "completed"; "_state_meta"].

(** The requests sent to the remote service, of either kind. *)
Definition is_request (e : Effect) : bool :=
  match e with Fetch _ | Upsert _ _ => true | _ => false end.

Definition requests (w : World) : list (Z * Effect) :=
  filter (fun te => is_request (snd te) = true) (trace (env w)).

(** What a visitor and the browser can set off on the page. *)
Inductive Action :=
| Mutate (m : Mutation)
| Reset
| Import (payload : value)
| ImportData (payload : value)
| ForceSync
| ForceUpload
| Download
| Fire (t : Timer).

Definition perform (reply : Result (option Row))
    (respond : ProgressData -> Result Row) (a : Action) : M unit :=
  match a with
  | Mutate m => mutate m
  | Reset => reset
  | Import payload => _ <- importProgress payload ;; ret tt
  | ImportData payload => _ <- importProgressData_start payload ;; ret tt
  | ForceSync => _ <- forceSync reply respond ;; ret tt
  | ForceUpload => _ <- forceSyncToCloud respond ;; ret tt
  | Download => _ <- syncFromCloud reply respond ;; ret tt
  | Fire t => fire respond t
  end.

(** One action after the other, each in the world the one before left,
    whether it threw or not. *)
Definition perform_all (reply : Result (option Row))
    (respond : ProgressData -> Result Row) (l : list Action) (w : World) : World :=
  fold_left (fun w a => run (perform reply respond a) w) l w.

(** A burst of mutations, each followed by a pause of so many
    milliseconds, in which at most [n] timers fire. *)
Definition burst (n : nat) (respond : ProgressData -> Result Row)
    (l : list (Mutation * Z)) (w : World) : World :=
  fold_left (fun w md =>
               let w1 := run (mutate (fst md)) w in
               elapse n respond (clock (env w1) + snd md) w1) l w.

(** A method sends no request while nobody is signed in, and signs nobody
    in. *)
Definition quiet_when_signed_out {A} (m : M A) : Prop :=
  forall w, isAuthenticated (auth w) = false ->
            requests (run m w) = requests w /\
            isAuthenticated (auth (run m w)) = false.

(** An operation of the queue whose [type] can be read: anything but
    [null] and [undefined]. *)
Definition readable (operation : value) : Prop :=
  is_ok (get_prop operation "type") = true.

(** What an operation asks for, done once: an upload for the type
    "upload", a download for "download", nothing for any other type. *)
Definition execute (operation : value) (reply : Result (option Row))
    (respond : ProgressData -> Result Row) (w : World) : World :=
  match get_prop operation "type" with
  | Ok (VStr t) =>
      if String.eqb t "upload" then run (forceSyncToCloud respond) w
      else if String.eqb t "download" then run (syncFromCloud reply respond) w
      else w
  | _ => w
  end.

(** The operations of a queue done in their order, each once; the
    download of the operation at place [i] is answered by [replies i]. *)
Fixpoint executed (i : nat) (replies : nat -> Result (option Row))
    (respond : ProgressData -> Result Row) (q : list value) (w : World) : World :=
  match q with
  | [] => w
  | operation :: rest =>
      executed (S i) replies respond rest (execute operation (replies i) respond w)
  end.

(** An operation that asks for an upload. *)
Definition asks_upload (operation : value) : Prop :=
  get_prop operation "type" = Ok (VStr "upload").

(** The content of a cloud row as a record takes it. *)
Definition cloud_row_state (cloud : Row) : State :=
  {| province := row_province cloud; industry := row_industry cloud;
     hiring := row_hiring cloud; revenue := row_revenue cloud;
     completed := or_else (row_completed cloud) (VObj Plain []);
     _meta := VUndefined |}.

(** [this.syncInProgress] of the state manager. *)
Definition upload_under_way (w : World) : bool := syncInProgress (esm w).

(** [this.state._meta.hasLocalChanges] *)
Definition hasLocalChanges (w : World) : Result value :=
  get_prop (_meta (state (esm w))) "hasLocalChanges".

(** The record a mutation leaves, before [persistLocal] stamps it. *)
Definition changed (m : Mutation) (s : State) : State :=
  match m with
  | SetProvince v => set_province (VStr v) s
  | SetIndustry v => set_industry (VStr v) s
  | SetHiring v => set_hiring (VStr v) s
  | SetRevenue v => set_revenue (VStr v) s
  | SetStepCompleted key done =>
      match set_prop (completed s) key (VBool done) with
      | Ok c => set_completed c s
      | Throw => s
      end
  end.

(** What can happen on the page while an upload is under way: the visitor
    changes a selection or a step, the debounce timer fires. *)
Definition during_upload (a : Action) : Prop :=
  match a with
  | Mutate _ => True
  | Fire t => callback t = DebouncedSync
  | _ => False
  end.

(** The world after a timer has fired, its callback apart. *)
Definition fired (t : Timer) (w : World) : World :=
  with_env (fun b =>
    set_clock (Z.max (clock b) (due t))
      (set_timers (filter (fun t' => timer_id t' ≠ timer_id t) (timers b))
         (next_timer b) b)) w.

(** No timer but debounce timers is pending. *)
Definition only_debounce_timers (w : World) : Prop :=
  forall t, t ∈ timers (env w) -> callback t = DebouncedSync.

(** A value that JSON writes as one token: [null], a boolean, a string, a
    natural number. *)
Definition scalar (v : value) : bool :=
  match v with
  | VNull | VBool _ | VStr _ => true
  | VNum n => 0 <=? n
  | _ => false
  end.

(** An object whose properties are all scalars. *)
Definition flat (ps : props) : bool := forallb (fun kv => scalar (snd kv)) ps.

Definition value_token (v : value) : token :=
  match v with
  | VStr s => TStr s
  | _ => TLit v
  end.

(** The tokens of the members of an object, commas between. *)
Fixpoint member_tokens (ps : props) : list token :=
  match ps with
  | [] => []
  | [(k, v)] => [TStr k; TColon; value_token v]
  | (k, v) :: r => TStr k :: TColon :: value_token v :: TComma :: member_tokens r
  end.

Definition member_text (kv : string * value) : string :=
  quote (fst kv) +:+ ":" +:+ stringified (snd kv).

(** A character that is part of a word: no white space, quote or
    punctuation. *)
Definition wordchar (c : ascii) : bool :=
  negb (is_json_space c || Ascii.eqb c dquote || bool_decide (is_Some (punctuation c))).

(** A property list as an object holds it: no key twice, the index keys
    first and in ascending order. *)
Definition well_ordered (ps : props) : Prop := assign [] ps = ps.

(** The six items [persistLocal] writes. *)
Definition stored (p i h r c m : string) (it : gmap string string)
  : gmap string string :=
  <["_state_meta" := m]>
    (<["completed" := c]>
       (<["revenue" := r]>
          (<["hiring" := h]> (<["industry" := i]> (<["province" := p]> it))))).

(** ** The retry policy on the page *)

(** The retries that are pending. *)
Definition retry_timers (w : World) : list Timer :=
  filter (fun t => callback t = RetrySync) (timers (env w)).

(** What the page does before it has set up its listeners: the managers
    are initialised and their listeners called, and no timer fires yet (a
    retry is five seconds away at least, a debounced upload two). *)
Definition at_startup (a : Action) : Prop :=
  match a with
  | Fire _ => False
  | _ => True
  end.

(** The number of retries that fire while time passes until [deadline]:
    [elapse], counting. *)
Fixpoint retries_fired (n : nat) (respond : ProgressData -> Result Row)
    (deadline : Z) (w : World) : nat :=
  match n with
  | O => O
  | S n' =>
      match earliest (timers (env w)) with
      | Some t =>
          if due t <=? deadline
          then (if decide (callback t = RetrySync) then 1 else 0)%nat
               + retries_fired n' respond deadline (run (fire respond t) w)
          else O
      | None => O
      end
  end.

(** A method keeps an invariant, whether it returns or throws. *)
Definition keeps (I : World -> Prop) {A : Type} (m : M A) : Prop :=
  forall w, I w -> I (run m w).

(** An invariant of the timers, the clock and the sync manager: it does
    not look at the state manager, the storage or the trace, a debounce
    timer that is set or any timer that is cleared does not break it, and
    the listener of the sync manager keeps it. *)
Class Backstage (I : World -> Prop) : Prop := {
  inv_esm : forall w f, I w -> I (with_esm f w);
  inv_storage : forall w st, I w -> I (with_env (set_localStorage st) w);
  inv_effect : forall w e, I w -> I (with_env (emit e) w);
  inv_debounce : forall w d, I w -> I (run (setTimeout DebouncedSync d) w);
  inv_clear : forall w id, I w -> I (run (clearTimeout id) w);
  inv_listener : forall l status message, keeps I (call_listener l status message)
}.

(** During start-up, which began at time [c]: the clock stands, the retry
    policy has its constants, and the retries that are pending are among
    the first [retryAttempts] of three, due 5, 10 and 15 s after [c]. *)
Definition startup_invariant (c : Z) (w : World) : Prop :=
  clock (env w) = c /\
  maxRetries (sync w) = 3 /\ retryDelay (sync w) = 5000 /\
  0 <= retryAttempts (sync w) <= 3 /\
  sublist (map due (retry_timers w))
          (take (Z.to_nat (retryAttempts (sync w)))
                [c + 5000; c + 10000; c + 15000]).

(** Once the page is set up: its handler is in place, and the retries that
    are pending are among those of [L]. *)
Definition page_invariant (L : list Timer) (w : World) : Prop :=
  syncEventHandler (sync w) = PageHandler /\ sublist (retry_timers w) L.

(** The status is "error". *)
Definition in_error (w : World) : Prop :=
  currentSyncStatus (esm w) = Some "error".

(** The storage of the browser. *)
Definition storage_of (w : World) : Storage := localStorage (env w).

(** * Properties *)

(** ** Loading the local record *)

Lemma loadDefaultState_run w :
  loadDefaultState w = (Ok (default_state (clock (env w))), w).
Proof. reflexivity. Qed.

(** C5 (as amended).  [loadLocalState] always answers a record and changes
    nothing.  When storage can be read and both stored JSON texts parse,
    the string fields are the stored strings (a default for a missing or
    empty one) and the completion map and the metadata are what the texts
    parse to; when storage cannot be read or a text is malformed, the
    answer is the complete default record, and no stored value is kept. *)
Theorem loadLocalState_total_with_defaults (w : World) :
  exists s, loadLocalState w = (Ok s, w) /\
    (forall c m, mode (localStorage (env w)) <> Denied ->
       JSON_parse (completed_text w) = Ok c ->
       JSON_parse (meta_text w) = Ok m ->
       retains_stored_fields w s /\ completed s = c /\ _meta s = m) /\
    (mode (localStorage (env w)) = Denied \/
     JSON_parse (completed_text w) = Throw \/
     JSON_parse (meta_text w) = Throw ->
     s = default_state (clock (env w))).
Proof.
  unfold loadLocalState, completed_text, meta_text, retains_stored_fields.
  unfold bind, try_catch, getItem, lift, ret. rewrite loadDefaultState_run.
  destruct (mode (localStorage (env w))) eqn:Hmode;
    repeat (progress (cbv beta iota; rewrite ?Hmode)).
  3: { eexists; split; [reflexivity|]; split;
       [intros c m Hd; congruence | intros _; reflexivity]. }
  all: destruct (JSON_parse (item_or (items (localStorage (env w)) !! "completed") "{}"))
         as [c|] eqn:Hc;
       [ repeat (progress (cbv beta iota; rewrite ?Hmode));
         destruct (JSON_parse (item_or (items (localStorage (env w)) !! "_state_meta")
                   (stringified (_meta (default_state (clock (env w)))))))
           as [m|] eqn:Hm | ].
  all: eexists; (split; [reflexivity|]); split.
  all: try (intros c' m' _ Hc' Hm'; simpl; repeat split; congruence).
  all: try (intros [H|[H|H]]; congruence).
Qed.

(** C5, the claim as first stated, fails: with a malformed completion text
    the stored province is lost along with it. *)
Lemma load_malformed_completed_drops_province :
  let w := world_storing [("province", "ON"); ("completed", "{oops")] in
  JSON_parse (completed_text w) = Throw /\
  exists s, answer loadLocalState w = Ok s /\
            completed s = VObj Plain [] /\ ~ retains_stored_fields w s.
Proof.
  split; [vm_compute; reflexivity|].
  eexists; split; [vm_compute; reflexivity|].
  split; [reflexivity|].
  intros [H _]. vm_compute in H. discriminate H.
Qed.

Lemma loadLocalState_total_witness :
  let w := world_storing [("province", "ON"); ("completed", "{}")] in
  exists s, loadLocalState w = (Ok s, w) /\ province s = VStr "ON" /\
            completed s = VObj Plain [].
Proof.
  intros w.
  destruct (loadLocalState_total_with_defaults w) as (s & Hrun & Hok & _).
  exists s. split; [exact Hrun|].
  destruct (Hok (VObj Plain [])
              (meta_literal (VNum 0) (VNum 1) VNull (VBool false)))
    as ((Hp & _) & Hc & _).
  - vm_compute. discriminate.
  - vm_compute. reflexivity.
  - vm_compute. reflexivity.
  - split; [exact Hp | exact Hc].
Defined.

(** ** Sequencing *)

Lemma bind_ok {A B} (m : M A) (k : A -> M B) w a w' :
  m w = (Ok a, w') -> bind m k w = k a w'.
Proof. unfold bind. intros ->. reflexivity. Qed.

Lemma bind_throw {A B} (m : M A) (k : A -> M B) w w' :
  m w = (Throw, w') -> bind m k w = (Throw, w').
Proof. unfold bind. intros ->. reflexivity. Qed.

Section Preservation.
Context {T : Type} (obs : World -> T).

Lemma preserves_ret {A} (a : A) : preserves obs (ret a).
Proof. intros w. reflexivity. Qed.

Lemma preserves_throw {A} : preserves obs (@throw A).
Proof. intros w. reflexivity. Qed.

Lemma preserves_lift {A} (r : Result A) : preserves obs (lift r).
Proof. intros w. reflexivity. Qed.

Lemma preserves_gets {A} (f : World -> A) : preserves obs (gets f).
Proof. intros w. reflexivity. Qed.

Lemma preserves_modify (f : World -> World) :
  (forall w, obs (f w) = obs w) -> preserves obs (modify f).
Proof. intros H w. apply H. Qed.

Lemma preserves_bind {A B} (m : M A) (k : A -> M B) :
  preserves obs m -> (forall a, preserves obs (k a)) -> preserves obs (bind m k).
Proof.
  intros Hm Hk w. unfold run, bind. specialize (Hm w). unfold run in Hm.
  destruct (m w) as [[a|] w1]; simpl in *; [|exact Hm].
  rewrite <- Hm. apply Hk.
Qed.

Lemma preserves_try_catch {A} (body handler : M A) :
  preserves obs body -> preserves obs handler ->
  preserves obs (try_catch body handler).
Proof.
  intros Hb Hh w. unfold run, try_catch. specialize (Hb w). unfold run in Hb.
  destruct (body w) as [[a|] w1]; simpl in *; [exact Hb|].
  rewrite <- Hb. apply Hh.
Qed.

Lemma preserves_finally {A} (body : M A) (cleanup : M unit) :
  preserves obs body -> preserves obs cleanup ->
  preserves obs (finally body cleanup).
Proof.
  intros Hb Hc w. unfold run, finally. specialize (Hb w). unfold run in Hb.
  destruct (body w) as [r w1]. specialize (Hc w1). unfold run in Hc.
  destruct (cleanup w1) as [[u|] w2]; simpl in *; congruence.
Qed.

Lemma preserves_when (b : bool) (m : M unit) :
  preserves obs m -> preserves obs (when b m).
Proof. intros H. destruct b; [exact H | apply preserves_ret]. Qed.

Lemma preserves_for_each {A} (f : A -> M unit) (l : list A) :
  (forall a, preserves obs (f a)) -> preserves obs (for_each f l).
Proof.
  intros H. induction l as [|a l IH]; simpl.
  - apply preserves_ret.
  - apply preserves_bind; [apply H | intros _; exact IH].
Qed.
End Preservation.

(** Break a method down to the leaves whose effect is known. *)
Create HintDb frame.

Ltac preserve :=
  repeat first
    [ solve [eauto with frame nocore]
    | apply preserves_ret | apply preserves_throw | apply preserves_lift
    | apply preserves_gets
    | apply preserves_bind; [ | intros ? ]
    | apply preserves_try_catch | apply preserves_finally
    | apply preserves_when
    | apply preserves_for_each; intros ?
    | apply preserves_modify; intros ?; reflexivity
    | match goal with
      | |- preserves _ (match ?x with _ => _ end) => destruct x
      end ].

(** ** What the background work leaves alone

    Persisting, scheduling, notifying, uploading and retrying act on the
    metadata, the flags of the managers, the storage, the timers and the
    trace of requests.  An observation that ignores these is preserved. *)

Section Onlooking.
Context {T : Type} (loud : Effect -> bool) (obs : World -> T) `{!Onlooker loud obs}.

Lemma flag_change (f : Manager -> Manager) :
  (forall m, state (f m) = state m) -> preserves obs (modify (with_esm f)).
Proof. intros Hf w. apply (by_flags (loud := loud)), Hf. Qed.

Lemma onlooker_getItem k : preserves obs (getItem k).
Proof. intros w. unfold run, getItem. destruct (mode _); reflexivity. Qed.

Lemma onlooker_setItem k v : preserves obs (setItem k v).
Proof.
  unfold setItem. apply preserves_bind; [apply preserves_lift|].
  intros s w. unfold run. destruct (mode _); try reflexivity.
  apply (by_storage (loud := loud)).
Qed.

Lemma onlooker_removeItem k : preserves obs (removeItem k).
Proof.
  intros w. unfold run, removeItem.
  destruct (mode _); try reflexivity; apply (by_storage (loud := loud)).
Qed.

Lemma onlooker_setTimeout cb d : preserves obs (setTimeout cb d).
Proof. intros w. apply (by_timers (loud := loud)). Qed.

Lemma onlooker_clearTimeout id : preserves obs (clearTimeout id).
Proof. intros w. apply (by_timers (loud := loud)). Qed.

Lemma onlooker_effect e : loud e = false -> preserves obs (effect e).
Proof. intros He w. apply (by_effect (loud := loud)), He. Qed.

Lemma onlooker_retryAttempts n :
  preserves obs (modify (with_sync (set_retryAttempts n))).
Proof. intros w. apply (by_sync (loud := loud)). Qed.

#[local] Hint Resolve onlooker_getItem onlooker_setItem onlooker_removeItem
  onlooker_setTimeout onlooker_clearTimeout onlooker_retryAttempts : frame.
#[local] Hint Extern 1 (preserves _ (modify (with_esm _))) =>
  (apply flag_change; intros ?; reflexivity) : frame.

Lemma onlooker_scheduleSyncToCloud d : preserves obs (scheduleSyncToCloud d).
Proof. unfold scheduleSyncToCloud. preserve. Qed.

Lemma onlooker_queueRetrySync : preserves obs queueRetrySync.
Proof. unfold queueRetrySync. preserve. Qed.
#[local] Hint Resolve onlooker_queueRetrySync : frame.

Lemma onlooker_notifySyncListeners status message :
  preserves obs (notifySyncListeners status message).
Proof. unfold notifySyncListeners, call_listener, handleSyncEvent. preserve. Qed.
#[local] Hint Resolve onlooker_notifySyncListeners : frame.

Lemma onlooker_setSyncStatus status : preserves obs (setSyncStatus status).
Proof. unfold setSyncStatus. preserve. Qed.

(** What [persistLocal] does once the metadata is stamped. *)
Lemma onlooker_persist_items :
  preserves obs
    (s <- get_state ;;
     setItem "province" (province s) ;;;
     setItem "industry" (industry s) ;;;
     setItem "hiring" (hiring s) ;;;
     setItem "revenue" (revenue s) ;;;
     setItem "completed" (VStr (stringified (completed s))) ;;;
     setItem "_state_meta" (VStr (stringified (_meta s))) ;;;
     modify (with_esm (set_pendingChanges true)) ;;;
     scheduleSyncToCloud 2000).
Proof. pose proof onlooker_scheduleSyncToCloud. unfold get_state. preserve. Qed.
End Onlooking.

#[local] Hint Resolve onlooker_getItem onlooker_setItem onlooker_removeItem
  onlooker_setTimeout onlooker_clearTimeout onlooker_retryAttempts
  onlooker_scheduleSyncToCloud onlooker_queueRetrySync
  onlooker_notifySyncListeners onlooker_setSyncStatus
  onlooker_persist_items : frame.
#[local] Hint Extern 1 (preserves _ (effect _)) =>
  (eapply onlooker_effect; solve [typeclasses eauto | reflexivity | auto]) : frame.
#[local] Hint Extern 1 (preserves _ (modify (with_esm _))) =>
  (eapply flag_change; solve [typeclasses eauto | intros ?; reflexivity]) : frame.
#[local] Hint Extern 0 (Onlooker _ _) => typeclasses eauto : frame.
#[local] Hint Extern 0 (Bystander _ _) => typeclasses eauto : frame.

Section Background.
Context {T : Type} (loud : Effect -> bool) (obs : World -> T) `{!Bystander loud obs}.

Lemma bystander_assign_meta k v : preserves obs (assign_meta k v).
Proof.
  intros w. unfold run, assign_meta, bind, get_state, gets, lift, put_state, modify.
  destruct (set_prop _ _ _); [apply (by_meta (loud := loud)) | reflexivity].
Qed.

Lemma bystander_set_meta m : preserves obs (update_state (set_meta m)).
Proof. intros w. apply (by_meta (loud := loud)). Qed.

#[local] Hint Resolve bystander_assign_meta bystander_set_meta : frame.

Lemma bystander_persistLocal : preserves obs persistLocal.
Proof. unfold persistLocal, Date_now, get_state. preserve. Qed.
#[local] Hint Resolve bystander_persistLocal : frame.

Lemma bystander_syncToCloud_settle reply : preserves obs (syncToCloud_settle reply).
Proof.
  unfold syncToCloud_settle, syncToCloud_saved, syncToCloud_catch,
    syncToCloud_finally, Date_now.
  preserve.
Qed.
#[local] Hint Resolve bystander_syncToCloud_settle : frame.

(** The rest sends requests and shows notifications, which the
    observation must not look at. *)
Hypothesis upsert_unseen : forall u pd, loud (Upsert u pd) = false.
Hypothesis notification_unseen : forall t m, loud (Notification t m) = false.

Lemma bystander_showNotification m t : preserves obs (showNotification m t).
Proof. unfold showNotification. preserve. Qed.
#[local] Hint Resolve bystander_showNotification : frame.

Lemma bystander_syncToCloud_start : preserves obs syncToCloud_start.
Proof.
  unfold syncToCloud_start, syncToCloud_request, syncToCloud_catch,
    syncToCloud_finally, isUserAuthenticated, getCurrentUser, get_state, user_id.
  preserve.
Qed.
#[local] Hint Resolve bystander_syncToCloud_start : frame.

Lemma bystander_syncToCloud respond : preserves obs (syncToCloud respond).
Proof. unfold syncToCloud. preserve. Qed.
#[local] Hint Resolve bystander_syncToCloud : frame.

Lemma bystander_forceSyncToCloud respond : preserves obs (forceSyncToCloud respond).
Proof. unfold forceSyncToCloud, cancel_debounce. preserve. Qed.
#[local] Hint Resolve bystander_forceSyncToCloud : frame.

Lemma bystander_uploadLocalData respond : preserves obs (uploadLocalData respond).
Proof. unfold uploadLocalData. preserve. Qed.
End Background.

#[local] Hint Resolve bystander_assign_meta bystander_set_meta
  bystander_persistLocal bystander_syncToCloud_settle : frame.
#[local] Hint Extern 2 (preserves _ (showNotification _ _)) =>
  (eapply bystander_showNotification; solve [typeclasses eauto | intros; reflexivity]) : frame.
#[local] Hint Extern 2 (preserves _ syncToCloud_start) =>
  (eapply bystander_syncToCloud_start; solve [typeclasses eauto | intros; reflexivity]) : frame.
#[local] Hint Extern 2 (preserves _ (syncToCloud _)) =>
  (eapply bystander_syncToCloud; solve [typeclasses eauto | intros; reflexivity]) : frame.
#[local] Hint Extern 2 (preserves _ (forceSyncToCloud _)) =>
  (eapply bystander_forceSyncToCloud; solve [typeclasses eauto | intros; reflexivity]) : frame.
#[local] Hint Extern 2 (preserves _ (uploadLocalData _)) =>
  (eapply bystander_uploadLocalData; solve [typeclasses eauto | intros; reflexivity]) : frame.

#[local] Instance content_onlooker : Onlooker silent content_of.
Proof.
  split; intros; try reflexivity.
  unfold content_of. simpl. congruence.
Qed.

#[local] Instance content_bystander : Bystander silent content_of.
Proof. split; [exact content_onlooker | intros; reflexivity]. Qed.

#[local] Instance state_onlooker : Onlooker silent state_of.
Proof.
  split; intros; try reflexivity.
  unfold state_of. simpl. congruence.
Qed.

#[local] Instance time_onlooker : Onlooker silent time_of.
Proof. split; intros; reflexivity. Qed.

#[local] Instance time_bystander : Bystander silent time_of.
Proof. split; [exact time_onlooker | intros; reflexivity]. Qed.

#[local] Instance session_onlooker : Onlooker silent session_of.
Proof. split; intros; reflexivity. Qed.

#[local] Instance session_bystander : Bystander silent session_of.
Proof. split; [exact session_onlooker | intros; reflexivity]. Qed.

(** ** Own properties *)

Lemma own_get_replace k' k v ps :
  own_get k' (own_replace k v ps) =
  if String.eqb k' k then (if own_has k ps then Some v else None)
  else own_get k' ps.
Proof.
  unfold own_has. induction ps as [|[k1 v1] r IH]; simpl.
  - destruct (String.eqb k' k); reflexivity.
  - destruct (String.eqb_spec k k1) as [->|Hk]; simpl.
    + destruct (String.eqb_spec k' k1); reflexivity.
    + rewrite IH. destruct (String.eqb_spec k' k1) as [->|Hk'].
      * destruct (String.eqb_spec k1 k); [congruence | reflexivity].
      * reflexivity.
Qed.

Lemma own_get_add_index k' i k v ps :
  own_get k ps = None ->
  own_get k' (own_add_index i k v ps) =
  if String.eqb k' k then Some v else own_get k' ps.
Proof.
  induction ps as [|[k1 v1] r IH]; simpl; intros Hnone.
  - destruct (String.eqb k' k); reflexivity.
  - destruct (String.eqb_spec k k1) as [->|Hk]; [discriminate|].
    destruct (array_index k1) as [j|]; [destruct (i <? j)|]; simpl;
      try reflexivity.
    rewrite (IH Hnone).
    destruct (String.eqb_spec k' k1) as [->|Hk']; [|reflexivity].
    destruct (String.eqb_spec k1 k); [congruence | reflexivity].
Qed.

Lemma own_get_snoc k' k v ps :
  own_get k' (ps ++ [(k, v)]) =
  match own_get k' ps with
  | Some x => Some x
  | None => if String.eqb k' k then Some v else None
  end.
Proof.
  induction ps as [|[k1 v1] r IH]; simpl; [reflexivity|].
  destruct (String.eqb k' k1); [reflexivity | exact IH].
Qed.

Lemma own_get_set k' k v ps :
  own_get k' (own_set k v ps) = if String.eqb k' k then Some v else own_get k' ps.
Proof.
  unfold own_set. destruct (own_has k ps) eqn:Hhas.
  - rewrite own_get_replace, Hhas. reflexivity.
  - assert (Hnone : own_get k ps = None).
    { unfold own_has in Hhas. destruct (own_get k ps); [discriminate | reflexivity]. }
    destruct (array_index k) as [i|].
    + apply own_get_add_index, Hnone.
    + rewrite own_get_snoc.
      destruct (String.eqb_spec k' k) as [->|Hk].
      * rewrite Hnone. reflexivity.
      * destruct (own_get k' ps); reflexivity.
Qed.

(** The later of two assignments to a key is the one that stays. *)
Lemma own_get_assign k target source :
  own_get k (assign target source) =
  match own_get k (rev source) with
  | Some v => Some v
  | None => own_get k target
  end.
Proof.
  unfold assign. revert target.
  induction source as [|[k1 v1] r IH]; intros target; simpl; [reflexivity|].
  rewrite IH, own_get_snoc, own_get_set.
  destruct (own_get k (rev r)); [reflexivity|].
  destruct (String.eqb k k1); reflexivity.
Qed.

Lemma own_get_None k ps : k ∉ own_keys ps -> own_get k ps = None.
Proof.
  induction ps as [|[k1 v1] r IH]; simpl; intros Hk; [reflexivity|].
  apply not_elem_of_cons in Hk as [Hne Hr].
  destruct (String.eqb_spec k k1); [congruence | apply IH, Hr].
Qed.

Lemma own_get_keys k ps : k ∈ own_keys ps <-> is_Some (own_get k ps).
Proof.
  induction ps as [|[k1 v1] r IH]; simpl.
  - split; [intros H; inversion H | intros [x H]; discriminate].
  - rewrite elem_of_cons, IH.
    destruct (String.eqb_spec k k1) as [->|Hk]; split; intros H; eauto.
    destruct H as [H|H]; [congruence | exact H].
Qed.

(** An object has one property per key: there the first and the last
    occurrence of a key are the same. *)
Lemma own_get_rev k ps : NoDup (own_keys ps) -> own_get k (rev ps) = own_get k ps.
Proof.
  induction ps as [|[k1 v1] r IH]; simpl; intros Hnd; [reflexivity|].
  apply NoDup_cons in Hnd as [Hk1 Hr].
  rewrite own_get_snoc, (IH Hr).
  destruct (String.eqb_spec k k1) as [->|Hk].
  - rewrite (own_get_None _ _ Hk1). reflexivity.
  - destruct (own_get k r); reflexivity.
Qed.

(** ** The merge strategy: completion map *)

Lemma mergedData_of_state s cloud :
  mergedData (getState s) cloud =
  Ok [("province", or_else (province s) (row_province cloud));
      ("industry", or_else (industry s) (row_industry cloud));
      ("hiring", or_else (hiring s) (row_hiring cloud));
      ("revenue", or_else (revenue s) (row_revenue cloud));
      ("completed",
       VObj Plain (assign (assign [] (spread (row_completed cloud)))
                     (spread (completed s))))].
Proof. reflexivity. Qed.

Lemma overwrite_content s p i h r c :
  props_state (assign (assign [] (state_props s))
                 [("province", p); ("industry", i); ("hiring", h);
                  ("revenue", r); ("completed", c)]) =
  {| province := p; industry := i; hiring := h; revenue := r; completed := c;
     _meta := _meta s |}.
Proof. reflexivity. Qed.

(** What the merge leaves in the local record, whatever the upload does. *)
Lemma merge_content w cloud respond u :
  currentUser (auth w) = Some u ->
  content_of (run (mergeLocalAndCloudData (Ok (Some cloud)) respond) w) =
  let s := state (esm w) in
  {| pd_province := or_else (province s) (row_province cloud);
     pd_industry := or_else (industry s) (row_industry cloud);
     pd_hiring := or_else (hiring s) (row_hiring cloud);
     pd_revenue := or_else (revenue s) (row_revenue cloud);
     pd_completed :=
       VObj Plain (assign (assign [] (spread (row_completed cloud)))
                     (spread (completed s))) |}.
Proof.
  intros Hu.
  set (s := state (esm w)).
  set (s' := {| province := or_else (province s) (row_province cloud);
                industry := or_else (industry s) (row_industry cloud);
                hiring := or_else (hiring s) (row_hiring cloud);
                revenue := or_else (revenue s) (row_revenue cloud);
                completed :=
                  VObj Plain (assign (assign [] (spread (row_completed cloud)))
                                (spread (completed s)));
                _meta := _meta s |}).
  set (w1 := with_esm (set_state s') (with_env (emit (Fetch u)) w)).
  assert (Hstep : mergeLocalAndCloudData (Ok (Some cloud)) respond w =
                  try_catch (_ <- forceSyncToCloud respond ;;
                             showNotification "Progress merged successfully!" "success")
                            (showNotification "Error merging progress data" "error") w1).
  { unfold mergeLocalAndCloudData, try_catch, bind at 1 2 3 4 5 6.
    unfold getCurrentUser, gets. rewrite Hu. reflexivity. }
  unfold run. rewrite Hstep.
  assert (P : preserves content_of
                (try_catch
                   (_ <- forceSyncToCloud respond ;;
                    showNotification "Progress merged successfully!" "success")
                   (showNotification "Error merging progress data" "error")))
    by preserve.
  exact (P w1).
Qed.

(** C1 (as amended).  In the merge strategy the merged completion map has
    the union of both key sets; a key the local map has keeps its local
    value, any other key has the remote value.  So a local [true] always
    wins and a remote [true] wins over a missing local key, while a local
    [false] stands against a remote [true]. *)
Theorem merge_completed_union_local_wins
    (w : World) (cloud : Row) (respond : ProgressData -> Result Row) (u : string) :
  let local := spread (completed (state (esm w))) in
  let remote := spread (row_completed cloud) in
  currentUser (auth w) = Some u ->
  NoDup (own_keys local) -> NoDup (own_keys remote) ->
  exists merged,
    completed (state (esm (run (mergeLocalAndCloudData (Ok (Some cloud)) respond) w)))
    = VObj Plain merged /\
    (forall k, k ∈ own_keys merged <-> k ∈ own_keys local \/ k ∈ own_keys remote) /\
    (forall k, own_get k merged =
               match own_get k local with
               | Some v => Some v
               | None => own_get k remote
               end).
Proof.
  intros local remote Hu Hl Hr.
  exists (assign (assign [] remote) local).
  assert (Hget : forall k, own_get k (assign (assign [] remote) local) =
                           match own_get k local with
                           | Some v => Some v
                           | None => own_get k remote
                           end).
  { intros k. rewrite !own_get_assign, !own_get_rev by assumption.
    destruct (own_get k local); [reflexivity|].
    destruct (own_get k remote); reflexivity. }
  split; [|split; [|exact Hget]].
  - change (pd_completed
              (content_of (run (mergeLocalAndCloudData (Ok (Some cloud)) respond) w))
            = VObj Plain (assign (assign [] remote) local)).
    rewrite (merge_content w cloud respond u Hu). reflexivity.
  - intros k. rewrite !own_get_keys, Hget.
    destruct (own_get k local) as [v|]; split; intros H; eauto.
    destruct H as [[x H]|H]; [discriminate | exact H].
Qed.

Lemma merge_completed_union_witness :
  let w := signed_in (record "ON" [("a", VBool true)] 100) 1000 in
  let cloud := cloud_row "ON" [("a", VBool false); ("b", VBool true)] 200 in
  exists merged,
    completed (state (esm (run (mergeLocalAndCloudData (Ok (Some cloud)) (accept 3 1000)) w)))
    = VObj Plain merged /\
    own_get "a" merged = Some (VBool true) /\ own_get "b" merged = Some (VBool true).
Proof.
  intros w cloud.
  destruct (merge_completed_union_local_wins w cloud (accept 3 1000) "user-1")
    as (merged & Hm & _ & Hget).
  - reflexivity.
  - apply (bool_decide_unpack _). vm_compute. exact I.
  - apply (bool_decide_unpack _). vm_compute. exact I.
  - exists merged. split; [exact Hm|]. rewrite !Hget. split; reflexivity.
Defined.

(** C1, the claim as first stated, fails: a step unchecked on this device
    stays unchecked although the account has it completed. *)
Lemma merge_local_false_overrides_cloud_true :
  let w := signed_in (record "ON" [("a", VBool false)] 100) 1000 in
  let cloud := cloud_row "ON" [("a", VBool true); ("b", VBool true)] 200 in
  completed (state (esm (run (mergeLocalAndCloudData (Ok (Some cloud)) (accept 3 1000)) w)))
  = VObj Plain [("a", VBool false); ("b", VBool true)] /\
  ~ true_dominates [("a", VBool false)] [("a", VBool true); ("b", VBool true)]
      [("a", VBool false); ("b", VBool true)].
Proof.
  split; [vm_compute; reflexivity|].
  intros H. specialize (H "a" (or_intror eq_refl)). discriminate H.
Qed.

(** ** The merge strategy: scalar fields *)

(** [getMostRecent] itself compares the two times when it is given both. *)
Lemma getMostRecent_compares lv cv lt ct :
  lt <> 0 -> ct <> 0 ->
  getMostRecent lv cv (VNum lt) (VNum ct) = Ok (if ct <? lt then lv else cv).
Proof.
  intros Hl Hc. unfold getMostRecent. simpl.
  destruct (Z.eqb_spec lt 0); [contradiction|].
  destruct (Z.eqb_spec ct 0); [contradiction|]. simpl.
  unfold js_gt. simpl. rewrite !Z.mul_1_r. reflexivity.
Qed.

(** With a time missing it prefers the local value, if there is one. *)
Lemma getMostRecent_fallback lv cv ct :
  getMostRecent lv cv VUndefined ct = Ok (or_else lv cv).
Proof. reflexivity. Qed.

(** The merge reads the local time off [getState()], which has no [_meta]:
    every scalar field is merged without a local time. *)
Lemma merged_field_has_no_local_time k s cloudValue cloudTime :
  merged_field k (getState s) cloudValue cloudTime =
  Ok (or_else (default VUndefined (own_get k (spread (getState s)))) cloudValue).
Proof. reflexivity. Qed.

(** C4, evaluated where it fails: the local province was last modified at
    time 100 and the remote row updated at time 200, both times are there,
    [getMostRecent] given both picks the remote value, and the merge keeps
    the local one. *)
Theorem merge_keeps_older_local_province :
  let w := signed_in (record "ON" [] 100) 1000 in
  let cloud := cloud_row "BC" [] 200 in
  get_prop (_meta (state (esm w))) "lastModified" = Ok (VNum 100) /\
  row_updated_at cloud = 200 /\
  getMostRecent (VStr "ON") (VStr "BC") (VNum 100) (VNum 200) = Ok (VStr "BC") /\
  province (state (esm (run (mergeLocalAndCloudData (Ok (Some cloud)) (accept 3 1000)) w)))
  = VStr "ON".
Proof. repeat split; vm_compute; reflexivity. Qed.

(** ** Notifications and persistence, step by step *)

(** Only the status "error" makes a listener act. *)
Lemma call_listener_quiet l status message w :
  String.eqb status "error" = false ->
  call_listener l status message w = (Ok tt, w).
Proof.
  intros Hs. destruct l. unfold call_listener, bind, gets.
  destruct (syncEventHandler (sync w)); [|reflexivity].
  unfold handleSyncEvent, bind, gets. rewrite Hs. reflexivity.
Qed.

Lemma notifySyncListeners_quiet status message w :
  String.eqb status "error" = false ->
  notifySyncListeners status message w = (Ok tt, w).
Proof.
  intros Hs. unfold notifySyncListeners, bind, gets.
  induction (syncListeners (esm w)) as [|l ls IH]; simpl; [reflexivity|].
  unfold bind at 1. unfold try_catch at 1.
  rewrite (call_listener_quiet l status message w Hs). exact IH.
Qed.

Lemma setSyncStatus_quiet status w :
  String.eqb status "error" = false ->
  setSyncStatus status w = (Ok tt, with_esm (set_currentSyncStatus (Some status)) w).
Proof.
  intros Hs. unfold setSyncStatus, bind, modify.
  apply notifySyncListeners_quiet, Hs.
Qed.

Lemma assign_meta_run k v w :
  assign_meta k v w =
  match set_prop (_meta (state (esm w))) k v with
  | Ok m => (Ok tt, with_esm (set_state (set_meta m (state (esm w)))) w)
  | Throw => (Throw, w)
  end.
Proof.
  unfold assign_meta, bind, get_state, gets, lift, put_state, modify.
  destruct (set_prop _ _ _); reflexivity.
Qed.

(** [persistLocal] never throws; it stamps the metadata and leaves the
    rest of the record, the clock and the session as they are. *)
Lemma persistLocal_spec w :
  exists w', persistLocal w = (Ok tt, w') /\
             state_of w' = touch (time_of w) (state_of w) /\
             time_of w' = time_of w /\ session_of w' = session_of w.
Proof.
  pose proof (onlooker_persist_items silent state_of) as Hstate.
  pose proof (onlooker_persist_items silent time_of) as Htime.
  pose proof (onlooker_persist_items silent session_of) as Hsession.
  unfold persistLocal, try_catch.
  unfold bind at 1. unfold Date_now at 1, gets at 1.
  unfold bind at 1. rewrite assign_meta_run.
  destruct (set_prop (_meta (state (esm w))) "lastModified" (VNum (clock (env w))))
    as [m|] eqn:E1.
  2: { eexists; split; [reflexivity|].
       unfold touch, state_of, time_of. rewrite E1. repeat split. }
  unfold bind at 1. rewrite assign_meta_run.
  cbn [esm with_esm state set_state _meta set_meta].
  destruct (set_prop m "hasLocalChanges" (VBool true)) as [m'|] eqn:E2.
  2: { eexists; split; [reflexivity|].
       unfold touch, state_of, time_of. rewrite E1, E2. repeat split. }
  match goal with
  | |- context [bind get_state ?k ?w1] =>
      specialize (Hstate w1); specialize (Htime w1); specialize (Hsession w1);
      unfold run in Hstate, Htime, Hsession;
      destruct (bind get_state k w1) as [[[]|] w2]
  end; simpl in *; (eexists; split; [reflexivity|]);
    unfold touch; rewrite Hstate, Htime, Hsession;
    unfold state_of, time_of; rewrite E1, E2; repeat split.
Qed.

(** ** Sync-down *)

Lemma js_gt_numbers a b : js_gt (VNum a) (VNum b) = Ok (b <? a).
Proof. unfold js_gt. simpl. rewrite !Z.mul_1_r. reflexivity. Qed.

Lemma onlooker_syncFromCloud_start {T} loud (obs : World -> T)
    `{!Onlooker loud obs} :
  (forall u, loud (Fetch u) = false) -> preserves obs syncFromCloud_start.
Proof.
  intros Hfetch.
  unfold syncFromCloud_start, isUserAuthenticated, getCurrentUser, user_id.
  preserve.
Qed.

Lemma syncFromCloud_start_run w u :
  isAuthenticated (auth w) = true -> currentUser (auth w) = Some u ->
  syncFromCloud_start w =
  (Ok (Awaiting u),
   with_env (emit (Fetch u)) (with_esm (set_currentSyncStatus (Some "syncing")) w)).
Proof.
  intros Ha Hu. unfold syncFromCloud_start.
  unfold bind at 1. unfold isUserAuthenticated at 1, gets at 1. rewrite Ha.
  change (negb true) with false. cbv iota. unfold try_catch.
  rewrite (bind_ok _ _ _ _ _ (setSyncStatus_quiet "syncing" w eq_refl)).
  unfold bind, getCurrentUser, gets. simpl. rewrite Hu. reflexivity.
Qed.

(** Adopting a cloud row installs [adopted]: the remote content, and
    metadata with the remote version and no local changes. *)
Lemma adopt_cloud_spec w cloud :
  exists w', adopt_cloud cloud w = (Ok tt, w') /\
             state_of w' = adopted cloud (time_of w) /\ time_of w' = time_of w.
Proof.
  unfold adopt_cloud. unfold bind at 1. unfold Date_now at 1, gets at 1.
  unfold bind at 1. unfold put_state at 1, modify at 1.
  match goal with
  | |- context [bind persistLocal ?k ?w1] =>
      destruct (persistLocal_spec w1) as (w2 & Hrun & Hstate & Htime & _);
      rewrite (bind_ok _ _ _ _ _ Hrun)
  end.
  unfold bind at 1. rewrite assign_meta_run.
  unfold state_of in Hstate. rewrite Hstate. simpl.
  rewrite notifySyncListeners_quiet by reflexivity.
  eexists; split; [reflexivity|]. split; [reflexivity | exact Htime].
Qed.

(** The [try] block of [syncFromCloud] once a row has arrived. *)
Lemma syncFromCloud_fetched_row w cloud respond lm sa :
  get_prop (_meta (state_of w)) "lastModified" = Ok (VNum lm) ->
  get_prop (_meta (state_of w)) "syncedAt" = Ok sa ->
  exists w', syncFromCloud_settle (Ok (Some cloud)) respond w = (Ok true, w') /\
    state_of w' = (if (lm <? row_updated_at cloud) || negb (truthy sa)
                   then adopted cloud (time_of w) else state_of w).
Proof.
  unfold state_of at 1 2. intros Hlm Hsa.
  unfold syncFromCloud_settle, try_catch, syncFromCloud_fetched.
  unfold bind at 1. unfold lift at 1.
  unfold bind at 1 2. unfold get_state at 1, gets at 1.
  rewrite Hlm. unfold bind at 1, lift at 1. rewrite js_gt_numbers.
  unfold bind at 1, lift at 1. rewrite Hsa.
  unfold bind at 1, lift at 1. cbv iota beta.
  destruct ((lm <? row_updated_at cloud) || negb (truthy sa)).
  - destruct (adopt_cloud_spec w cloud) as (w1 & Hrun & Hstate & Htime).
    simpl when. rewrite Hrun.
    unfold bind at 1. unfold Date_now at 1, gets at 1.
    unfold bind at 1. unfold modify at 1.
    rewrite (bind_ok _ _ _ _ _ (setSyncStatus_quiet "synced" _ eq_refl)).
    eexists; split; [reflexivity | exact Hstate].
  - simpl when. unfold ret at 1.
    unfold bind at 1. unfold Date_now at 1, gets at 1.
    unfold bind at 1. unfold modify at 1.
    rewrite (bind_ok _ _ _ _ _ (setSyncStatus_quiet "synced" _ eq_refl)).
    eexists; split; reflexivity.
Qed.

(** Without a row, or without a reply, nothing is adopted. *)
Lemma syncFromCloud_settle_without_row reply respond :
  (forall cloud, reply <> Ok (Some cloud)) ->
  preserves content_of (syncFromCloud_settle reply respond).
Proof.
  intros Hrow. unfold syncFromCloud_settle.
  destruct reply as [[cloud|]|]; [destruct (Hrow cloud eq_refl)| |].
  - change (preserves content_of
              (try_catch (syncFromCloud_fetched None respond)
                         (setSyncStatus "error" ;;; ret false))).
    unfold syncFromCloud_fetched, get_state, Date_now. preserve.
  - change (preserves content_of
              (try_catch throw (setSyncStatus "error" ;;; ret false))).
    preserve.
Qed.

(** C2.  On a sync-down with a well-formed local record (its
    [lastModified] a number, its [syncedAt] null or a timestamp): when the
    user is signed in, a remote row exists, and the row is newer than the
    local record or the record has never synced, the remote content
    replaces the local content and the metadata carries the remote
    version with [hasLocalChanges] false; in every other case the local
    content fields are unchanged. *)
Theorem syncFromCloud_adopts_or_keeps
    (w : World) (reply : Result (option Row)) (respond : ProgressData -> Result Row)
    (lm : Z) (sa : value) :
  get_prop (_meta (state_of w)) "lastModified" = Ok (VNum lm) ->
  get_prop (_meta (state_of w)) "syncedAt" = Ok sa ->
  sa = VNull \/ (exists t, t <> 0 /\ sa = VNum t) ->
  let w' := run (syncFromCloud reply respond) w in
  (forall cloud u,
      isAuthenticated (auth w) = true -> currentUser (auth w) = Some u ->
      reply = Ok (Some cloud) ->
      lm < row_updated_at cloud \/ sa = VNull ->
      state_of w' = adopted cloud (time_of w)) /\
  ((forall cloud,
       isAuthenticated (auth w) = true -> reply = Ok (Some cloud) ->
       ~ (lm < row_updated_at cloud \/ sa = VNull)) ->
   content_of w' = content_of w).
Proof.
  intros Hlm Hsa Hwf w'. subst w'. split.
  - intros cloud u Ha Hu -> Hdue.
    unfold run, syncFromCloud.
    rewrite (bind_ok _ _ _ _ _ (syncFromCloud_start_run w u Ha Hu)).
    match goal with
    | |- context [syncFromCloud_settle _ _ ?w1] =>
        destruct (syncFromCloud_fetched_row w1 cloud respond lm sa Hlm Hsa)
          as (w2 & Hrun & Hstate)
    end.
    rewrite Hrun. simpl. rewrite Hstate.
    replace ((lm <? row_updated_at cloud) || negb (truthy sa)) with true;
      [reflexivity|].
    destruct Hdue as [Hnew| ->].
    + apply Z.ltb_lt in Hnew. rewrite Hnew. reflexivity.
    + simpl. rewrite orb_true_r. reflexivity.
  - intros Hnot. unfold run, syncFromCloud.
    pose proof (onlooker_syncFromCloud_start silent content_of
                  (fun _ => eq_refl) w) as Hc.
    pose proof (onlooker_syncFromCloud_start silent state_of
                  (fun _ => eq_refl) w) as Hs.
    unfold run in Hc, Hs. unfold bind.
    destruct (syncFromCloud_start w) as [[[r|id]|] w1] eqn:Hstart;
      simpl in Hc, Hs |- *; try exact Hc.
    rewrite <- Hc.
    assert (Ha : isAuthenticated (auth w) = true).
    { unfold syncFromCloud_start, bind, isUserAuthenticated, gets in Hstart.
      destruct (isAuthenticated (auth w)); [reflexivity | discriminate Hstart]. }
    destruct reply as [[cloud|]|].
    + rewrite <- Hs in Hlm, Hsa.
      destruct (syncFromCloud_fetched_row w1 cloud respond lm sa Hlm Hsa)
        as (w2 & Hrun & Hstate).
      rewrite Hrun. simpl.
      specialize (Hnot cloud Ha eq_refl).
      replace ((lm <? row_updated_at cloud) || negb (truthy sa)) with false
        in Hstate; [unfold content_of; unfold state_of in Hstate; congruence|].
      symmetry. apply orb_false_iff. split.
      * apply Z.ltb_ge. lia.
      * destruct Hwf as [->|(t & Ht & ->)]; [tauto|].
        simpl. destruct (Z.eqb_spec t 0); [contradiction | reflexivity].
    + apply (syncFromCloud_settle_without_row (Ok None) respond); discriminate.
    + apply (syncFromCloud_settle_without_row Throw respond); discriminate.
Qed.

Lemma syncFromCloud_adopts_or_keeps_witness :
  let w := signed_in (record "ON" [] 100) 1000 in
  let newer := cloud_row "BC" [("b", VBool true)] 200 in
  let older := cloud_row "BC" [("b", VBool true)] 50 in
  state_of (run (syncFromCloud (Ok (Some newer)) (accept 3 1000)) w)
  = adopted newer 1000 /\
  content_of (run (syncFromCloud (Ok (Some older)) (accept 3 1000)) w)
  = content_of w.
Proof.
  intros w newer older. split.
  - destruct (syncFromCloud_adopts_or_keeps w (Ok (Some newer)) (accept 3 1000)
                100 (VNum 100)) as [H _].
    + reflexivity.
    + reflexivity.
    + right. exists 100. split; [lia | reflexivity].
    + apply (H newer "user-1"); [reflexivity | reflexivity | reflexivity |].
      left. simpl. lia.
  - destruct (syncFromCloud_adopts_or_keeps w (Ok (Some older)) (accept 3 1000)
                100 (VNum 100)) as [_ H].
    + reflexivity.
    + reflexivity.
    + right. exists 100. split; [lia | reflexivity].
    + apply H. intros cloud _ Heq [Hlt|Hnull]; [|discriminate Hnull].
      injection Heq as <-. simpl in Hlt. lia.
Defined.

(** ** The migration dialog *)

#[local] Instance dialogs_onlooker : Onlooker is_dialog dialogs.
Proof.
  split; intros; try reflexivity.
  unfold dialogs. simpl. rewrite omap_app. simpl.
  destruct e; try discriminate; simpl; rewrite app_nil_r; reflexivity.
Qed.

#[local] Instance dialogs_bystander : Bystander is_dialog dialogs.
Proof. split; [exact dialogs_onlooker | intros; reflexivity]. Qed.

Lemma dialogs_syncFromCloud reply respond :
  preserves dialogs (syncFromCloud reply respond).
Proof.
  unfold syncFromCloud, syncFromCloud_settle, syncFromCloud_fetched, adopt_cloud,
    get_state, Date_now.
  pose proof (onlooker_syncFromCloud_start is_dialog dialogs (fun _ => eq_refl)).
  preserve.
Qed.

Lemma dialogs_mergeLocalAndCloudData reply respond :
  preserves dialogs (mergeLocalAndCloudData reply respond).
Proof.
  unfold mergeLocalAndCloudData, getCurrentUser, user_id, get_state. preserve.
Qed.

Lemma dialogs_useCloudData reply respond :
  preserves dialogs (useCloudData reply respond).
Proof. unfold useCloudData. pose proof dialogs_syncFromCloud. preserve. Qed.

(** After the dialog, whatever the choice, no second one appears. *)
Lemma dialogs_after_choice choice reply respond :
  preserves dialogs
    (if String.eqb choice "merge" then mergeLocalAndCloudData reply respond
     else if String.eqb choice "cloud" then useCloudData reply respond
     else if String.eqb choice "local" then uploadLocalData respond
     else mergeLocalAndCloudData reply respond).
Proof.
  pose proof dialogs_mergeLocalAndCloudData. pose proof dialogs_useCloudData.
  preserve.
Qed.

Lemma dialogs_emit w : dialogs (with_env (emit Dialog) w) = S (dialogs w).
Proof.
  unfold dialogs. simpl. rewrite omap_app, length_app. simpl. lia.
Qed.

(** The number of dialogs a sign-in adds: one if [hasProgressData]
    answers [true], none otherwise. *)
Lemma handleUserSignIn_dialogs w choice reply respond :
  dialogs (run (handleUserSignIn choice reply respond) w) =
  match hasProgressData (state_of w) with
  | Ok true => S (dialogs w)
  | _ => dialogs w
  end.
Proof.
  unfold run, handleUserSignIn, try_catch.
  unfold bind at 1. unfold get_state at 1, gets at 1.
  unfold bind at 1. unfold lift at 1. unfold state_of.
  destruct (hasProgressData (state (esm w))) as [[|]|]; [| |reflexivity].
  - unfold bind at 1. unfold effect at 1, modify at 1.
    pose proof (dialogs_after_choice choice reply respond
                  (with_env (emit Dialog) w)) as H.
    unfold run in H. rewrite dialogs_emit in H.
    match goal with
    | |- context [let (r, w') := ?m in _] => destruct m as [[[]|] w1]
    end; simpl in *; exact H.
  - pose proof (dialogs_syncFromCloud reply respond w) as H. unfold run in H.
    unfold bind. destruct (syncFromCloud reply respond w) as [[b|] w1];
      simpl in *; exact H.
Qed.

Lemma strict_neq_str_spec v lit : strict_neq_str v lit = true <-> v <> VStr lit.
Proof.
  destruct v; simpl; try (split; [discriminate | reflexivity]).
  destruct (String.eqb_spec s lit) as [->|Hne]; simpl; split; intros H;
    congruence.
Qed.

(** C3 (as amended).  For a local record whose completion map is an
    object, the migration dialog is presented on sign-in, once, if and
    only if the province is non-empty, or the completion map has at least
    one key (whatever its value), or industry, hiring or revenue differs
    from its default; otherwise no dialog is presented. *)
Theorem dialog_iff_any_field_or_completion_key
    (w : World) (choice : string) (reply : Result (option Row))
    (respond : ProgressData -> Result Row) (k : obj_kind) (steps : props) :
  completed (state_of w) = VObj k steps ->
  let s := state_of w in
  let w' := run (handleUserSignIn choice reply respond) w in
  (dialogs w' = S (dialogs w) \/ dialogs w' = dialogs w) /\
  (dialogs w' = S (dialogs w) <->
   truthy (province s) = true \/ steps <> [] \/ industry s <> VStr "general" \/
   hiring s <> VStr "no" \/ revenue s <> VStr "gte30").
Proof.
  intros Hc s w'. subst w'. rewrite handleUserSignIn_dialogs.
  fold s. unfold hasProgressData. fold s in Hc. rewrite Hc. simpl Object_keys.
  unfold own_keys. rewrite length_map.
  rewrite <- !strict_neq_str_spec.
  destruct (truthy (province s)); [split; [left; reflexivity | tauto]|].
  destruct steps as [|kv steps]; simpl.
  - destruct (strict_neq_str (industry s) "general"),
             (strict_neq_str (hiring s) "no"),
             (strict_neq_str (revenue s) "gte30"); simpl;
      (split; [tauto|]); split; intros H; try reflexivity; try lia;
      try (right; right; tauto);
      destruct H as [H|[H|[H|[H|H]]]]; congruence.
  - split; [left; reflexivity|]. split; [intros _|reflexivity].
    right. left. discriminate.
Qed.

Lemma dialog_iff_witness :
  let w := signed_in (record EmptyString [("a", VBool false)] 100) 1000 in
  dialogs (run (handleUserSignIn "merge" (Ok None) (accept 2 1000)) w) = 1%nat.
Proof.
  intros w.
  destruct (dialog_iff_any_field_or_completion_key w "merge" (Ok None)
              (accept 2 1000) Plain [("a", VBool false)] eq_refl) as [_ [_ H]].
  apply H. right. left. discriminate.
Defined.

(** C3, the claim as first stated, fails: a record whose only trace of use
    is a step ticked and cleared again is not meaningful in the words of
    the specification, and the dialog is presented for it. *)
Lemma dialog_for_cleared_step_only :
  let s := record EmptyString [("a", VBool false)] 100 in
  meaningful_as_specified s = false /\
  dialogs (run (handleUserSignIn "merge" (Ok None) (accept 2 1000))
             (signed_in s 1000)) = 1%nat.
Proof. split; vm_compute; reflexivity. Qed.

(** ** The debounced upload *)

Lemma scheduleSyncToCloud_run d w :
  scheduleSyncToCloud d w = (Ok tt, scheduled d w).
Proof.
  unfold scheduleSyncToCloud, scheduled, reschedule, bind, gets.
  destruct (timer_set (syncTimeout (esm w))); reflexivity.
Qed.

Lemma setItem_run k s w :
  mode (localStorage (env w)) = Usable ->
  setItem k (VStr s) w =
  (Ok tt, with_env (set_localStorage
                      {| items := <[k := s]> (items (localStorage (env w)));
                         mode := Usable |}) w).
Proof. intros H. unfold setItem, bind, lift. simpl. rewrite H. reflexivity. Qed.

Lemma Date_now_run w : Date_now w = (Ok (clock (env w)), w).
Proof. reflexivity. Qed.

Lemma get_state_run w : get_state w = (Ok (state (esm w)), w).
Proof. reflexivity. Qed.

Lemma modify_run f w : modify f w = (Ok tt, f w).
Proof. reflexivity. Qed.

Lemma assign_meta_object key v w k ps :
  _meta (state (esm w)) = VObj k ps ->
  String.eqb key "__proto__" = false ->
  assign_meta key v w =
  (Ok tt, with_esm (set_state (set_meta (VObj k (own_set key v ps))
                                 (state (esm w)))) w).
Proof.
  intros Hm Hk. rewrite assign_meta_run, Hm. simpl. rewrite Hk. reflexivity.
Qed.

(** With storage in working order and a record of the right types,
    [persistLocal] goes through. *)
Lemma persistLocal_run w :
  ready w ->
  exists st, mode st = Usable /\ persistLocal w = (Ok tt, persisted st w).
Proof.
  intros (Hmode & Hp & Hi & Hh & Hr & _ & Hm & _).
  destruct w as [[s busy ls lst pc tmo css] sy au [[it md] clk ts nt tr]].
  destruct s as [p i h r c m]. simpl in *. subst md.
  destruct p as [| | | | |p|]; try discriminate Hp.
  destruct i as [| | | | |i|]; try discriminate Hi.
  destruct h as [| | | | |h|]; try discriminate Hh.
  destruct r as [| | | | |r|]; try discriminate Hr.
  destruct m as [| | | | | |k ps]; try discriminate Hm.
  eexists. split; [|unfold persistLocal, try_catch, persisted, touch].
  2: { rewrite (bind_ok _ _ _ _ _ (Date_now_run _)).
       erewrite (bind_ok (assign_meta _ _)) by
         (apply assign_meta_object; reflexivity).
       erewrite (bind_ok (assign_meta _ _)) by
         (apply assign_meta_object; reflexivity).
       rewrite (bind_ok _ _ _ _ _ (get_state_run _)).
       repeat (erewrite (bind_ok (setItem _ _)) by
                 (apply setItem_run; reflexivity)).
       rewrite (bind_ok _ _ _ _ _ (modify_run _ _)).
       rewrite scheduleSyncToCloud_run. reflexivity. }
  reflexivity.
Qed.

Lemma filter_none {A} (P : A -> Prop) `{!forall x, Decision (P x)} (l : list A) :
  (forall x, x ∈ l -> ~ P x) -> filter P l = [].
Proof.
  intros Hnone. apply elem_of_nil_inv. intros x Hx.
  apply list_elem_of_filter in Hx as [HP Hin]. exact (Hnone x Hin HP).
Qed.

(** No debounce timer survives a rescheduling but the new one. *)
Lemma reschedule_debounce w t :
  timers_ok w ->
  t ∈ match timer_set (syncTimeout (esm w)) with
      | Some old => filter (fun t => timer_id t ≠ old) (timers (env w))
      | None => timers (env w)
      end ->
  callback t <> DebouncedSync.
Proof.
  intros [_ Hok] Ht Hcb. unfold timer_set in Ht.
  destruct (syncTimeout (esm w)) as [old|] eqn:Hto.
  - destruct (Z.eqb_spec old 0) as [->|Hold].
    + destruct (Hok t Ht Hcb) as [Hid Hne]. congruence.
    + apply list_elem_of_filter in Ht as [Hne Hin].
      destruct (Hok t Hin Hcb) as [Hid _]. congruence.
  - destruct (Hok t Ht Hcb) as [Hid _]. congruence.
Qed.

Lemma debounce_scheduled d w :
  timers_ok w ->
  debounce_timers (scheduled d w) =
  [{| timer_id := next_timer (env w); due := clock (env w) + d;
      callback := DebouncedSync |}].
Proof.
  intros Hok. unfold debounce_timers, scheduled, reschedule. simpl.
  rewrite filter_app, filter_none.
  - reflexivity.
  - intros t Ht. exact (reschedule_debounce w t Hok Ht).
Qed.

Lemma timers_ok_scheduled d w : timers_ok w -> timers_ok (scheduled d w).
Proof.
  intros Hok. pose proof Hok as [Hpos _]. split; [simpl; lia|].
  intros t Ht Hcb. unfold scheduled, reschedule in Ht |- *. simpl in *.
  apply elem_of_app in Ht as [Ht|Ht].
  - destruct (reschedule_debounce w t Hok Ht Hcb).
  - apply list_elem_of_singleton in Ht. subst t. simpl. split; [reflexivity | lia].
Qed.

Lemma touch_object now s :
  is_object (_meta s) = true ->
  exists k ps, touch now s = set_meta (VObj k ps) s.
Proof.
  unfold touch. destruct (_meta s); try discriminate. intros _.
  simpl. eauto.
Qed.

(** A world stays in working order through [persistLocal]. *)
Lemma ready_persisted st w : mode st = Usable -> ready w -> ready (persisted st w).
Proof.
  intros Hst (Hmode & Hp & Hi & Hh & Hr & Hc & Hm & Hok).
  destruct (touch_object (clock (env w)) (state (esm w)) Hm) as (k & ps & Ht).
  unfold ready, persisted. simpl. rewrite Ht. simpl.
  do 7 (split; [assumption || reflexivity|]).
  apply (timers_ok_scheduled 2000
           (with_esm (set_pendingChanges true)
              (with_env (set_localStorage st)
                 (with_esm (set_state (set_meta (VObj k ps) (state (esm w)))) w)))).
  exact Hok.
Qed.

Lemma ready_scheduled d w : ready w -> ready (scheduled d w).
Proof.
  intros (Hmode & Hp & Hi & Hh & Hr & Hc & Hm & Hok).
  do 7 (split; [assumption|]). apply timers_ok_scheduled, Hok.
Qed.

(** A setter of a selection: the new value, then [persistLocal]. *)
Lemma selection_run (f : State -> State) w :
  ready (with_esm (set_state (f (state (esm w)))) w) ->
  exists st, mode st = Usable /\
    (update_state f ;;; persistLocal) w =
    (Ok tt, persisted st (with_esm (set_state (f (state (esm w)))) w)).
Proof.
  intros Hready. destruct (persistLocal_run _ Hready) as (st & Hst & Hrun).
  exists st. split; [exact Hst|].
  unfold update_state. rewrite (bind_ok _ _ _ _ _ (modify_run _ w)). exact Hrun.
Qed.

(** The world a mutation leaves: the record changed and persisted, one
    timer rescheduled, with the short window for a step ticked while
    signed in. *)
Lemma mutate_run m w :
  ready w ->
  exists w1 st,
    ready w1 /\ mode st = Usable /\
    clock (env w1) = clock (env w) /\ auth w1 = auth w /\
    syncInProgress (esm w1) = syncInProgress (esm w) /\ trace (env w1) = trace (env w) /\
    mutate m w =
    (Ok tt,
     if decide (debounce_window m (isAuthenticated (auth w)) = 500)
     then scheduled 500 (persisted st w1) else persisted st w1).
Proof.
  intros Hready. pose proof Hready as (Hmode & Hp & Hi & Hh & Hr & Hc & Hm & Hok).
  destruct m as [v|v|v|v|key done]; simpl mutate; simpl debounce_window;
    unfold setProvince, setIndustry, setHiring, setRevenue.
  1-4: match goal with
       | |- context [update_state ?f] =>
           assert (Hr1 : ready (with_esm (set_state (f (state (esm w)))) w))
             by (do 7 (split; [assumption || reflexivity|]); exact Hok);
           destruct (selection_run f w Hr1) as (st & Hst & Hrun);
           exists (with_esm (set_state (f (state (esm w)))) w), st
       end; (split; [exact Hr1|]);
         repeat split; try assumption; try reflexivity; exact Hrun.
  destruct (completed (state (esm w))) as [| | | | | |[|] ps] eqn:Ec;
    try discriminate Hc.
  set (k := Plain).
  set (c := if String.eqb key "__proto__" && negb (own_has "__proto__" ps)
            then VObj k ps
            else VObj k (own_set key (VBool done) ps)).
  set (w1 := with_esm (set_state (set_completed c (state (esm w)))) w).
  assert (Hr1 : ready w1).
  { do 5 (split; [assumption|]). split; [|split; assumption].
    unfold w1, c. simpl.
    destruct (String.eqb key "__proto__" && negb (own_has "__proto__" ps));
      reflexivity. }
  destruct (persistLocal_run w1 Hr1) as (st & Hst & Hrun).
  exists w1, st. split; [exact Hr1|].
  repeat split; try assumption; try reflexivity.
  unfold setStepCompleted.
  rewrite (bind_ok _ _ _ _ _ (get_state_run w)).
  assert (Hset : lift (set_prop (completed (state (esm w))) key (VBool done)) w
                 = (Ok c, w)).
  { rewrite Ec. unfold lift, c. simpl.
    destruct (String.eqb key "__proto__" && negb (own_has "__proto__" ps));
      reflexivity. }
  rewrite (bind_ok _ _ _ _ _ Hset). unfold put_state.
  rewrite (bind_ok _ _ _ _ _ (modify_run _ w)).
  fold w1. rewrite (bind_ok _ _ _ _ _ Hrun).
  unfold bind, isUserAuthenticated, gets. simpl.
  destruct done, (isAuthenticated (auth w)); simpl;
    try rewrite scheduleSyncToCloud_run; reflexivity.
Qed.

#[local] Instance upserts_onlooker : Onlooker is_upsert upserts.
Proof.
  split; intros; try reflexivity.
  unfold upserts. simpl. rewrite omap_app. simpl.
  destruct e; try discriminate; simpl; rewrite app_nil_r; reflexivity.
Qed.

#[local] Instance upserts_bystander : Bystander is_upsert upserts.
Proof. split; [exact upserts_onlooker | intros; reflexivity]. Qed.

Lemma upserts_emit u pd w :
  upserts (with_env (emit (Upsert u pd)) w) = upserts w ++ [(clock (env w), pd)].
Proof. unfold upserts. simpl. rewrite omap_app. reflexivity. Qed.

(** [syncToCloud] up to its request, when nothing holds it back. *)
Lemma syncToCloud_start_run w u :
  isAuthenticated (auth w) = true -> currentUser (auth w) = Some u ->
  syncInProgress (esm w) = false ->
  syncToCloud_start w =
  (Ok (Awaiting (progressData (state (esm w)))),
   with_env (emit (Upsert u (progressData (state (esm w)))))
     (with_esm (set_currentSyncStatus (Some "syncing"))
        (with_esm (set_syncInProgress true) w))).
Proof.
  intros Ha Hu Hbusy. unfold syncToCloud_start.
  unfold bind at 1. unfold isUserAuthenticated at 1, gets at 1.
  unfold bind at 1. unfold gets at 1. rewrite Ha, Hbusy.
  change (negb true || false) with false. cbv iota.
  unfold try_catch, syncToCloud_request.
  unfold bind at 1. rewrite (bind_ok _ _ _ _ _ (modify_run _ w)).
  rewrite (bind_ok _ _ _ _ _ (setSyncStatus_quiet "syncing" _ eq_refl)).
  unfold bind, getCurrentUser, get_state, gets. simpl. rewrite Hu. reflexivity.
Qed.

(** The debounce timer fires: one request, with the record of that
    moment. *)
Lemma fire_debounced respond t w u :
  callback t = DebouncedSync -> clock (env w) <= due t ->
  isAuthenticated (auth w) = true -> currentUser (auth w) = Some u ->
  syncInProgress (esm w) = false -> pendingChanges (esm w) = true ->
  upserts (run (fire respond t) w) =
  upserts w ++ [(due t, progressData (state (esm w)))].
Proof.
  intros Hcb Hdue Ha Hu Hbusy Hpending.
  unfold run, fire. rewrite (bind_ok _ _ _ _ _ (modify_run _ w)).
  rewrite Hcb. simpl run_callback.
  match goal with |- context [try_catch _ _ ?w0] => set (w1 := w0) end.
  assert (Hstart := syncToCloud_start_run w1 u Ha Hu Hbusy).
  set (pd := progressData (state (esm w))).
  assert (Hrun : try_catch (debounced_sync respond) (ret tt) w1 =
                 try_catch (_ <- syncToCloud_settle (respond pd) ;; ret tt) (ret tt)
                   (with_env (emit (Upsert u pd))
                      (with_esm (set_currentSyncStatus (Some "syncing"))
                         (with_esm (set_syncInProgress true) w1)))).
  { assert (Ha1 : isAuthenticated (auth w1) = true) by exact Ha.
    assert (Hp1 : pendingChanges (esm w1) = true) by exact Hpending.
    unfold try_catch, debounced_sync, syncToCloud.
    unfold bind at 1 2 3 4. unfold isUserAuthenticated at 1, gets at 1 2.
    rewrite Ha1, Hp1. change (true && true) with true. cbv beta iota.
    rewrite Hstart. reflexivity. }
  rewrite Hrun.
  assert (P : preserves upserts
                (try_catch (_ <- syncToCloud_settle (respond pd) ;; ret tt) (ret tt)))
    by preserve.
  unfold preserves, run in P. rewrite P, upserts_emit. simpl.
  rewrite Z.max_r by exact Hdue. reflexivity.
Qed.

Lemma debounce_window_values m a :
  debounce_window m a = 500 \/ debounce_window m a = 2000.
Proof. destruct m as [| | | |key [|]], a; simpl; auto. Qed.

(** C6 (as amended).  In a world in working order, every mutation leaves
    exactly one debounce timer pending, any earlier one being cancelled:
    due 500 ms later for a step ticked by a signed-in user, 2000 ms later
    for every other mutation (a step cleared, a step ticked while signed
    out, a selection).  When that timer fires for a signed-in user with no
    upload in flight, exactly one upsert is sent, carrying the record as
    the mutation left it. *)
Theorem mutation_reschedules_single_upload
    (w : World) (m : Mutation) (respond : ProgressData -> Result Row) :
  ready w ->
  let w' := run (mutate m) w in
  ready w' /\
  exists t,
    debounce_timers w' = [t] /\
    due t = clock (env w) + debounce_window m (isAuthenticated (auth w)) /\
    (isAuthenticated (auth w) = true ->
     (exists u, currentUser (auth w) = Some u) ->
     syncInProgress (esm w) = false ->
     upserts (run (fire respond t) w') =
     upserts w' ++ [(due t, progressData (state_of w'))]).
Proof.
  intros Hready w'.
  destruct (mutate_run m w Hready)
    as (w1 & st & Hr1 & Hst & Hclock & Hauth & Hbusy & _ & Hrun).
  assert (Hrp : ready (persisted st w1)) by (apply ready_persisted; assumption).
  assert (Hw' : w' = if decide (debounce_window m (isAuthenticated (auth w)) = 500)
                     then scheduled 500 (persisted st w1) else persisted st w1).
  { unfold w', run. rewrite Hrun. reflexivity. }
  clearbody w'. clear Hrun.
  destruct (decide _) as [H500|Hnot]; subst w'.
  - split; [apply ready_scheduled, Hrp|].
    eexists. split; [apply debounce_scheduled, Hrp|].
    split; [simpl; rewrite H500; lia|].
    intros Ha (u & Hu) Hnobusy.
    apply (fire_debounced respond _ _ u); simpl; try lia; try congruence.
  - split; [exact Hrp|].
    pose proof Hr1 as (_ & _ & _ & _ & _ & _ & _ & Hok).
    eexists. split; [apply (debounce_scheduled 2000); exact Hok|].
    split.
    { simpl. destruct (debounce_window_values m (isAuthenticated (auth w)));
        [contradiction | lia]. }
    intros Ha (u & Hu) Hnobusy.
    apply (fire_debounced respond _ _ u); simpl; try lia; try congruence.
Qed.

Lemma mutation_reschedules_witness :
  let w := signed_in (record "ON" [] 100) 1000 in
  let w' := run (mutate (SetStepCompleted "structure" true)) w in
  exists t, debounce_timers w' = [t] /\ due t = 1500 /\
    upserts (run (fire (accept 2 1500) t) w') =
    [(1500, progressData (record "ON" [("structure", VBool true)] 100))].
Proof.
  intros w w'.
  destruct (mutation_reschedules_single_upload w (SetStepCompleted "structure" true)
              (accept 2 1500)) as (_ & t & Ht & Hdue & Hfire).
  - do 7 (split; [reflexivity|]). split; [reflexivity|].
    intros t0 Ht0. inversion Ht0.
  - exists t. split; [exact Ht|]. split; [exact Hdue|].
    fold w' in Hfire. rewrite Hfire.
    + rewrite Hdue. reflexivity.
    + reflexivity.
    + exists "user-1". reflexivity.
    + reflexivity.
Defined.

(** C6, the claim as first stated, fails: clearing a step waits 2000 ms,
    not 500. *)
Lemma cleared_step_waits_2000 :
  let w := signed_in (record "ON" [("structure", VBool true)] 100) 1000 in
  let m := SetStepCompleted "structure" false in
  window_as_specified m = 500 /\
  map due (debounce_timers (run (mutate m) w)) = [1000 + 2000].
Proof. split; vm_compute; reflexivity. Qed.

(** ** Methods that never throw *)

Lemma total_ret {A} (a : A) : total (ret a).
Proof. intros w. eauto. Qed.

Lemma total_gets {A} (f : World -> A) : total (gets f).
Proof. intros w. unfold gets. eauto. Qed.

Lemma total_modify f : total (modify f).
Proof. intros w. unfold modify. eauto. Qed.

Lemma total_bind {A B} (m : M A) (k : A -> M B) :
  total m -> (forall a, total (k a)) -> total (bind m k).
Proof.
  intros Hm Hk w. destruct (Hm w) as (a & w1 & Hrun).
  rewrite (bind_ok _ _ _ _ _ Hrun). apply Hk.
Qed.

Lemma total_try_catch {A} (body handler : M A) :
  total handler -> total (try_catch body handler).
Proof.
  intros Hh w. unfold try_catch. destruct (body w) as [[a|] w1]; [eauto|].
  apply Hh.
Qed.

Lemma total_finally {A} (body : M A) (cleanup : M unit) :
  total body -> total cleanup -> total (finally body cleanup).
Proof.
  intros Hb Hc w. unfold finally. destruct (Hb w) as (a & w1 & ->).
  destruct (Hc w1) as (u & w2 & ->). eauto.
Qed.

Lemma total_when b (m : M unit) : total m -> total (when b m).
Proof. intros H. destruct b; [exact H | apply total_ret]. Qed.

Lemma total_for_each {A} (f : A -> M unit) l :
  (forall a, total (f a)) -> total (for_each f l).
Proof.
  intros H. induction l as [|a l IH]; simpl; [apply total_ret|].
  apply total_bind; [apply H | intros _; exact IH].
Qed.

Lemma total_setTimeout cb d : total (setTimeout cb d).
Proof. intros w. unfold setTimeout. eauto. Qed.

Create HintDb safe.
#[local] Hint Resolve total_ret total_gets total_modify total_setTimeout : safe.

Ltac never_throws :=
  repeat first
    [ solve [eauto with safe nocore]
    | apply total_bind; [ | intros ? ]
    | apply total_try_catch | apply total_finally
    | apply total_when
    | apply total_for_each; intros ?
    | match goal with
      | |- total (match ?x with _ => _ end) => destruct x
      end ].

Lemma total_notifySyncListeners status message :
  total (notifySyncListeners status message).
Proof. unfold notifySyncListeners. never_throws. Qed.
#[local] Hint Resolve total_notifySyncListeners : safe.

Lemma total_setSyncStatus status : total (setSyncStatus status).
Proof. unfold setSyncStatus. never_throws. Qed.
#[local] Hint Resolve total_setSyncStatus : safe.

Lemma total_persistLocal : total persistLocal.
Proof. unfold persistLocal. never_throws. Qed.
#[local] Hint Resolve total_persistLocal : safe.

Lemma total_syncToCloud_start : total syncToCloud_start.
Proof.
  unfold syncToCloud_start, syncToCloud_catch, syncToCloud_finally,
    isUserAuthenticated.
  never_throws.
Qed.
#[local] Hint Resolve total_syncToCloud_start : safe.

Lemma total_syncToCloud_settle reply : total (syncToCloud_settle reply).
Proof.
  unfold syncToCloud_settle, syncToCloud_catch, syncToCloud_finally.
  never_throws.
Qed.
#[local] Hint Resolve total_syncToCloud_settle : safe.

(** ** Import and export *)

(** What [importProgress] does after the payload is filtered. *)
Lemma import_tail w :
  exists w',
    (persistLocal ;;;
     a <- isUserAuthenticated ;;
     (if a then _ <- syncToCloud_start ;; ret tt else ret tt) ;;;
     ret true) w = (Ok true, w') /\
    content_of w' = content_of w.
Proof.
  destruct (total_persistLocal w) as ([] & w1 & H1).
  pose proof (bystander_persistLocal silent content_of w) as P1.
  unfold run in P1. rewrite H1 in P1. simpl in P1.
  rewrite (bind_ok _ _ _ _ _ H1).
  unfold bind at 1. unfold isUserAuthenticated, gets.
  destruct (isAuthenticated (auth w1)).
  - destruct (total_syncToCloud_start w1) as (r & w2 & H2).
    pose proof (bystander_syncToCloud_start silent content_of
                  (fun _ _ => eq_refl) w1) as P2.
    unfold run in P2. rewrite H2 in P2. simpl in P2.
    exists w2. split; [|congruence].
    unfold bind. rewrite H2. reflexivity.
  - exists w1. split; [reflexivity | exact P1].
Qed.

Lemma filter_import_rejects v :
  import_accepts v = false -> filter_import v = Throw.
Proof.
  destruct v as [| | | | | |k ps]; try discriminate; try reflexivity.
  simpl. intros H. apply negb_false_iff in H.
  unfold filter_import. simpl. rewrite H. reflexivity.
Qed.

(** The filtered fields of an accepted payload are its own properties
    among the five content keys, and only they reach the record. *)
Lemma filter_import_accepts v :
  import_accepts v = true ->
  exists filteredData,
    filter_import v = Ok filteredData /\
    forall s m,
      progressData
        (props_state (own_set "_meta" m
                        (assign (assign [] (state_props s)) filteredData)))
      = imported v (progressData s).
Proof.
  destruct v as [| | | | | |k ps]; try discriminate; intros H;
    try (exists []; split; reflexivity).
  simpl in H. apply negb_true_iff in H.
  unfold filter_import, filter_step, imported, payload_field. simpl.
  rewrite H. unfold own_has.
  destruct (own_get "province" ps), (own_get "industry" ps),
    (own_get "hiring" ps), (own_get "revenue" ps), (own_get "completed" ps);
    destruct k; simpl; eexists; (split; [reflexivity|]);
    intros s m; reflexivity.
Qed.

Lemma importProgress_rejected v w :
  import_accepts v = false -> importProgress v w = (Ok false, w).
Proof.
  intros H. unfold importProgress, try_catch, bind, lift.
  rewrite (filter_import_rejects v H). reflexivity.
Qed.

Lemma importProgress_accepted v w :
  import_accepts v = true ->
  exists w', importProgress v w = (Ok true, w') /\
             content_of w' = imported v (content_of w).
Proof.
  intros H. destruct (filter_import_accepts v H) as (fd & Hfd & Hcontent).
  unfold importProgress, try_catch.
  unfold bind at 1. unfold lift at 1. rewrite Hfd.
  rewrite (bind_ok _ _ _ _ _ (get_state_run w)).
  rewrite (bind_ok _ _ _ _ _ (Date_now_run w)).
  unfold put_state. rewrite (bind_ok _ _ _ _ _ (modify_run _ w)).
  match goal with
  | |- context [bind persistLocal _ ?w0] =>
      destruct (import_tail w0) as (w' & Hrun & Hc)
  end.
  rewrite Hrun. exists w'. split; [reflexivity|].
  rewrite Hc. apply Hcontent.
Qed.

(** C8 (as amended).  [importProgress] never throws.  A payload that is
    [null] or [undefined], or an object shadowing [hasOwnProperty], is
    refused: the answer is [false] and nothing at all has changed.  Every
    other payload, numbers, strings and booleans included, is taken: the
    answer is [true], each of the five content fields the payload has as
    an own property replaces the local one, the other content fields keep
    their values, and no other field of the payload reaches the record. *)
Theorem importProgress_copies_known_fields_only (w : World) (v : value) :
  (import_accepts v = false -> importProgress v w = (Ok false, w)) /\
  (import_accepts v = true ->
   exists w', importProgress v w = (Ok true, w') /\
              content_of w' = imported v (content_of w) /\
              Object_keys (getState (state_of w')) = Ok validKeys).
Proof.
  split; [apply importProgress_rejected|].
  intros H. destruct (importProgress_accepted v w H) as (w' & Hrun & Hc).
  exists w'. repeat split; assumption.
Qed.

Lemma importProgress_witness :
  let w := signed_in (record "ON" [("a", VBool true)] 100) 1000 in
  let payload := VObj Plain [("province", VStr "BC"); ("theme", VStr "dark")] in
  importProgress VNull w = (Ok false, w) /\
  exists w', importProgress payload w = (Ok true, w') /\
             pd_province (content_of w') = VStr "BC" /\
             pd_completed (content_of w') = VObj Plain [("a", VBool true)].
Proof.
  intros w payload. split.
  - apply (importProgress_copies_known_fields_only w VNull). reflexivity.
  - destruct (importProgress_copies_known_fields_only w payload) as [_ H].
    destruct (H eq_refl) as (w' & Hrun & Hc & _).
    exists w'. split; [exact Hrun|]. rewrite Hc. split; reflexivity.
Defined.

(** C8, the claim as first stated, fails: a payload that is not an object
    is not refused. *)
Lemma import_of_a_number_is_taken :
  let w := signed_in (record "ON" [] 100) 1000 in
  answer (importProgress (VNum 5)) w = Ok true /\
  answer (importProgress (VStr "not a record")) w = Ok true.
Proof. split; vm_compute; reflexivity. Qed.

Lemma exportProgress_run w version :
  get_prop (_meta (state_of w)) "version" = Ok version ->
  exportProgress w =
  (Ok (VObj Plain
         [("province", province (state_of w)); ("industry", industry (state_of w));
          ("hiring", hiring (state_of w)); ("revenue", revenue (state_of w));
          ("completed", completed (state_of w));
          ("_exportedAt", VStr (toISOString (clock (env w))));
          ("_version", version)]), w).
Proof.
  intros Hv. unfold exportProgress.
  rewrite (bind_ok _ _ _ _ _ (get_state_run w)).
  rewrite (bind_ok _ _ _ _ _ (Date_now_run w)).
  unfold bind, lift. unfold state_of in Hv. rewrite Hv. reflexivity.
Qed.

(** C10.  For every record whose metadata can be read, [exportProgress]
    answers a snapshot with the five content fields of the record and,
    after them, [_exportedAt] and [_version].  [importProgress] filters
    the two out and takes the five: importing the snapshot, into the record
    it was taken from or into any other, succeeds and leaves the five
    content fields equal to those of the exported record; [getState()] has
    the five content keys and nothing else. *)
Theorem export_import_round_trip (w w2 : World) :
  is_ok (get_prop (_meta (state_of w)) "version") = true ->
  exists snapshot w',
    exportProgress w = (Ok snapshot, w) /\
    Object_keys snapshot = Ok (validKeys ++ ["_exportedAt"; "_version"]) /\
    (get_prop snapshot "province" = Ok (province (state_of w)) /\
     get_prop snapshot "industry" = Ok (industry (state_of w)) /\
     get_prop snapshot "hiring" = Ok (hiring (state_of w)) /\
     get_prop snapshot "revenue" = Ok (revenue (state_of w)) /\
     get_prop snapshot "completed" = Ok (completed (state_of w))) /\
    filter_import snapshot =
      Ok [("province", province (state_of w)); ("industry", industry (state_of w));
          ("hiring", hiring (state_of w)); ("revenue", revenue (state_of w));
          ("completed", completed (state_of w))] /\
    importProgress snapshot w2 = (Ok true, w') /\
    content_of w' = content_of w /\
    Object_keys (getState (state_of w')) = Ok validKeys.
Proof.
  intros Hmeta.
  destruct (get_prop (_meta (state_of w)) "version") as [version|] eqn:Hv;
    [clear Hmeta | discriminate Hmeta].
  eexists.
  destruct (importProgress_accepted
              (VObj Plain
                 [("province", province (state_of w));
                  ("industry", industry (state_of w));
                  ("hiring", hiring (state_of w)); ("revenue", revenue (state_of w));
                  ("completed", completed (state_of w));
                  ("_exportedAt", VStr (toISOString (clock (env w))));
                  ("_version", version)]) w2 eq_refl) as (w' & Hrun & Hc).
  exists w'. split; [apply exportProgress_run, Hv|].
  split; [reflexivity|].
  split; [repeat split; reflexivity|].
  split; [reflexivity|].
  split; [exact Hrun|].
  split; [rewrite Hc; reflexivity | reflexivity].
Qed.

Lemma export_import_round_trip_witness :
  let w := signed_in (record "ON" [("a", VBool true)] 100) 1000 in
  let w2 := signed_in (record "BC" [("b", VBool false)] 50) 2000 in
  exists snapshot w' w2',
    exportProgress w = (Ok snapshot, w) /\
    importProgress snapshot w = (Ok true, w') /\
    content_of w' = progressData (record "ON" [("a", VBool true)] 100) /\
    importProgress snapshot w2 = (Ok true, w2') /\
    content_of w2' = progressData (record "ON" [("a", VBool true)] 100).
Proof.
  intros w w2.
  destruct (export_import_round_trip w w eq_refl)
    as (snapshot & w' & Hexp & _ & _ & _ & Himp & Hc & _).
  destruct (export_import_round_trip w w2 eq_refl)
    as (snapshot2 & w2' & Hexp2 & _ & _ & _ & Himp2 & Hc2 & _).
  assert (Hsame : snapshot2 = snapshot) by congruence.
  subst snapshot2.
  exists snapshot, w', w2'. repeat split; assumption.
Defined.

(** ** Reset *)

Lemma clear_storage_run w :
  mode (localStorage (env w)) <> Denied ->
  (removeItem "province" ;;;
   removeItem "industry" ;;;
   removeItem "hiring" ;;;
   removeItem "revenue" ;;;
   removeItem "completed" ;;;
   removeItem "_state_meta") w =
  (Ok tt,
   with_env (set_localStorage
               {| items := foldr delete (items (localStorage (env w)))
                             (reverse storage_keys);
                  mode := mode (localStorage (env w)) |}) w).
Proof.
  destruct w as [e sy au [[it md] clk ts nt tr]]. simpl.
  destruct md; [reflexivity | reflexivity | contradiction].
Qed.

(** C9 (as amended).  [reset()] while signed in, with no upload in flight
    and storage accessible, sets the record to its defaults, removes the
    six stored items, and sends exactly one upsert, whose content is the
    default values. *)
Theorem reset_restores_defaults_and_uploads_once (w : World) (u : string) :
  isAuthenticated (auth w) = true -> currentUser (auth w) = Some u ->
  syncInProgress (esm w) = false ->
  mode (localStorage (env w)) <> Denied ->
  let w' := run reset w in
  state_of w' = default_state (clock (env w)) /\
  (forall k, k ∈ storage_keys -> items (localStorage (env w')) !! k = None) /\
  upserts w' =
  upserts w ++ [(clock (env w), progressData (default_state (clock (env w))))].
Proof.
  intros Ha Hu Hbusy Hmode w'.
  assert (Hrun : reset w =
    (Ok tt,
     with_env (emit (Upsert u (progressData (default_state (clock (env w))))))
       (with_esm (set_currentSyncStatus (Some "syncing"))
          (with_esm (set_syncInProgress true)
             (with_env (set_localStorage
                          {| items := foldr delete (items (localStorage (env w)))
                                        (reverse storage_keys);
                             mode := mode (localStorage (env w)) |})
                (with_esm (set_state (default_state (clock (env w)))) w)))))).
  { unfold reset.
    rewrite (bind_ok _ _ _ _ _ (loadDefaultState_run w)).
    unfold put_state. rewrite (bind_ok _ _ _ _ _ (modify_run _ w)).
    unfold bind at 1. unfold try_catch at 1.
    rewrite clear_storage_run by exact Hmode.
    unfold bind at 1. unfold isUserAuthenticated at 1, gets at 1.
    cbn [auth with_env with_esm]. rewrite Ha.
    unfold bind. erewrite syncToCloud_start_run by eassumption. reflexivity. }
  unfold w', run. rewrite Hrun. simpl snd.
  split; [reflexivity|]. split.
  - intros k Hk. simpl.
    repeat (apply elem_of_cons in Hk as [->|Hk];
            [repeat (rewrite lookup_delete; case_decide; [reflexivity|]);
             congruence|]).
    inversion Hk.
  - rewrite upserts_emit. reflexivity.
Qed.

Lemma reset_witness :
  let w := signed_in (record "ON" [("a", VBool true)] 100) 1000 in
  state_of (run reset w) = default_state 1000 /\
  upserts (run reset w) = [(1000, progressData (default_state 1000))].
Proof.
  intros w.
  destruct (reset_restores_defaults_and_uploads_once w "user-1")
    as (Hstate & _ & Hup).
  - reflexivity.
  - reflexivity.
  - reflexivity.
  - discriminate.
  - split; [exact Hstate | exact Hup].
Defined.

(** C9, the claim as first stated, fails: while an upload is in flight
    [reset()] sends nothing, and the defaults never reach the service. *)
Lemma reset_during_upload_sends_nothing :
  let w := run syncToCloud_start (signed_in (record "ON" [] 100) 1000) in
  isAuthenticated (auth w) = true /\ syncInProgress (esm w) = true /\
  state_of (run reset w) = default_state 1000 /\
  upserts (run reset w) = upserts w /\
  map snd (upserts (run reset w)) = [progressData (record "ON" [] 100)].
Proof. repeat split; vm_compute; reflexivity. Qed.

(** ** The retry policy *)

(** A retry queued as number [n] is due [n] times five seconds later. *)
Lemma queueRetrySync_run w :
  retryAttempts (sync w) < maxRetries (sync w) ->
  queueRetrySync w =
  (Ok tt,
   with_env (set_timers
               (timers (env w) ++
                [{| timer_id := next_timer (env w);
                    due := clock (env w)
                           + retryDelay (sync w) * (retryAttempts (sync w) + 1);
                    callback := RetrySync |}])
               (next_timer (env w) + 1))
     (with_sync (set_retryAttempts (retryAttempts (sync w) + 1)) w)).
Proof.
  intros Hlt. unfold queueRetrySync, bind, gets.
  apply Z.ltb_lt in Hlt. rewrite Hlt. reflexivity.
Qed.

(** At the limit nothing is queued. *)
Lemma queueRetrySync_at_limit w :
  maxRetries (sync w) <= retryAttempts (sync w) -> queueRetrySync w = (Ok tt, w).
Proof.
  intros Hge. unfold queueRetrySync, bind, gets.
  apply Z.ltb_ge in Hge. rewrite Hge. reflexivity.
Qed.

(** * Further properties

    What the rest of the two classes does, read off the code. *)

(** ** The most recent value *)

(** X1.  [getMostRecent] given two numeric times answers the local value
    when the local time is strictly the later one and the cloud value
    otherwise, a tie included; a time that is missing, or is 0, makes it
    answer the local value unless that is empty, and the cloud value
    then. *)
Theorem getMostRecent_by_time (lv cv : value) (lt ct : Z) :
  getMostRecent lv cv (VNum lt) (VNum ct) =
    Ok (if (lt =? 0) || (ct =? 0) then or_else lv cv
        else if ct <? lt then lv else cv) /\
  getMostRecent lv cv VUndefined (VNum ct) = Ok (or_else lv cv) /\
  getMostRecent lv cv (VNum lt) VUndefined = Ok (or_else lv cv) /\
  getMostRecent lv cv VNull (VNum ct) = Ok (or_else lv cv).
Proof.
  repeat split; try reflexivity.
  - destruct (Z.eqb_spec lt 0) as [->|Hl]; [reflexivity|].
    destruct (Z.eqb_spec ct 0) as [->|Hc].
    + unfold getMostRecent. simpl. rewrite orb_true_r. reflexivity.
    + rewrite getMostRecent_compares by assumption. reflexivity.
  - unfold getMostRecent. simpl. rewrite orb_true_r. reflexivity.
Qed.

(** ** Uploads, step by step *)

(** Cancelling the debounce timer touches the timer list only. *)
Lemma cancel_debounce_run w :
  exists ts, cancel_debounce w = (Ok tt, with_env (set_timers ts (next_timer (env w))) w) /\
             forall t, t ∈ ts -> t ∈ timers (env w).
Proof.
  unfold cancel_debounce, bind, gets.
  destruct (timer_set (syncTimeout (esm w))) as [id|].
  - eexists. split; [reflexivity|]. intros t Ht.
    apply list_elem_of_filter in Ht. tauto.
  - exists (timers (env w)). split; [|auto].
    destruct w as [e sy au [st clk ts nt tr]]. reflexivity.
Qed.

(** An upload that nothing holds back sends the record of the moment, and
    whatever the service answers the record keeps its content. *)
Lemma syncToCloud_sends respond w u :
  isAuthenticated (auth w) = true -> currentUser (auth w) = Some u ->
  syncInProgress (esm w) = false ->
  exists r w', syncToCloud respond w = (Ok r, w') /\
    upserts w' = upserts w ++ [(clock (env w), content_of w)] /\
    content_of w' = content_of w.
Proof.
  intros Ha Hu Hbusy. unfold syncToCloud.
  rewrite (bind_ok _ _ _ _ _ (syncToCloud_start_run w u Ha Hu Hbusy)).
  match goal with |- context [syncToCloud_settle ?r ?w0] =>
    destruct (total_syncToCloud_settle r w0) as (b & w' & Hrun);
    pose proof (bystander_syncToCloud_settle is_upsert upserts r w0) as Pu;
    pose proof (bystander_syncToCloud_settle silent content_of r w0) as Pc
  end.
  unfold run in Pu, Pc. rewrite Hrun in Pu, Pc. simpl in Pu, Pc.
  exists b, w'. split; [exact Hrun|]. split.
  - rewrite Pu, upserts_emit. reflexivity.
  - rewrite Pc. reflexivity.
Qed.

Lemma forceSyncToCloud_sends respond w u :
  isAuthenticated (auth w) = true -> currentUser (auth w) = Some u ->
  syncInProgress (esm w) = false ->
  exists r w', forceSyncToCloud respond w = (Ok r, w') /\
    upserts w' = upserts w ++ [(clock (env w), content_of w)] /\
    content_of w' = content_of w.
Proof.
  intros Ha Hu Hbusy. unfold forceSyncToCloud.
  destruct (cancel_debounce_run w) as (ts & Hc & _).
  rewrite (bind_ok _ _ _ _ _ Hc).
  destruct (syncToCloud_sends respond
              (with_env (set_timers ts (next_timer (env w))) w) u Ha Hu Hbusy)
    as (r & w' & Hrun & Hup & Hcontent).
  exists r, w'. split; [exact Hrun|]. split; assumption.
Qed.

(** ** The merge strategy, in general *)

(** X2.  Whatever the two timestamps, the merge strategy keeps each local
    selection that is not empty and takes the cloud's value where the local
    one is empty; the completion map has the cloud's entries overwritten by
    the local ones.  The merged record is uploaded at once. *)
Theorem merge_prefers_local_selection
    (w : World) (cloud : Row) (respond : ProgressData -> Result Row) (u : string) :
  isAuthenticated (auth w) = true -> currentUser (auth w) = Some u ->
  syncInProgress (esm w) = false ->
  let s := state_of w in
  let merged :=
    {| pd_province := or_else (province s) (row_province cloud);
       pd_industry := or_else (industry s) (row_industry cloud);
       pd_hiring := or_else (hiring s) (row_hiring cloud);
       pd_revenue := or_else (revenue s) (row_revenue cloud);
       pd_completed :=
         VObj Plain (assign (assign [] (spread (row_completed cloud)))
                       (spread (completed s))) |} in
  let w' := run (mergeLocalAndCloudData (Ok (Some cloud)) respond) w in
  content_of w' = merged /\
  upserts w' = upserts w ++ [(clock (env w), merged)].
Proof.
  intros Ha Hu Hbusy s merged w'.
  split; [exact (merge_content w cloud respond u Hu)|].
  set (s' := {| province := pd_province merged; industry := pd_industry merged;
                hiring := pd_hiring merged; revenue := pd_revenue merged;
                completed := pd_completed merged; _meta := _meta s |}).
  set (w1 := with_esm (set_state s') (with_env (emit (Fetch u)) w)).
  assert (Hstep : mergeLocalAndCloudData (Ok (Some cloud)) respond w =
                  try_catch (_ <- forceSyncToCloud respond ;;
                             showNotification "Progress merged successfully!" "success")
                            (showNotification "Error merging progress data" "error") w1).
  { unfold mergeLocalAndCloudData, try_catch, bind at 1 2 3 4 5 6.
    unfold getCurrentUser, gets. rewrite Hu. reflexivity. }
  unfold w', run. rewrite Hstep.
  destruct (forceSyncToCloud_sends respond w1 u Ha Hu Hbusy) as (r & w2 & Hrun & Hup & _).
  assert (Hbody : (_ <- forceSyncToCloud respond ;;
                   showNotification "Progress merged successfully!" "success") w1 =
                  (Ok tt, with_env (emit (Notification "success"
                                            "Progress merged successfully!")) w2)).
  { rewrite (bind_ok _ _ _ _ _ Hrun). reflexivity. }
  unfold try_catch. rewrite Hbody. cbn [snd].
  rewrite (by_effect (Onlooker := upserts_onlooker)) by reflexivity.
  assert (Hw1 : upserts w1 = upserts w).
  { unfold upserts, w1. simpl. rewrite omap_app. apply app_nil_r. }
  rewrite Hup, Hw1. reflexivity.
Qed.

Lemma merge_prefers_local_selection_witness :
  let w := signed_in (record "ON" [("a", VBool true)] 100) 1000 in
  let cloud := cloud_row "BC" [("b", VBool true)] 200 in
  map snd (upserts (run (mergeLocalAndCloudData (Ok (Some cloud)) (accept 3 1000)) w)) =
  [progressData (record "ON" [("b", VBool true); ("a", VBool true)] 100)].
Proof.
  intros w cloud.
  destruct (merge_prefers_local_selection w cloud (accept 3 1000) "user-1"
              eq_refl eq_refl eq_refl) as [_ Hup].
  rewrite Hup. reflexivity.
Defined.

(** ** What an upload leaves behind *)

Lemma esm_notifySyncListeners status message :
  preserves esm (notifySyncListeners status message).
Proof.
  unfold notifySyncListeners. apply preserves_bind; [apply preserves_gets|].
  intros ls. apply preserves_for_each. intros []. apply preserves_try_catch;
    [|apply preserves_ret].
  unfold call_listener, handleSyncEvent, handleSyncStatusChange, when, queueRetrySync.
  apply preserves_bind; [apply preserves_gets|]. intros [|]; [|apply preserves_ret].
  apply preserves_bind; [apply preserves_gets|]. intros online.
  destruct (String.eqb status "error" && online); [|apply preserves_ret].
  apply preserves_bind; [apply preserves_gets|]. intros sy.
  destruct (retryAttempts sy <? maxRetries sy); [|apply preserves_ret].
  intros w. reflexivity.
Qed.

Lemma esm_setSyncStatus status w :
  esm (run (setSyncStatus status) w) = set_currentSyncStatus (Some status) (esm w).
Proof.
  unfold setSyncStatus, run.
  rewrite (bind_ok _ _ _ _ _ (modify_run _ w)).
  apply (esm_notifySyncListeners status EmptyString).
Qed.

(** The [catch] block of [syncToCloud]. *)
Lemma syncToCloud_catch_run w :
  exists w', syncToCloud_catch w = (Ok false, w') /\
             esm w' = set_currentSyncStatus (Some "error") (esm w).
Proof.
  unfold syncToCloud_catch.
  destruct (total_setSyncStatus "error" w) as ([] & w1 & H1).
  destruct (total_notifySyncListeners "error" "Failed to sync progress" w1)
    as ([] & w2 & H2).
  exists w2. rewrite (bind_ok _ _ _ _ _ H1), (bind_ok _ _ _ _ _ H2).
  split; [reflexivity|].
  pose proof (esm_setSyncStatus "error" w) as E1.
  pose proof (esm_notifySyncListeners "error" "Failed to sync progress" w1) as E2.
  unfold run in E1, E2. rewrite H1 in E1. rewrite H2 in E2. simpl in E1, E2.
  congruence.
Qed.

(** The [try] block of [syncToCloud] after the reply. *)
Lemma syncToCloud_saved_run row w :
  exists w2 m,
    persistLocal (with_esm (set_state
                    (set_meta (meta_literal (VNum (row_updated_at row)) (row_version row)
                                 (VNum (clock (env w))) (VBool false))
                       (state (esm w)))) w) = (Ok tt, w2) /\
    _meta (state (esm w2)) = VObj Plain m /\
    syncToCloud_saved row w =
    (Ok true,
     with_esm (set_currentSyncStatus (Some "synced"))
       (with_esm (set_pendingChanges false)
          (with_esm (set_lastSyncTime (VNum (clock (env w2))))
             (with_esm (set_state
                          (set_meta (VObj Plain (own_set "hasLocalChanges" (VBool false) m))
                             (state (esm w2)))) w2)))).
Proof.
  set (w1 := with_esm (set_state
                (set_meta (meta_literal (VNum (row_updated_at row)) (row_version row)
                             (VNum (clock (env w))) (VBool false))
                   (state (esm w)))) w).
  destruct (persistLocal_spec w1) as (w2 & Hrun & Hstate & _).
  assert (Hm : exists m, _meta (state (esm w2)) = VObj Plain m).
  { unfold state_of in Hstate. rewrite Hstate. unfold touch, w1. simpl. eauto. }
  destruct Hm as (m & Hm). exists w2, m. split; [exact Hrun|]. split; [exact Hm|].
  unfold syncToCloud_saved.
  rewrite (bind_ok _ _ _ _ _ (Date_now_run w)). unfold update_state.
  rewrite (bind_ok _ _ _ _ _ (modify_run _ w)). fold w1.
  rewrite (bind_ok _ _ _ _ _ Hrun).
  rewrite (bind_ok _ _ _ _ _ (assign_meta_object "hasLocalChanges" _ w2 Plain m Hm eq_refl)).
  rewrite (bind_ok _ _ _ _ _ (Date_now_run _)).
  rewrite (bind_ok _ _ _ _ _ (modify_run _ _)).
  rewrite (bind_ok _ _ _ _ _ (modify_run _ _)).
  rewrite (bind_ok _ _ _ _ _ (setSyncStatus_quiet "synced" _ eq_refl)).
  rewrite (bind_ok _ _ _ _ _ (notifySyncListeners_quiet "synced" _ _ eq_refl)).
  reflexivity.
Qed.

(** What [syncToCloud] leaves once its request is answered. *)
Lemma syncToCloud_settle_run (reply : Result Row) (w : World) :
  exists w',
    syncToCloud_settle reply w = (Ok (is_ok reply), w') /\
    syncInProgress (esm w') = false /\
    currentSyncStatus (esm w') = Some (if is_ok reply then "synced" else "error") /\
    auth w' = auth w /\ clock (env w') = clock (env w) /\
    content_of w' = content_of w /\
    upserts w' = upserts w /\
    pendingChanges (esm w') = (if is_ok reply then false else pendingChanges (esm w)) /\
    hasLocalChanges w' = (if is_ok reply then Ok (VBool false) else hasLocalChanges w).
Proof.
  pose proof (bystander_syncToCloud_settle silent content_of reply w) as Pc.
  pose proof (bystander_syncToCloud_settle is_upsert upserts reply w) as Pu.
  pose proof (bystander_syncToCloud_settle silent session_of reply w) as Ps.
  pose proof (bystander_syncToCloud_settle silent time_of reply w) as Pt.
  unfold run, session_of, time_of in Pc, Pu, Ps, Pt.
  destruct reply as [row|].
  - destruct (syncToCloud_saved_run row w) as (w2 & m & _ & _ & Hsaved).
    assert (Hrun : syncToCloud_settle (Ok row) w =
                   (Ok true, with_esm (set_syncInProgress false)
                               (snd (syncToCloud_saved row w)))).
    { unfold syncToCloud_settle, finally, try_catch, syncToCloud_finally.
      unfold bind at 1. unfold lift at 1. cbv beta iota.
      rewrite Hsaved. reflexivity. }
    rewrite Hsaved in Hrun. rewrite Hrun in Pc, Pu, Ps, Pt |- *.
    eexists. split; [reflexivity|].
    unfold hasLocalChanges. cbn -[own_get own_set].
    split; [reflexivity|]. split; [reflexivity|].
    split; [exact Ps|]. split; [exact Pt|].
    split; [exact Pc|]. split; [exact Pu|]. split; [reflexivity|].
    rewrite own_get_set. reflexivity.
  - destruct (syncToCloud_catch_run w) as (w1 & Hcatch & Hesm).
    assert (Hrun : syncToCloud_settle Throw w =
                   (Ok false, with_esm (set_syncInProgress false) w1)).
    { unfold syncToCloud_settle, finally, try_catch, syncToCloud_finally.
      unfold bind at 1. unfold lift at 1. cbv beta iota.
      rewrite Hcatch. reflexivity. }
    rewrite Hrun in Pc, Pu, Ps, Pt |- *. simpl in Pc, Pu, Ps, Pt.
    eexists. split; [reflexivity|]. unfold hasLocalChanges. simpl. rewrite Hesm.
    split; [reflexivity|]. split; [reflexivity|].
    split; [exact Ps|]. split; [exact Pt|].
    split; [exact Pc|]. split; [exact Pu|]. split; reflexivity.
Qed.

(** X3.  [syncToCloud], once its request is answered, never throws and
    answers whether the service took the record.  Either way it releases
    [syncInProgress], leaves the content of the record alone and sends
    nothing more; the status is "synced" or "error" accordingly, which is
    what [getSyncStatus] then reports to a signed-in user ("offline" to
    anyone else), and after a success nothing counts as pending or changed
    any more. *)
Theorem syncToCloud_settle_outcome (reply : Result Row) (w : World) :
  exists w',
    syncToCloud_settle reply w = (Ok (is_ok reply), w') /\
    syncInProgress (esm w') = false /\
    currentSyncStatus (esm w') = Some (if is_ok reply then "synced" else "error") /\
    answer getSyncStatus w' =
      Ok (if isAuthenticated (auth w)
          then if is_ok reply then "synced" else "error"
          else "offline") /\
    content_of w' = content_of w /\
    upserts w' = upserts w /\
    (forall row, reply = Ok row ->
       pendingChanges (esm w') = false /\ hasLocalChanges w' = Ok (VBool false)).
Proof.
  destruct (syncToCloud_settle_run reply w)
    as (w' & Hrun & Hbusy & Hstatus & Ha & _ & Hc & Hu & Hp & Hl).
  exists w'. split; [exact Hrun|]. split; [exact Hbusy|]. split; [exact Hstatus|].
  split.
  { unfold answer, getSyncStatus, bind, isUserAuthenticated, gets.
    cbn [fst snd]. rewrite Ha.
    destruct (isAuthenticated (auth w)); [|reflexivity].
    cbn [negb fst snd ret]. rewrite Hstatus. destruct reply; reflexivity. }
  split; [exact Hc|]. split; [exact Hu|].
  intros row ->. split; [exact Hp | exact Hl].
Qed.

(** An upload that nothing holds back, from its request to its end. *)
Lemma syncToCloud_run respond w u :
  isAuthenticated (auth w) = true -> currentUser (auth w) = Some u ->
  syncInProgress (esm w) = false ->
  exists w',
    syncToCloud respond w = (Ok (is_ok (respond (content_of w))), w') /\
    upserts w' = upserts w ++ [(clock (env w), content_of w)] /\
    content_of w' = content_of w /\
    auth w' = auth w /\ clock (env w') = clock (env w) /\
    syncInProgress (esm w') = false /\
    hasLocalChanges w' =
      (if is_ok (respond (content_of w)) then Ok (VBool false) else hasLocalChanges w).
Proof.
  intros Ha Hu Hbusy. unfold syncToCloud.
  rewrite (bind_ok _ _ _ _ _ (syncToCloud_start_run w u Ha Hu Hbusy)).
  fold (content_of w).
  match goal with |- context [syncToCloud_settle ?r ?w0] =>
    destruct (syncToCloud_settle_run r w0)
      as (w' & Hrun & Hb & _ & Hauth & Hclock & Hc & Hup & _ & Hl)
  end.
  exists w'. split; [exact Hrun|].
  split; [rewrite Hup, upserts_emit; reflexivity|].
  split; [exact Hc|]. split; [exact Hauth|]. split; [exact Hclock|].
  split; [exact Hb | exact Hl].
Qed.

Lemma forceSyncToCloud_run respond w u :
  isAuthenticated (auth w) = true -> currentUser (auth w) = Some u ->
  syncInProgress (esm w) = false ->
  exists w',
    forceSyncToCloud respond w = (Ok (is_ok (respond (content_of w))), w') /\
    upserts w' = upserts w ++ [(clock (env w), content_of w)] /\
    content_of w' = content_of w /\
    auth w' = auth w /\ clock (env w') = clock (env w) /\
    syncInProgress (esm w') = false.
Proof.
  intros Ha Hu Hbusy. unfold forceSyncToCloud.
  destruct (cancel_debounce_run w) as (ts & Hc & _).
  rewrite (bind_ok _ _ _ _ _ Hc).
  destruct (syncToCloud_run respond
              (with_env (set_timers ts (next_timer (env w))) w) u Ha Hu Hbusy)
    as (w' & Hrun & Hup & Hcontent & Hauth & Hclock & Hidle & _).
  exists w'. split; [exact Hrun|]. split; [exact Hup|]. split; [exact Hcontent|].
  split; [exact Hauth|]. split; [exact Hclock | exact Hidle].
Qed.

(** ** Changes made while an upload is under way *)

Lemma mutate_changed m w :
  ready w ->
  let wc := with_esm (set_state (changed m (state (esm w)))) w in
  ready wc /\
  exists st, mode st = Usable /\
    mutate m w =
    (Ok tt,
     if decide (debounce_window m (isAuthenticated (auth w)) = 500)
     then scheduled 500 (persisted st wc) else persisted st wc).
Proof.
  intros Hready wc. pose proof Hready as (Hmode & Hp & Hi & Hh & Hr & Hc & Hm & Hok).
  destruct m as [v|v|v|v|key done].
  1-4: assert (Hr1 : ready wc)
         by (do 7 (split; [assumption || reflexivity|]); exact Hok);
       (split; [exact Hr1|]);
       simpl mutate; unfold setProvince, setIndustry, setHiring, setRevenue;
       match goal with
       | |- context [update_state ?f] =>
           destruct (selection_run f w Hr1) as (st & Hst & Hrun)
       end; exists st; (split; [exact Hst|]); exact Hrun.
  destruct (completed (state (esm w))) as [| | | | | |[|] ps] eqn:Ec;
    try discriminate Hc.
  set (c := if String.eqb key "__proto__" && negb (own_has "__proto__" ps)
            then VObj Plain ps
            else VObj Plain (own_set key (VBool done) ps)).
  assert (Hset : set_prop (completed (state (esm w))) key (VBool done) = Ok c).
  { rewrite Ec. unfold c. simpl.
    destruct (String.eqb key "__proto__" && negb (own_has "__proto__" ps));
      reflexivity. }
  assert (Hwc : wc = with_esm (set_state (set_completed c (state (esm w)))) w).
  { unfold wc, changed. rewrite Hset. reflexivity. }
  clearbody wc. subst wc.
  set (w1 := with_esm (set_state (set_completed c (state (esm w)))) w).
  assert (Hr1 : ready w1).
  { do 5 (split; [assumption|]). split; [|split; assumption].
    unfold w1, c. simpl.
    destruct (String.eqb key "__proto__" && negb (own_has "__proto__" ps));
      reflexivity. }
  split; [exact Hr1|].
  destruct (persistLocal_run w1 Hr1) as (st & Hst & Hrun).
  exists st. split; [exact Hst|].
  simpl mutate. unfold setStepCompleted.
  rewrite (bind_ok _ _ _ _ _ (get_state_run w)).
  assert (Hlift : lift (set_prop (completed (state (esm w))) key (VBool done)) w
                  = (Ok c, w)) by (unfold lift; rewrite Hset; reflexivity).
  rewrite (bind_ok _ _ _ _ _ Hlift). unfold put_state.
  rewrite (bind_ok _ _ _ _ _ (modify_run _ w)).
  fold w1. rewrite (bind_ok _ _ _ _ _ Hrun).
  unfold bind, isUserAuthenticated, gets. simpl.
  destruct done, (isAuthenticated (auth w)); simpl;
    try rewrite scheduleSyncToCloud_run; reflexivity.
Qed.

Lemma only_debounce_scheduled d w :
  only_debounce_timers w -> only_debounce_timers (scheduled d w).
Proof.
  intros H t Ht. unfold scheduled, reschedule in Ht. simpl in Ht.
  apply elem_of_app in Ht as [Ht|Ht].
  - destruct (timer_set (syncTimeout (esm w)));
      [apply list_elem_of_filter in Ht as [_ Ht]|]; apply H; exact Ht.
  - apply list_elem_of_singleton in Ht. subst t. reflexivity.
Qed.

Lemma only_debounce_persisted st w :
  only_debounce_timers w -> only_debounce_timers (persisted st w).
Proof. intros H. unfold persisted. apply only_debounce_scheduled. exact H. Qed.

Lemma only_debounce_fired t w :
  only_debounce_timers w -> only_debounce_timers (fired t w).
Proof.
  intros H t' Ht'. unfold fired in Ht'. simpl in Ht'.
  apply list_elem_of_filter in Ht' as [_ Ht']. apply H. exact Ht'.
Qed.

Lemma ready_fired t w : ready w -> ready (fired t w).
Proof.
  intros (Hmode & Hp & Hi & Hh & Hr & Hc & Hm & Hpos & Hok).
  do 7 (split; [assumption|]). split; [exact Hpos|].
  intros t' Ht' Hcb. unfold fired in Ht'. simpl in Ht'.
  apply list_elem_of_filter in Ht' as [_ Ht']. exact (Hok t' Ht' Hcb).
Qed.

(** The debounce timer fires and finds nothing to do, or an upload under
    way, or nobody signed in: it sends nothing. *)
Lemma fire_debounced_idle respond t w :
  callback t = DebouncedSync ->
  syncInProgress (esm w) = true \/ pendingChanges (esm w) = false \/
  isAuthenticated (auth w) = false ->
  fire respond t w = (Ok tt, fired t w).
Proof.
  intros Hcb Hidle. unfold fire. rewrite (bind_ok _ _ _ _ _ (modify_run _ w)).
  fold (fired t w). rewrite Hcb. simpl run_callback.
  assert (Ha : isAuthenticated (auth (fired t w)) = isAuthenticated (auth w))
    by reflexivity.
  assert (Hp : pendingChanges (esm (fired t w)) = pendingChanges (esm w))
    by reflexivity.
  assert (Hb : syncInProgress (esm (fired t w)) = syncInProgress (esm w))
    by reflexivity.
  generalize dependent (fired t w). intros w1 Ha Hp Hb.
  unfold try_catch, debounced_sync.
  unfold bind at 1 2. unfold isUserAuthenticated at 1, gets at 1 2.
  rewrite Ha, Hp.
  destruct (isAuthenticated (auth w)) eqn:Ea, (pendingChanges (esm w)) eqn:Ep;
    try reflexivity.
  destruct Hidle as [Hbusy|[Hq|Hq]]; try discriminate Hq.
  cbv beta iota. change (true && true) with true. cbv iota.
  unfold syncToCloud, syncToCloud_start.
  unfold bind at 1 2 3 4. unfold isUserAuthenticated at 1, gets at 1 2.
  rewrite Ha, Hb, Hbusy. reflexivity.
Qed.

Lemma earliest_elem ts t : earliest ts = Some t -> t ∈ ts.
Proof.
  unfold earliest.
  assert (G : forall best, fold_left
                (fun best t => match best with
                               | Some b => if due t <? due b then Some t else best
                               | None => Some t
                               end) ts best = Some t ->
              t ∈ ts \/ best = Some t).
  { induction ts as [|x ts IH]; intros best H; simpl in H; [right; exact H|].
    destruct (IH _ H) as [Hin|Hbest]; [left; right; exact Hin|].
    destruct best as [b|].
    - destruct (due x <? due b).
      + injection Hbest as ->. left. left.
      + right. exact Hbest.
    - injection Hbest as ->. left. left. }
  intros H. destruct (G None H) as [Hin|Hn]; [exact Hin | discriminate Hn].
Qed.

(** With nothing pending, time passes without an upload. *)
Lemma elapse_idle respond n deadline w :
  pendingChanges (esm w) = false -> only_debounce_timers w ->
  upserts (elapse n respond deadline w) = upserts w /\
  state_of (elapse n respond deadline w) = state_of w.
Proof.
  revert w. induction n as [|n IH]; intros w Hp Ht; [split; reflexivity|].
  simpl. destruct (earliest (timers (env w))) as [t|] eqn:Et; [|split; reflexivity].
  destruct (due t <=? deadline); [|split; reflexivity].
  pose proof (Ht t (earliest_elem _ _ Et)) as Hcb.
  unfold run. rewrite (fire_debounced_idle respond t w Hcb) by auto.
  simpl snd.
  destruct (IH (fired t w) Hp (only_debounce_fired t w Ht)) as [IHu IHs].
  rewrite IHu, IHs. split; reflexivity.
Qed.

(** What the page does during an upload keeps the world in working order
    and sends nothing. *)
Lemma during_upload_step reply respond a w :
  during_upload a ->
  ready w -> only_debounce_timers w -> syncInProgress (esm w) = true ->
  let w' := run (perform reply respond a) w in
  ready w' /\ only_debounce_timers w' /\ syncInProgress (esm w') = true /\
  trace (env w') = trace (env w).
Proof.
  intros Ha Hready Ht Hbusy.
  destruct a as [m| | | | | | |t]; try contradiction.
  - destruct (mutate_changed m w Hready) as (Hrc & st & Hst & Hrun).
    simpl. unfold run. rewrite Hrun. simpl snd.
    set (wc := with_esm (set_state (changed m (state (esm w)))) w) in *.
    assert (Htc : only_debounce_timers wc) by exact Ht.
    pose proof (ready_persisted st wc Hst Hrc) as Hrp.
    pose proof (only_debounce_persisted st wc Htc) as Htp.
    destruct (decide _).
    + split; [apply ready_scheduled, Hrp|].
      split; [apply only_debounce_scheduled, Htp|]. split; [exact Hbusy | reflexivity].
    + split; [exact Hrp|]. split; [exact Htp|]. split; [exact Hbusy | reflexivity].
  - simpl in Ha. simpl. unfold run.
    rewrite (fire_debounced_idle respond t w Ha) by auto. simpl snd.
    split; [apply ready_fired, Hready|].
    split; [apply only_debounce_fired, Ht|]. split; [exact Hbusy | reflexivity].
Qed.

Lemma during_upload_steps reply respond l w :
  Forall during_upload l ->
  ready w -> only_debounce_timers w -> syncInProgress (esm w) = true ->
  let w' := perform_all reply respond l w in
  ready w' /\ only_debounce_timers w' /\ syncInProgress (esm w') = true /\
  trace (env w') = trace (env w).
Proof.
  intros Hl. revert w. induction Hl as [|a l Ha Hl IH]; intros w Hr Ht Hb.
  - split; [exact Hr|]. split; [exact Ht|]. split; [exact Hb | reflexivity].
  - destruct (during_upload_step reply respond a w Ha Hr Ht Hb) as (Hr1 & Ht1 & Hb1 & Htr1).
    destruct (IH _ Hr1 Ht1 Hb1) as (Hr2 & Ht2 & Hb2 & Htr2).
    split; [exact Hr2|]. split; [exact Ht2|]. split; [exact Hb2|].
    exact (eq_trans Htr2 Htr1).
Qed.

Lemma syncToCloud_settle_saved row w :
  syncToCloud_settle (Ok row) w =
  (Ok true, with_esm (set_syncInProgress false) (snd (syncToCloud_saved row w))).
Proof.
  destruct (syncToCloud_saved_run row w) as (w2 & m & _ & _ & Hsaved).
  unfold syncToCloud_settle, finally, try_catch, syncToCloud_finally.
  unfold bind at 1. unfold lift at 1. cbv beta iota.
  rewrite Hsaved. reflexivity.
Qed.

Lemma only_debounce_settled row w :
  ready w -> only_debounce_timers w ->
  only_debounce_timers (run (syncToCloud_settle (Ok row)) w).
Proof.
  intros Hready Ht.
  destruct (syncToCloud_saved_run row w) as (w2 & m & Hp & _ & Hsaved).
  unfold run. rewrite syncToCloud_settle_saved, Hsaved. simpl snd.
  match type of Hp with persistLocal ?w0 = _ => set (w1 := w0) in * end.
  assert (Hr1 : ready w1).
  { destruct Hready as (Hmode & Hp' & Hi & Hh & Hr & Hc & Hm & Hok).
    do 6 (split; [assumption|]). split; [reflexivity | exact Hok]. }
  destruct (persistLocal_run w1 Hr1) as (st & _ & Hrun).
  rewrite Hrun in Hp. injection Hp as <-.
  exact (only_debounce_persisted st w1 Ht).
Qed.

(** X4.  A change made while an upload is under way is not uploaded when
    that upload succeeds.  The upload carries the record as it was when it
    started; what the visitor changes meanwhile stays in the local record,
    but the success clears [pendingChanges] and [hasLocalChanges] and sets
    the status to "synced", and however long one waits no timer sends the
    change. *)
Theorem changes_during_upload_are_not_sent
    (w : World) (u : string) (l : list Action) (row : Row)
    (reply : Result (option Row)) (respond : ProgressData -> Result Row) :
  ready w -> only_debounce_timers w ->
  isAuthenticated (auth w) = true -> currentUser (auth w) = Some u ->
  syncInProgress (esm w) = false ->
  Forall during_upload l ->
  let w1 := run syncToCloud_start w in
  let w2 := perform_all reply respond l w1 in
  let w3 := run (syncToCloud_settle (Ok row)) w2 in
  upserts w1 = upserts w ++ [(clock (env w), content_of w)] /\
  content_of w3 = content_of w2 /\
  currentSyncStatus (esm w3) = Some "synced" /\
  hasLocalChanges w3 = Ok (VBool false) /\
  forall n deadline, upserts (elapse n respond deadline w3) = upserts w1.
Proof.
  intros Hready Ht Ha Hu Hbusy Hl w1 w2 w3.
  assert (Hw1 : w1 = with_env (emit (Upsert u (progressData (state (esm w)))))
                       (with_esm (set_currentSyncStatus (Some "syncing"))
                          (with_esm (set_syncInProgress true) w))).
  { unfold w1, run. rewrite (syncToCloud_start_run w u Ha Hu Hbusy). reflexivity. }
  assert (Hr1 : ready w1) by (rewrite Hw1; exact Hready).
  assert (Ht1 : only_debounce_timers w1) by (rewrite Hw1; exact Ht).
  assert (Hb1 : syncInProgress (esm w1) = true) by (rewrite Hw1; reflexivity).
  assert (Hu1 : upserts w1 = upserts w ++ [(clock (env w), content_of w)]).
  { rewrite Hw1, upserts_emit. reflexivity. }
  clearbody w1.
  destruct (during_upload_steps reply respond l w1 Hl Hr1 Ht1 Hb1)
    as (Hr2 & Ht2 & _ & Htr2).
  fold w2 in Hr2, Ht2, Htr2.
  assert (Hu2 : upserts w2 = upserts w1) by (unfold upserts; rewrite Htr2; reflexivity).
  clearbody w2.
  destruct (syncToCloud_settle_run (Ok row) w2)
    as (w3' & Hrun & _ & Hstatus & _ & _ & Hcontent & Hu3 & Hpending & Hchanges).
  cbn [is_ok] in Hstatus, Hpending, Hchanges.
  pose proof (only_debounce_settled row w2 Hr2 Ht2) as Ht3.
  assert (Hw3 : w3 = w3') by (unfold w3, run; rewrite Hrun; reflexivity).
  fold w3 in Ht3. clearbody w3. subst w3'.
  split; [exact Hu1|]. split; [exact Hcontent|]. split; [exact Hstatus|].
  split; [exact Hchanges|]. intros n deadline.
  destruct (elapse_idle respond n deadline w3 Hpending Ht3) as [He _].
  congruence.
Qed.

Lemma changes_during_upload_witness :
  let w := signed_in (record "ON" [] 100) 1000 in
  let w1 := run syncToCloud_start w in
  let w2 := perform_all (Ok None) (accept 3 1000) [Mutate (SetProvince "BC")] w1 in
  let w3 := run (syncToCloud_settle (accept 2 1000 (content_of w))) w2 in
  pd_province (content_of w3) = VStr "BC" /\
  forall n deadline,
    map snd (upserts (elapse n (accept 3 1000) deadline w3)) =
    [progressData (record "ON" [] 100)].
Proof.
  intros w w1 w2 w3.
  assert (Hready : ready w).
  { do 7 (split; [reflexivity|]). split; [reflexivity|].
    intros t Ht. inversion Ht. }
  assert (Htimers : only_debounce_timers w) by (intros t Ht; inversion Ht).
  assert (Hl : Forall during_upload [Mutate (SetProvince "BC")])
    by (constructor; [exact I | constructor]).
  destruct (changes_during_upload_are_not_sent w "user-1"
              [Mutate (SetProvince "BC")]
              {| row_province := VStr "ON"; row_industry := VStr "general";
                 row_hiring := VStr "no"; row_revenue := VStr "gte30";
                 row_completed := VObj Plain []; row_version := VNum 2;
                 row_updated_at := 1000 |}
              (Ok None) (accept 3 1000) Hready Htimers eq_refl eq_refl eq_refl
              Hl)
    as (Hu1 & Hcontent & _ & _ & Hquiet).
  split.
  - exact (f_equal pd_province Hcontent).
  - intros n deadline.
    exact (f_equal (map snd) (eq_trans (Hquiet n deadline) Hu1)).
Defined.

(** ** When the browser refuses the storage *)

Lemma setItem_refused k v w :
  mode (localStorage (env w)) <> Usable -> setItem k v w = (Throw, w).
Proof.
  intros Hmode. unfold setItem, bind, lift.
  destruct (to_string v); [|reflexivity].
  destruct (mode (localStorage (env w))); [contradiction | reflexivity | reflexivity].
Qed.

(** [persistLocal] then stamps the record and stops at the first write. *)
Lemma persistLocal_refused w :
  mode (localStorage (env w)) <> Usable ->
  persistLocal w =
  (Ok tt, with_esm (set_state (touch (clock (env w)) (state (esm w)))) w).
Proof.
  intros Hmode. unfold persistLocal, try_catch, touch.
  unfold bind at 1. unfold Date_now at 1, gets at 1.
  unfold bind at 1. rewrite assign_meta_run.
  destruct (set_prop (_meta (state (esm w))) "lastModified" (VNum (clock (env w))))
    as [m|] eqn:E1.
  2: { destruct w as [[s b ls lst pc tmo css] sy au e]. destruct s. reflexivity. }
  unfold bind at 1. rewrite assign_meta_run.
  cbn [esm with_esm state set_state _meta set_meta].
  destruct (set_prop m "hasLocalChanges" (VBool true)) as [m'|] eqn:E2.
  2: { reflexivity. }
  rewrite (bind_ok _ _ _ _ _ (get_state_run _)). cbv beta.
  erewrite bind_throw by (apply setItem_refused; exact Hmode).
  reflexivity.
Qed.

Lemma mutate_refused m w :
  mode (localStorage (env w)) <> Usable ->
  is_plain (completed (state (esm w))) = true ->
  mutate m w =
  (Ok tt,
   let w1 := with_esm (set_state (touch (clock (env w)) (changed m (state (esm w))))) w in
   if decide (debounce_window m (isAuthenticated (auth w)) = 500)
   then scheduled 500 w1 else w1).
Proof.
  intros Hmode Hc.
  destruct m as [v|v|v|v|key done]; simpl mutate;
    unfold setProvince, setIndustry, setHiring, setRevenue, update_state.
  1-4: rewrite (bind_ok _ _ _ _ _ (modify_run _ w));
       rewrite persistLocal_refused by exact Hmode; reflexivity.
  destruct (completed (state (esm w))) as [| | | | | |[|] ps] eqn:Ec;
    try discriminate Hc.
  set (c := if String.eqb key "__proto__" && negb (own_has "__proto__" ps)
            then VObj Plain ps
            else VObj Plain (own_set key (VBool done) ps)).
  assert (Hset : set_prop (completed (state (esm w))) key (VBool done) = Ok c).
  { rewrite Ec. unfold c. simpl.
    destruct (String.eqb key "__proto__" && negb (own_has "__proto__" ps));
      reflexivity. }
  unfold setStepCompleted, changed.
  rewrite (bind_ok _ _ _ _ _ (get_state_run w)).
  rewrite Hset. unfold lift at 1.
  unfold bind at 1. unfold put_state.
  rewrite (bind_ok _ _ _ _ _ (modify_run _ w)).
  erewrite (bind_ok persistLocal) by (apply persistLocal_refused; exact Hmode).
  unfold bind, isUserAuthenticated, gets. simpl.
  destruct done, (isAuthenticated (auth w)); simpl;
    try rewrite scheduleSyncToCloud_run; reflexivity.
Qed.

(** X5.  When the browser refuses writes to [localStorage] (quota
    exceeded, or access denied), a mutation still changes and stamps the
    record in memory, but nothing is stored, [pendingChanges] is not set,
    and no upload follows: with nothing pending before, no timer sends the
    change however long one waits. *)
Theorem mutation_without_storage_is_never_uploaded
    (w : World) (m : Mutation) (respond : ProgressData -> Result Row) :
  mode (localStorage (env w)) <> Usable ->
  is_plain (completed (state_of w)) = true ->
  let w' := run (mutate m) w in
  state_of w' = touch (clock (env w)) (changed m (state_of w)) /\
  localStorage (env w') = localStorage (env w) /\
  pendingChanges (esm w') = pendingChanges (esm w) /\
  (pendingChanges (esm w) = false -> only_debounce_timers w ->
   forall n deadline, upserts (elapse n respond deadline w') = upserts w).
Proof.
  intros Hmode Hc w'.
  assert (Hw' : w' = let w1 := with_esm (set_state (touch (clock (env w))
                                          (changed m (state (esm w))))) w in
                     if decide (debounce_window m (isAuthenticated (auth w)) = 500)
                     then scheduled 500 w1 else w1).
  { unfold w', run. rewrite (mutate_refused m w Hmode Hc). reflexivity. }
  clearbody w'. subst w'. cbv zeta.
  destruct (decide _) as [H500|H2000];
    (split; [reflexivity|]); (split; [reflexivity|]); (split; [reflexivity|]);
    intros Hp Ht n deadline.
  - match goal with |- upserts (elapse _ _ _ ?w0) = _ =>
      destruct (elapse_idle respond n deadline w0 Hp) as [He _]
    end.
    + apply only_debounce_scheduled. exact Ht.
    + rewrite He. reflexivity.
  - match goal with |- upserts (elapse _ _ _ ?w0) = _ =>
      destruct (elapse_idle respond n deadline w0 Hp Ht) as [He _]
    end.
    rewrite He. reflexivity.
Qed.

Lemma mutation_without_storage_witness :
  let w := with_env (set_localStorage {| items := ∅; mode := Full |})
             (signed_in (record "ON" [] 100) 1000) in
  let w' := run (mutate (SetProvince "BC")) w in
  province (state_of w') = VStr "BC" /\
  forall n deadline, upserts (elapse n (accept 2 1000) deadline w') = [].
Proof.
  intros w w'.
  assert (Hmode : mode (localStorage (env w)) <> Usable) by discriminate.
  destruct (mutation_without_storage_is_never_uploaded w (SetProvince "BC")
              (accept 2 1000) Hmode eq_refl) as (Hstate & _ & _ & Hquiet).
  split.
  - exact (f_equal province Hstate).
  - intros n deadline. apply (Hquiet eq_refl).
    intros t Ht. inversion Ht.
Defined.

(** ** Nobody signed in *)

#[local] Instance requests_onlooker : Onlooker is_request requests.
Proof.
  split; intros; try reflexivity.
  unfold requests. simpl. rewrite filter_app.
  rewrite (filter_none _ [(clock (env w), e)]); [apply app_nil_r|].
  intros x Hx. apply list_elem_of_singleton in Hx. subst x. simpl. congruence.
Qed.

#[local] Instance requests_bystander : Bystander is_request requests.
Proof. split; [exact requests_onlooker | intros; reflexivity]. Qed.

Lemma quiet_of_preserves {A} (m : M A) :
  preserves requests m -> preserves session_of m -> quiet_when_signed_out m.
Proof.
  intros Hr Hs w Ha. split; [apply Hr|].
  pose proof (Hs w) as H. unfold session_of in H. rewrite H. exact Ha.
Qed.

Lemma quiet_bind {A B} (m : M A) (k : A -> M B) :
  quiet_when_signed_out m -> (forall a, quiet_when_signed_out (k a)) ->
  quiet_when_signed_out (bind m k).
Proof.
  intros Hm Hk w Ha. destruct (Hm w Ha) as [Hr Hs]. unfold run, bind in *.
  destruct (m w) as [[a|] w1]; simpl in *; [|split; assumption].
  destruct (Hk a w1 Hs) as [Hr' Hs']. unfold run in *.
  split; [rewrite Hr'; exact Hr | exact Hs'].
Qed.

Lemma quiet_try_catch {A} (body handler : M A) :
  quiet_when_signed_out body -> quiet_when_signed_out handler ->
  quiet_when_signed_out (try_catch body handler).
Proof.
  intros Hb Hh w Ha. destruct (Hb w Ha) as [Hr Hs]. unfold run, try_catch in *.
  destruct (body w) as [[a|] w1]; simpl in *; [split; assumption|].
  destruct (Hh w1 Hs) as [Hr' Hs']. unfold run in *.
  split; [rewrite Hr'; exact Hr | exact Hs'].
Qed.

Lemma quiet_finally {A} (body : M A) (cleanup : M unit) :
  quiet_when_signed_out body -> quiet_when_signed_out cleanup ->
  quiet_when_signed_out (finally body cleanup).
Proof.
  intros Hb Hc w Ha. destruct (Hb w Ha) as [Hr Hs]. unfold run, finally in *.
  destruct (body w) as [r w1]; simpl in *.
  destruct (Hc w1 Hs) as [Hr' Hs']. unfold run in *.
  destruct (cleanup w1) as [[[]|] w2]; simpl in *;
    (split; [rewrite Hr'; exact Hr | exact Hs']).
Qed.

Lemma quiet_syncToCloud_start : quiet_when_signed_out syncToCloud_start.
Proof.
  intros w Ha. unfold run, syncToCloud_start, bind, isUserAuthenticated, gets.
  rewrite Ha. split; [reflexivity | exact Ha].
Qed.

Lemma quiet_syncFromCloud_start : quiet_when_signed_out syncFromCloud_start.
Proof.
  intros w Ha. unfold run, syncFromCloud_start, bind, isUserAuthenticated, gets.
  rewrite Ha. split; [reflexivity | exact Ha].
Qed.

Create HintDb quiet.
#[local] Hint Resolve quiet_syncToCloud_start quiet_syncFromCloud_start : quiet.

Ltac keeps_quiet :=
  repeat first
    [ solve [eauto with quiet nocore]
    | solve [apply quiet_of_preserves; preserve]
    | apply quiet_bind; [ | intros ? ]
    | apply quiet_try_catch | apply quiet_finally
    | match goal with
      | |- quiet_when_signed_out (if ?b then _ else _) => destruct b
      | |- quiet_when_signed_out (match ?x with _ => _ end) => destruct x
      | |- quiet_when_signed_out (when ?b _) => destruct b; unfold when
      end ].

Lemma quiet_syncToCloud respond : quiet_when_signed_out (syncToCloud respond).
Proof. unfold syncToCloud. keeps_quiet. Qed.
#[local] Hint Resolve quiet_syncToCloud : quiet.

Lemma quiet_forceSyncToCloud respond : quiet_when_signed_out (forceSyncToCloud respond).
Proof. unfold forceSyncToCloud, cancel_debounce. keeps_quiet. Qed.
#[local] Hint Resolve quiet_forceSyncToCloud : quiet.

Lemma quiet_syncFromCloud reply respond :
  quiet_when_signed_out (syncFromCloud reply respond).
Proof.
  unfold syncFromCloud. apply quiet_bind; [apply quiet_syncFromCloud_start|].
  intros [r|u0]; [keeps_quiet|].
  unfold syncFromCloud_settle, syncFromCloud_fetched, adopt_cloud. keeps_quiet.
Qed.
#[local] Hint Resolve quiet_syncFromCloud : quiet.

Lemma quiet_perform reply respond a :
  quiet_when_signed_out (perform reply respond a).
Proof.
  destruct a as [m| |v|v| | | |t]; simpl.
  - destruct m; simpl;
      unfold setProvince, setIndustry, setHiring, setRevenue, setStepCompleted;
      keeps_quiet.
  - unfold reset, loadDefaultState. keeps_quiet.
  - unfold importProgress. keeps_quiet.
  - unfold importProgressData_start, importProgress, forceSyncToCloud_start,
      cancel_debounce. keeps_quiet.
  - unfold forceSync. keeps_quiet.
  - keeps_quiet.
  - keeps_quiet.
  - unfold fire, run_callback, debounced_sync, retry_sync. keeps_quiet.
Qed.

(** X6.  While nobody is signed in, nothing the visitor or the browser
    sets off on the page sends a request to the remote service: no
    mutation, reset, import, forced synchronisation or timer. *)
Theorem signed_out_sends_nothing
    (reply : Result (option Row)) (respond : ProgressData -> Result Row)
    (l : list Action) (w : World) :
  isAuthenticated (auth w) = false ->
  requests (perform_all reply respond l w) = requests w /\
  isAuthenticated (auth (perform_all reply respond l w)) = false.
Proof.
  revert w. induction l as [|a l IH]; intros w Ha; [split; [reflexivity | exact Ha]|].
  destruct (quiet_perform reply respond a w Ha) as [Hr Hs].
  destruct (IH _ Hs) as [Hr' Hs'].
  unfold perform_all in *. simpl. split; [rewrite Hr'; exact Hr | exact Hs'].
Qed.

Lemma signed_out_sends_nothing_witness :
  let w := world_storing [("province", "ON")] in
  let t := {| timer_id := 1; due := 2000; callback := DebouncedSync |} in
  requests (perform_all (Ok None) (accept 2 0)
              [Mutate (SetStepCompleted "structure" true); Fire t; ForceSync; Reset] w)
  = [].
Proof.
  intros w t.
  exact (proj1 (signed_out_sends_nothing (Ok None) (accept 2 0)
                  [Mutate (SetStepCompleted "structure" true); Fire t; ForceSync; Reset]
                  w eq_refl)).
Defined.

(** ** Forced synchronisation *)

Lemma total_syncFromCloud reply respond : total (syncFromCloud reply respond).
Proof.
  unfold syncFromCloud, syncFromCloud_start, syncFromCloud_settle,
    isUserAuthenticated.
  never_throws.
Qed.

Lemma total_cancel_debounce : total cancel_debounce.
Proof. intros w. destruct (cancel_debounce_run w) as (ts & H & _). eauto. Qed.

Lemma total_syncToCloud respond : total (syncToCloud respond).
Proof. unfold syncToCloud. never_throws. Qed.

Lemma total_forceSyncToCloud respond : total (forceSyncToCloud respond).
Proof.
  unfold forceSyncToCloud.
  apply total_bind; [apply total_cancel_debounce | intros _; apply total_syncToCloud].
Qed.

Lemma last_emit e w : last (trace (env (with_env (emit e) w))) = Some (clock (env w), e).
Proof. simpl. apply last_snoc. Qed.

(** X7.  [forceSync] of the sync manager never throws.  Signed out or
    offline it answers [false] and sends nothing.  Signed in and online it
    answers [true] and ends on the notice of success, whatever the service
    answers to the download and to the upload, a service that cannot be
    reached included. *)
Theorem forceSync_answers_true_when_online
    (reply : Result (option Row)) (respond : ProgressData -> Result Row) (w : World) :
  let go := isAuthenticated (auth w) && isOnline (sync w) in
  exists w',
    forceSync reply respond w = (Ok go, w') /\
    (go = false -> requests w' = requests w /\ content_of w' = content_of w) /\
    (go = true ->
     snd <$> last (trace (env w')) =
     Some (Notification "success" "Progress synced successfully!")).
Proof.
  unfold forceSync. unfold bind at 1. unfold isUserAuthenticated at 1, gets at 1.
  destruct (isAuthenticated (auth w)) eqn:Ha; cbn [negb andb].
  2: { eexists. split; [reflexivity|]. split; [|discriminate].
       intros _. split; [|reflexivity].
       apply (by_effect (Onlooker := requests_onlooker)). reflexivity. }
  unfold bind at 1. unfold gets at 1.
  destruct (isOnline (sync w)) eqn:Ho; cbn [negb].
  2: { eexists. split; [reflexivity|]. split; [|discriminate].
       intros _. split; [|reflexivity].
       apply (by_effect (Onlooker := requests_onlooker)). reflexivity. }
  destruct (total_syncFromCloud reply respond w) as (r1 & w1 & H1).
  destruct (total_forceSyncToCloud respond w1) as (r2 & w2 & H2).
  exists (with_env (emit (Notification "success" "Progress synced successfully!")) w2).
  split; [|split; [discriminate|]].
  - unfold try_catch. rewrite (bind_ok _ _ _ _ _ H1), (bind_ok _ _ _ _ _ H2).
    reflexivity.
  - intros _. rewrite last_emit. reflexivity.
Qed.

(** ** Import through the sync manager *)

(** An upload cannot start while another is under way, or without a user. *)
Lemma syncToCloud_start_blocked w :
  syncInProgress (esm w) = true \/ currentUser (auth w) = None \/
  isAuthenticated (auth w) = false ->
  exists w', syncToCloud_start w = (Ok (Returned false), w') /\ upserts w' = upserts w.
Proof.
  intros Hb. unfold syncToCloud_start.
  unfold bind at 1. unfold isUserAuthenticated at 1, gets at 1.
  unfold bind at 1. unfold gets at 1.
  destruct (isAuthenticated (auth w)) eqn:Ha; [|exists w; split; reflexivity].
  destruct (syncInProgress (esm w)) eqn:Hbusy; [exists w; split; reflexivity|].
  destruct Hb as [Hb|[Hu|Hb]]; try discriminate Hb.
  cbn [negb orb].
  assert (Hreq : exists w1, syncToCloud_request w = (Throw, w1) /\ upserts w1 = upserts w).
  { eexists. unfold syncToCloud_request.
    rewrite (bind_ok _ _ _ _ _ (modify_run _ w)).
    rewrite (bind_ok _ _ _ _ _ (setSyncStatus_quiet "syncing" _ eq_refl)).
    unfold bind, getCurrentUser, get_state, gets. simpl. rewrite Hu.
    split; reflexivity. }
  destruct Hreq as (w1 & Hreq & Hu1).
  destruct (syncToCloud_catch_run w1) as (w2 & Hcatch & _).
  pose proof (onlooker_setSyncStatus is_upsert upserts "error" w1) as P1.
  exists (with_esm (set_syncInProgress false) w2). split.
  - unfold try_catch. rewrite (bind_throw _ _ _ _ Hreq).
    unfold bind, finally, syncToCloud_finally. rewrite Hcatch. reflexivity.
  - change (upserts w2 = upserts w). rewrite <- Hu1.
    assert (P : preserves upserts syncToCloud_catch)
      by (unfold syncToCloud_catch; preserve).
    specialize (P w1). unfold run in P. rewrite Hcatch in P. exact P.
Qed.

(** Once [syncToCloud] has started, or has failed to, a second one cannot
    start. *)
Lemma syncToCloud_start_blocks w :
  let w' := run syncToCloud_start w in
  syncInProgress (esm w') = true \/ currentUser (auth w') = None \/
  isAuthenticated (auth w') = false.
Proof.
  intros w'.
  pose proof (bystander_syncToCloud_start silent session_of (fun _ _ => eq_refl) w)
    as Hs.
  fold w' in Hs. unfold session_of in Hs.
  destruct (isAuthenticated (auth w)) eqn:Ha.
  2: { right. right. rewrite Hs. exact Ha. }
  destruct (currentUser (auth w)) as [u|] eqn:Hu.
  2: { right. left. rewrite Hs. exact Hu. }
  destruct (syncInProgress (esm w)) eqn:Hbusy.
  - left. unfold w', run, syncToCloud_start, bind, isUserAuthenticated, gets.
    rewrite Ha, Hbusy. exact Hbusy.
  - left. unfold w', run. rewrite (syncToCloud_start_run w u Ha Hu Hbusy).
    reflexivity.
Qed.

(** X8.  [importProgressData] of the sync manager never throws and answers
    what [importProgress] answers.  Its own [forceSyncToCloud] never sends
    a request: the upload that [importProgress] has started is still under
    way, or could not start. *)
Theorem importProgressData_sends_no_second_upload (payload : value) (w : World) :
  exists b w',
    importProgressData_start payload w = (Ok (Returned b), w') /\
    answer (importProgress payload) w = Ok b /\
    upserts w' = upserts (run (importProgress payload) w).
Proof.
  unfold importProgressData_start, answer, run.
  assert (Himport : exists b w1, importProgress payload w = (Ok b, w1) /\
            (b = true ->
             syncInProgress (esm w1) = true \/ currentUser (auth w1) = None \/
             isAuthenticated (auth w1) = false)).
  { unfold importProgress, try_catch.
    destruct (filter_import payload) as [filteredData|];
      [|exists false, w; split; [reflexivity | discriminate]].
    unfold bind at 1. unfold lift at 1. cbv beta iota.
    rewrite (bind_ok _ _ _ _ _ (get_state_run w)).
    rewrite (bind_ok _ _ _ _ _ (Date_now_run w)). unfold put_state.
    rewrite (bind_ok _ _ _ _ _ (modify_run _ w)).
    match goal with |- context [bind persistLocal ?k ?w0] =>
      destruct (total_persistLocal w0) as ([] & wp & Hp);
      rewrite (bind_ok persistLocal k w0 tt wp Hp)
    end.
    unfold bind at 1. unfold isUserAuthenticated at 1, gets at 1.
    destruct (isAuthenticated (auth wp)) eqn:Ha.
    - destruct (total_syncToCloud_start wp) as (st & w1 & Hst).
      exists true, w1. unfold bind. rewrite Hst. split; [reflexivity|]. intros _.
      pose proof (syncToCloud_start_blocks wp) as Hb. unfold run in Hb.
      rewrite Hst in Hb. exact Hb.
    - exists true, wp. split; [reflexivity|]. intros _. right. right. exact Ha. }
  destruct Himport as (b & w1 & Himport & Hblocked).
  rewrite Himport. simpl fst. simpl snd.
  unfold try_catch. rewrite (bind_ok _ _ _ _ _ Himport).
  destruct b.
  2: { eexists _, _. split; [reflexivity|]. split; [reflexivity|].
       apply (by_effect (Onlooker := upserts_onlooker)). reflexivity. }
  specialize (Hblocked eq_refl).
  unfold showNotification, effect. rewrite (bind_ok _ _ _ _ _ (modify_run _ w1)).
  set (w2 := with_env (emit (Notification "success" "Progress imported successfully!")) w1).
  assert (Hu2 : upserts w2 = upserts w1)
    by (apply (by_effect (Onlooker := upserts_onlooker)); reflexivity).
  unfold bind at 1. unfold isUserAuthenticated at 1, gets at 1.
  destruct (isAuthenticated (auth w2)) eqn:Ha;
    [|exists true, w2; split; [reflexivity|]; split; [reflexivity | exact Hu2]].
  unfold forceSyncToCloud_start.
  destruct (cancel_debounce_run w2) as (ts & Hc & _).
  set (w3 := with_env (set_timers ts (next_timer (env w2))) w2) in *.
  destruct (syncToCloud_start_blocked w3 Hblocked) as (w4 & Hst & Hu4).
  exists true, w4. split; [|split; [reflexivity | rewrite Hu4; exact Hu2]].
  unfold bind at 1. rewrite (bind_ok _ _ _ _ _ Hc), Hst. reflexivity.
Qed.

(** ** The queue of the sync manager *)

Lemma total_sync_operation operation reply respond :
  readable operation -> total (sync_operation operation reply respond).
Proof.
  unfold readable, sync_operation. intros Hr.
  destruct (get_prop operation "type") as [type|]; [|discriminate Hr].
  intros w. unfold bind at 1. unfold lift at 1. cbv beta iota.
  destruct type as [| | | | |t|]; try (eexists _, _; reflexivity).
  destruct (String.eqb t "upload").
  - destruct (total_forceSyncToCloud respond w) as (r & w' & H).
    exists tt, w'. rewrite (bind_ok _ _ _ _ _ H). reflexivity.
  - destruct (String.eqb t "download"); [|eexists _, _; reflexivity].
    destruct (total_syncFromCloud reply respond w) as (r & w' & H).
    exists tt, w'. rewrite (bind_ok _ _ _ _ _ H). reflexivity.
Qed.

(** An operation that can be read is done, and does not come back to the
    queue. *)
Lemma executeSync_done operation reply respond p :
  readable operation ->
  syncQueue (executeSync operation reply respond p) = syncQueue p /\
  queueInProgress (executeSync operation reply respond p) = queueInProgress p /\
  world (executeSync operation reply respond p) =
  execute operation reply respond (world p).
Proof.
  intros Hr. unfold executeSync.
  destruct (total_sync_operation operation reply respond Hr (world p)) as ([] & w & H).
  rewrite H. split; [reflexivity|]. split; [reflexivity|].
  cbn [world with_world].
  unfold readable in Hr. unfold sync_operation, execute in *.
  destruct (get_prop operation "type") as [type|]; [|discriminate Hr].
  unfold bind at 1 in H. unfold lift at 1 in H. cbv beta iota in H.
  destruct type as [| | | | |t|]; try (injection H as <-; reflexivity).
  destruct (String.eqb t "upload").
  - destruct (total_forceSyncToCloud respond (world p)) as (r & w' & H').
    rewrite (bind_ok _ _ _ _ _ H') in H. injection H as <-.
    unfold run. rewrite H'. reflexivity.
  - destruct (String.eqb t "download"); [|injection H as <-; reflexivity].
    destruct (total_syncFromCloud reply respond (world p)) as (r & w' & H').
    rewrite (bind_ok _ _ _ _ _ H') in H. injection H as <-.
    unfold run. rewrite H'. reflexivity.
Qed.

(** One that cannot be read does. *)
Lemma executeSync_again operation reply respond p :
  ~ readable operation ->
  syncQueue (executeSync operation reply respond p) = syncQueue p ++ [operation].
Proof.
  unfold readable, executeSync, sync_operation. intros Hr.
  destruct (get_prop operation "type"); [destruct Hr; reflexivity|].
  reflexivity.
Qed.

Lemma drain_empties replies respond q :
  Forall readable q ->
  forall i p, syncQueue p = q ->
    exists p', drain (length q) i replies respond p = Some p' /\
               syncQueue p' = [] /\ queueInProgress p' = queueInProgress p /\
               world p' = executed i replies respond q (world p).
Proof.
  induction 1 as [|operation q Hr Hq IH]; intros i p Hp.
  - exists p. simpl. rewrite Hp. repeat split.
  - simpl. rewrite Hp.
    destruct (executeSync_done operation (replies i) respond (set_syncQueue q p) Hr)
      as (Hqueue & Hflag & Hworld).
    destruct (IH (S i) _ Hqueue) as (p' & Hrun & Hempty & Hflag' & Hworld').
    exists p'. split; [exact Hrun|]. split; [exact Hempty|].
    split; [rewrite Hflag', Hflag; reflexivity|].
    rewrite Hworld', Hworld. reflexivity.
Qed.

(** Uploads done one after the other each send the record. *)
Lemma executed_uploads replies respond u q :
  Forall asks_upload q ->
  forall i w,
    isAuthenticated (auth w) = true -> currentUser (auth w) = Some u ->
    syncInProgress (esm w) = false ->
    upserts (executed i replies respond q w) =
    upserts w ++ replicate (length q) (clock (env w), content_of w).
Proof.
  induction 1 as [|operation q Hop Hq IH]; intros i w Ha Hu Hbusy.
  - simpl. rewrite app_nil_r. reflexivity.
  - cbn [executed length replicate]. unfold execute at 1.
    unfold asks_upload in Hop. rewrite Hop. cbn [String.eqb Ascii.eqb Bool.eqb].
    destruct (forceSyncToCloud_run respond w u Ha Hu Hbusy)
      as (w' & Hrun & Hup & Hcontent & Hauth & Hclock & Hidle).
    unfold run. rewrite Hrun. cbn [snd].
    rewrite <- Hauth in Ha, Hu.
    rewrite (IH (S i) w' Ha Hu Hidle), Hup, Hclock, Hcontent, <- app_assoc.
    reflexivity.
Qed.

(** X9.  Coming back online sets [isOnline] and runs the queue to its
    end: when every queued operation has a type that can be read, each is
    done once, in the order of the queue (an upload for "upload", a
    download for "download", nothing for another type), none comes back
    whatever the service answers, the queue ends empty and the sync
    manager's flag is released.  A queue of uploads by a signed-in user
    sends the record once for each.  With the queue empty nothing but
    [isOnline] changes. *)
Theorem reconnect_empties_queue
    (p : Page) (replies : nat -> Result (option Row))
    (respond : ProgressData -> Result Row) :
  queueInProgress p = false -> Forall readable (syncQueue p) ->
  exists p',
    handleOnlineStatusChange true (length (syncQueue p)) replies respond p = Some p' /\
    syncQueue p' = [] /\ queueInProgress p' = false /\
    world p' = executed 0 replies respond (syncQueue p)
                 (with_sync (set_isOnline true) (world p)) /\
    (forall u,
       Forall asks_upload (syncQueue p) ->
       isAuthenticated (auth (world p)) = true ->
       currentUser (auth (world p)) = Some u ->
       syncInProgress (esm (world p)) = false ->
       upserts (world p') =
       upserts (world p)
         ++ replicate (length (syncQueue p))
              (clock (env (world p)), content_of (world p))).
Proof.
  intros Hflag Hq.
  assert (Hrun : exists p',
    handleOnlineStatusChange true (length (syncQueue p)) replies respond p = Some p' /\
    syncQueue p' = [] /\ queueInProgress p' = false /\
    world p' = executed 0 replies respond (syncQueue p)
                 (with_sync (set_isOnline true) (world p))).
  { unfold handleOnlineStatusChange, processSyncQueue.
    cbn [queueInProgress syncQueue with_world]. rewrite Hflag.
    destruct (syncQueue p) as [|operation q] eqn:Eq.
    - eexists. split; [reflexivity|]. simpl. rewrite Eq. repeat split; assumption.
    - cbn [orb length Nat.eqb].
      destruct (drain_empties replies respond (operation :: q) Hq 0
                  (set_queueInProgress true
                     (with_world (with_sync (set_isOnline true)) p)) Eq)
        as (p' & Hrun & Hempty & _ & Hworld).
      change (length (operation :: q)) with (S (length q)) in Hrun.
      rewrite Hrun. eexists. split; [reflexivity|]. simpl.
      split; [exact Hempty|]. split; [reflexivity | exact Hworld]. }
  destruct Hrun as (p' & Hrun & Hempty & Hreleased & Hworld).
  exists p'. split; [exact Hrun|]. split; [exact Hempty|].
  split; [exact Hreleased|]. split; [exact Hworld|].
  intros u Hup Ha Hu Hbusy. rewrite Hworld.
  exact (executed_uploads replies respond u (syncQueue p) Hup 0
           (with_sync (set_isOnline true) (world p)) Ha Hu Hbusy).
Qed.

Lemma reconnect_empties_queue_witness :
  let upload := VObj Plain [("type", VStr "upload")] in
  let p := {| world := signed_in (record "ON" [] 100) 1000;
              syncQueue := [upload; upload]; queueInProgress := false |} in
  exists p',
    handleOnlineStatusChange true 2 (fun _ => Ok None) (accept 2 1000) p = Some p' /\
    syncQueue p' = [] /\
    upserts (world p') = [(1000, progressData (record "ON" [] 100));
                          (1000, progressData (record "ON" [] 100))].
Proof.
  intros upload p.
  assert (Hq : Forall readable (syncQueue p))
    by (constructor; [reflexivity|]; constructor; [reflexivity|]; constructor).
  assert (Hup : Forall asks_upload (syncQueue p))
    by (constructor; [reflexivity|]; constructor; [reflexivity|]; constructor).
  destruct (reconnect_empties_queue p (fun _ => Ok None) (accept 2 1000) eq_refl Hq)
    as (p' & Hrun & Hempty & _ & _ & Hsent).
  exists p'. split; [exact Hrun|]. split; [exact Hempty|].
  exact (Hsent "user-1" Hup eq_refl eq_refl eq_refl).
Defined.

(** X10.  An operation whose type cannot be read ([null] or [undefined])
    is put back each time it is taken: with one in the queue the loop of
    [processSyncQueue] never ends. *)
Theorem unreadable_operation_is_requeued_forever
    (p : Page) (replies : nat -> Result (option Row))
    (respond : ProgressData -> Result Row) :
  Exists (fun operation => ~ readable operation) (syncQueue p) ->
  forall fuel i, drain fuel i replies respond p = None.
Proof.
  intros Hex fuel. revert p Hex. induction fuel as [|fuel IH]; intros p Hex i.
  - simpl. destruct (syncQueue p); [inversion Hex | reflexivity].
  - simpl. destruct (syncQueue p) as [|operation q] eqn:Eq; [inversion Hex|].
    apply IH.
    destruct (is_ok (get_prop operation "type")) eqn:Hr.
    + destruct (executeSync_done operation (replies i) respond (set_syncQueue q p) Hr)
        as [Hqueue _].
      rewrite Hqueue. simpl. inversion Hex as [? ? Hbad|? ? Hrest]; subst.
      * destruct Hbad. exact Hr.
      * exact Hrest.
    + assert (Hbad : ~ readable operation)
        by (unfold readable; rewrite Hr; discriminate).
      rewrite (executeSync_again operation (replies i) respond _ Hbad). simpl.
      apply Exists_app. right. constructor. exact Hbad.
Qed.

Lemma unreadable_operation_witness :
  let p := {| world := signed_in (record "ON" [] 100) 1000;
              syncQueue := [VNull]; queueInProgress := false |} in
  ~ readable VNull /\
  forall fuel, drain fuel 0 (fun _ => Ok None) (accept 2 1000) p = None.
Proof.
  intros p.
  assert (Hnull : ~ readable VNull) by (unfold readable; simpl; discriminate).
  split; [exact Hnull|]. intros fuel.
  apply (unreadable_operation_is_requeued_forever p (fun _ => Ok None) (accept 2 1000)).
  constructor. exact Hnull.
Defined.

(** ** Authentication events *)

Lemma total_syncFromCloud_start : total syncFromCloud_start.
Proof. unfold syncFromCloud_start, isUserAuthenticated. never_throws. Qed.

Lemma authenticate_run event user w :
  exists a, authenticate event user w = (Ok tt, with_auth (fun _ => a) w) /\
            (String.eqb event "SIGNED_IN" = false ->
             String.eqb event "SIGNED_OUT" = false -> a = auth w).
Proof.
  unfold authenticate.
  destruct (String.eqb event "SIGNED_IN").
  - eexists. split; [reflexivity | discriminate].
  - destruct (String.eqb event "SIGNED_OUT").
    + eexists. split; [reflexivity | discriminate].
    + exists (auth w). split; [|reflexivity].
      destruct w. reflexivity.
Qed.

(** X11.  Every authentication event that leaves a user signed in makes
    the sync manager present the migration dialog when the local record
    has data, and the state manager start a download: a sign-in, and just
    as well a refreshed token or any other event, which change nothing
    about who is signed in. *)
Theorem every_auth_event_presents_the_dialog
    (event : string) (user : option string) (p : Page) :
  let w1 := run (authenticate event user) (world p) in
  isAuthenticated (auth w1) = true ->
  hasProgressData (state_of (world p)) = Ok true ->
  (String.eqb event "SIGNED_IN" = false -> String.eqb event "SIGNED_OUT" = false ->
   auth w1 = auth (world p)) /\
  exists download p',
    auth_event event user p = (WaitChoice, download, p') /\
    dialogs (world p') = S (dialogs (world p)) /\
    forall u, currentUser (auth w1) = Some u ->
              download = Awaiting u /\
              requests (world p') = requests (world p) ++ [(clock (env (world p)), Fetch u)].
Proof.
  intros w1. unfold w1. clear w1.
  destruct (authenticate_run event user (world p)) as (a & Hrun & Hsame).
  set (w1 := with_auth (fun _ => a) (world p)).
  assert (Hp1 : with_world (run (authenticate event user)) p = with_world (fun _ => w1) p)
    by (unfold with_world, run; rewrite Hrun; reflexivity).
  unfold run at 1 2 3. rewrite Hrun. cbn [snd]. fold w1.
  intros Ha Hdata. split; [exact Hsame|].
  unfold auth_event. rewrite Hp1.
  unfold handleAuthChange_start. cbn [world with_world]. rewrite Ha.
  assert (Hstart : handleUserSignIn_start w1 = (Ok WaitChoice, with_env (emit Dialog) w1)).
  { unfold handleUserSignIn_start, try_catch.
    rewrite (bind_ok _ _ _ _ _ (get_state_run w1)).
    change (state (esm w1)) with (state_of (world p)). rewrite Hdata.
    reflexivity. }
  rewrite Hstart. cbn [with_world world].
  set (w2 := with_env (emit Dialog) w1).
  unfold handleAuthStateChange_start.
  destruct (total_syncFromCloud_start w2) as (st & w3 & Hst).
  rewrite Hst. exists st. eexists. split; [reflexivity|]. cbn [world].
  pose proof (onlooker_syncFromCloud_start is_dialog dialogs (fun _ => eq_refl) w2) as Pd.
  unfold run in Pd. rewrite Hst in Pd. simpl in Pd.
  cbn [world with_world].
  split; [rewrite Pd; apply (dialogs_emit w1)|].
  intros u Hu.
  rewrite (syncFromCloud_start_run w2 u Ha Hu) in Hst.
  injection Hst as <- <-. split; [reflexivity|].
  unfold requests. simpl. rewrite !filter_app. simpl.
  rewrite !filter_cons. simpl.
  destruct (decide (false = true)) as [Hf|_]; [discriminate Hf|].
  destruct (decide (true = true)) as [_|Hf]; [|destruct Hf; reflexivity].
  rewrite filter_nil, app_nil_r. reflexivity.
Qed.

Lemma every_auth_event_witness :
  let p := {| world := signed_in (record "ON" [] 100) 1000;
              syncQueue := []; queueInProgress := false |} in
  exists download p',
    auth_event "TOKEN_REFRESHED" None p = (WaitChoice, download, p') /\
    dialogs (world p') = 1%nat.
Proof.
  intros p.
  destruct (every_auth_event_presents_the_dialog "TOKEN_REFRESHED" None p
              eq_refl eq_refl) as (_ & download & p' & Hrun & Hd & _).
  exists download, p'. split; assumption.
Defined.

(** ** The cloud row and the dialog *)

Section UploadFlag.

Lemma busy_setItem k v : preserves upload_under_way (setItem k v).
Proof.
  intros w. unfold run, setItem, bind, lift.
  destruct (to_string v); [|reflexivity].
  destruct (mode (localStorage (env w))); reflexivity.
Qed.

Lemma busy_assign_meta k v : preserves upload_under_way (assign_meta k v).
Proof. unfold assign_meta, put_state, get_state. preserve. Qed.

Lemma busy_scheduleSyncToCloud d : preserves upload_under_way (scheduleSyncToCloud d).
Proof. intros w. unfold run. rewrite scheduleSyncToCloud_run. reflexivity. Qed.

Lemma busy_notifySyncListeners status message :
  preserves upload_under_way (notifySyncListeners status message).
Proof.
  intros w. unfold upload_under_way.
  rewrite (esm_notifySyncListeners status message w). reflexivity.
Qed.

#[local] Hint Resolve busy_setItem busy_assign_meta busy_scheduleSyncToCloud
  busy_notifySyncListeners : frame.

Lemma busy_persistLocal : preserves upload_under_way persistLocal.
Proof. unfold persistLocal, Date_now, get_state. preserve. Qed.

#[local] Hint Resolve busy_persistLocal : frame.

Lemma busy_syncFromCloud_row cloud respond :
  preserves upload_under_way (syncFromCloud_settle (Ok (Some cloud)) respond).
Proof.
  change (preserves upload_under_way
            (try_catch (syncFromCloud_fetched (Some cloud) respond)
                       (setSyncStatus "error" ;;; ret false))).
  unfold syncFromCloud_fetched, adopt_cloud, setSyncStatus,
    put_state, get_state, Date_now.
  preserve.
Qed.

End UploadFlag.

Lemma frame_syncFromCloud_row {T} loud (obs : World -> T) `{!Bystander loud obs}
    cloud respond :
  (forall w s, obs (with_esm (set_state s) w) = obs w) ->
  preserves obs (syncFromCloud_settle (Ok (Some cloud)) respond).
Proof.
  intros Hstate.
  change (preserves obs
            (try_catch (syncFromCloud_fetched (Some cloud) respond)
                       (setSyncStatus "error" ;;; ret false))).
  unfold syncFromCloud_fetched, adopt_cloud, put_state, get_state, Date_now.
  assert (Hput : forall s, preserves obs (modify (with_esm (set_state s))))
    by (intros s w; apply Hstate).
  preserve.
Qed.

(** X12.  At a sign-in both managers are called.  When the local record
    has data the sync manager presents the dialog, and meanwhile the state
    manager downloads.  If the cloud row arrives while the dialog is open,
    and it is newer than the local record or the local record has never
    synced, the state manager adopts it there and then; when the visitor
    then chooses to keep the local data, what is uploaded is the content
    of the cloud row, and the local content is gone. *)
Theorem cloud_row_adopted_before_the_choice
    (w : World) (u : string) (cloud : Row) (lm : Z) (sa : value)
    (reply : Result (option Row)) (respond : ProgressData -> Result Row) :
  isAuthenticated (auth w) = true -> currentUser (auth w) = Some u ->
  syncInProgress (esm w) = false ->
  hasProgressData (state_of w) = Ok true ->
  get_prop (_meta (state_of w)) "lastModified" = Ok (VNum lm) ->
  get_prop (_meta (state_of w)) "syncedAt" = Ok sa ->
  (lm <? row_updated_at cloud) || negb (truthy sa) = true ->
  let w1 := run handleUserSignIn_start w in
  let w2 := run syncFromCloud_start w1 in
  let w3 := run (handleAuthStateChange_settle (Ok (Some cloud)) respond) w2 in
  let w4 := run (handleUserSignIn_chosen "local" reply respond) w3 in
  dialogs w1 = S (dialogs w) /\
  state_of w3 = adopted cloud (clock (env w)) /\
  upserts w4 =
    upserts w ++ [(clock (env w), progressData (adopted cloud (clock (env w))))] /\
  content_of w4 = progressData (adopted cloud (clock (env w))).
Proof.
  intros Ha Hu Hbusy Hdata Hlm Hsa Hnewer w1 w2 w3 w4.
  assert (Hw1 : w1 = with_env (emit Dialog) w).
  { unfold w1, run, handleUserSignIn_start, try_catch.
    rewrite (bind_ok _ _ _ _ _ (get_state_run w)).
    change (state (esm w)) with (state_of w). rewrite Hdata. reflexivity. }
  assert (Hw2 : w2 = with_env (emit (Fetch u))
                       (with_esm (set_currentSyncStatus (Some "syncing")) w1)).
  { unfold w2, run. rewrite (syncFromCloud_start_run w1 u); [reflexivity| |];
      rewrite Hw1; assumption. }
  assert (Hd1 : dialogs w1 = S (dialogs w)) by (rewrite Hw1; apply dialogs_emit).
  assert (Hstate2 : state_of w2 = state_of w) by (rewrite Hw2, Hw1; reflexivity).
  assert (Hauth2 : auth w2 = auth w) by (rewrite Hw2, Hw1; reflexivity).
  assert (Hbusy2 : upload_under_way w2 = false) by (rewrite Hw2, Hw1; exact Hbusy).
  assert (Htime2 : time_of w2 = clock (env w)) by (rewrite Hw2, Hw1; reflexivity).
  assert (Hup2 : upserts w2 = upserts w).
  { rewrite Hw2, Hw1.
    rewrite (by_effect (Onlooker := upserts_onlooker)) by reflexivity.
    apply (by_effect (Onlooker := upserts_onlooker)). reflexivity. }
  clearbody w1 w2. clear Hw1 Hw2.
  rewrite <- Hstate2 in Hlm, Hsa.
  destruct (syncFromCloud_fetched_row w2 cloud respond lm sa Hlm Hsa)
    as (w3' & Hrun & Hstate3).
  rewrite Hnewer, Htime2 in Hstate3.
  pose proof (busy_syncFromCloud_row cloud respond w2) as Pb.
  pose proof (frame_syncFromCloud_row is_upsert upserts cloud respond
                (fun _ _ => eq_refl) w2) as Pu.
  pose proof (frame_syncFromCloud_row silent session_of cloud respond
                (fun _ _ => eq_refl) w2) as Ps.
  pose proof (frame_syncFromCloud_row silent time_of cloud respond
                (fun _ _ => eq_refl) w2) as Pt.
  unfold run in Pb, Pu, Ps, Pt. rewrite Hrun in Pb, Pu, Ps, Pt.
  cbn [snd] in Pb, Pu, Ps, Pt.
  assert (Hw3 : w3 = w3').
  { unfold w3, run, handleAuthStateChange_settle.
    rewrite (bind_ok _ _ _ _ _ Hrun). unfold upload_local_changes.
    rewrite (bind_ok _ _ _ _ _ (get_state_run w3')).
    unfold state_of in Hstate3. rewrite Hstate3. reflexivity. }
  clearbody w3. subst w3'.
  split; [assumption|]. split; [exact Hstate3|].
  unfold session_of in Ps. unfold time_of in Pt, Htime2. unfold upload_under_way in Pb.
  assert (Ha3 : isAuthenticated (auth w3) = true) by (rewrite Ps, Hauth2; exact Ha).
  assert (Hu3 : currentUser (auth w3) = Some u) by (rewrite Ps, Hauth2; exact Hu).
  assert (Hb3 : syncInProgress (esm w3) = false) by (rewrite Pb; exact Hbusy2).
  destruct (forceSyncToCloud_sends respond w3 u Ha3 Hu3 Hb3)
    as (r & w5 & Hforce & Hup5 & Hcontent5).
  assert (Hw4 : w4 = with_env (emit (Notification "success"
                                       "Local progress uploaded to cloud")) w5).
  { unfold w4, run, handleUserSignIn_chosen, uploadLocalData, try_catch. simpl.
    rewrite (bind_ok _ _ _ _ _ Hforce). reflexivity. }
  rewrite Hw4. split.
  - rewrite (by_effect (Onlooker := upserts_onlooker)) by reflexivity.
    rewrite Hup5, Pu, Hup2, Pt, Htime2. unfold content_of. 
    change (state (esm w3)) with (state_of w3). rewrite Hstate3. reflexivity.
  - change (content_of w5 = progressData (adopted cloud (clock (env w)))).
    rewrite Hcontent5. unfold content_of.
    change (state (esm w3)) with (state_of w3). rewrite Hstate3. reflexivity.
Qed.

Lemma cloud_row_adopted_witness :
  let s := {| province := VStr "ON"; industry := VStr "general"; hiring := VStr "no";
              revenue := VStr "gte30"; completed := VObj Plain [("a", VBool true)];
              _meta := meta_literal (VNum 900) (VNum 1) VNull (VBool true) |} in
  let w := signed_in s 1000 in
  let cloud := cloud_row "BC" [] 200 in
  let w3 := run (handleAuthStateChange_settle (Ok (Some cloud)) (accept 3 1000))
              (run syncFromCloud_start (run handleUserSignIn_start w)) in
  let w4 := run (handleUserSignIn_chosen "local" (Ok None) (accept 3 1000)) w3 in
  map snd (upserts w4) = [progressData (cloud_row_state cloud)].
Proof.
  intros s w cloud w3 w4.
  destruct (cloud_row_adopted_before_the_choice w "user-1" cloud 900 VNull
              (Ok None) (accept 3 1000) eq_refl eq_refl eq_refl eq_refl eq_refl
              eq_refl eq_refl) as (_ & _ & Hup & _).
  exact (f_equal (map snd) Hup).
Defined.

(** ** A download that fails *)

(** The status "error", reported while the sync manager is online and its
    own [handleSyncEvent] is in place, queues the next retry. *)
Lemma error_status_queues_retry w :
  syncListeners (esm w) = [SyncManagerListener] ->
  syncEventHandler (sync w) = ClassHandler ->
  isOnline (sync w) = true ->
  retryAttempts (sync w) < maxRetries (sync w) ->
  setSyncStatus "error" w =
  (Ok tt,
   with_env (set_timers
               (timers (env w) ++
                [{| timer_id := next_timer (env w);
                    due := clock (env w)
                           + retryDelay (sync w) * (retryAttempts (sync w) + 1);
                    callback := RetrySync |}])
               (next_timer (env w) + 1))
     (with_sync (set_retryAttempts (retryAttempts (sync w) + 1))
        (with_esm (set_currentSyncStatus (Some "error")) w))).
Proof.
  intros Hls Hclass Honline Hretry. unfold setSyncStatus.
  rewrite (bind_ok _ _ _ _ _ (modify_run _ w)).
  set (w' := with_esm (set_currentSyncStatus (Some "error")) w).
  assert (Hls' : syncListeners (esm w') = [SyncManagerListener]) by exact Hls.
  assert (Hclass' : syncEventHandler (sync w') = ClassHandler) by exact Hclass.
  assert (Honline' : isOnline (sync w') = true) by exact Honline.
  assert (Hretry' : retryAttempts (sync w') < maxRetries (sync w')) by exact Hretry.
  unfold notifySyncListeners.
  unfold bind at 1. unfold gets at 1. rewrite Hls'. simpl for_each.
  unfold call_listener, handleSyncEvent, try_catch.
  unfold bind at 1 2. unfold gets at 1. rewrite Hclass'.
  unfold bind at 1. unfold gets at 1.
  rewrite Honline'. simpl when.
  rewrite (queueRetrySync_run w' Hretry'). reflexivity.
Qed.

(** X13.  When the download of [syncFromCloud] fails, the record keeps its
    content and the answer is [false]; the status "error" makes the sync
    manager, while its own [handleSyncEvent] is in place (as it is for the
    download of the page's start-up), queue a retry, and what that retry
    does is an upload: when its timer fires, the local record is sent to
    the service, although it was a download that failed. *)
Theorem failed_download_is_retried_as_upload
    (w : World) (u : string) (respond respond' : ProgressData -> Result Row) :
  isAuthenticated (auth w) = true -> currentUser (auth w) = Some u ->
  syncInProgress (esm w) = false ->
  syncListeners (esm w) = [SyncManagerListener] ->
  syncEventHandler (sync w) = ClassHandler ->
  isOnline (sync w) = true ->
  retryAttempts (sync w) < maxRetries (sync w) ->
  0 <= retryDelay (sync w) * (retryAttempts (sync w) + 1) ->
  let w' := run (syncFromCloud Throw respond) w in
  answer (syncFromCloud Throw respond) w = Ok false /\
  content_of w' = content_of w /\
  upserts w' = upserts w /\
  exists t,
    timers (env w') = timers (env w) ++ [t] /\
    callback t = RetrySync /\
    due t = clock (env w) + retryDelay (sync w) * (retryAttempts (sync w) + 1) /\
    upserts (run (fire respond' t) w') = upserts w ++ [(due t, content_of w)].
Proof.
  intros Ha Hu Hbusy Hls Hclass Honline Hretry Hdelay w'.
  set (t := {| timer_id := next_timer (env w);
               due := clock (env w) + retryDelay (sync w) * (retryAttempts (sync w) + 1);
               callback := RetrySync |}).
  set (w1 := with_env (emit (Fetch u))
               (with_esm (set_currentSyncStatus (Some "syncing")) w)).
  set (w2 := with_env (set_timers (timers (env w) ++ [t]) (next_timer (env w) + 1))
               (with_sync (set_retryAttempts (retryAttempts (sync w) + 1))
                  (with_esm (set_currentSyncStatus (Some "error")) w1))).
  assert (Hrun : syncFromCloud Throw respond w = (Ok false, w2)).
  { unfold syncFromCloud.
    rewrite (bind_ok _ _ _ _ _ (syncFromCloud_start_run w u Ha Hu)). fold w1.
    unfold syncFromCloud_settle, try_catch.
    unfold bind at 1. unfold lift at 1. cbv beta iota.
    assert (Hstatus : setSyncStatus "error" w1 = (Ok tt, w2))
      by exact (error_status_queues_retry w1 Hls Hclass Honline Hretry).
    rewrite (bind_ok _ _ _ _ _ Hstatus). reflexivity. }
  unfold answer. unfold w', run. rewrite Hrun. cbn [fst snd].
  split; [reflexivity|]. split; [reflexivity|].
  assert (Hup2 : upserts w2 = upserts w).
  { unfold w2, w1.
    change (upserts (with_env (emit (Fetch u)) w) = upserts w).
    apply (by_effect (Onlooker := upserts_onlooker)). reflexivity. }
  split; [exact Hup2|].
  exists t. split; [reflexivity|]. split; [reflexivity|]. split; [reflexivity|].
  unfold run, fire. rewrite (bind_ok _ _ _ _ _ (modify_run _ w2)).
  fold (fired t w2). simpl run_callback.
  destruct (forceSyncToCloud_sends respond' (fired t w2) u Ha Hu Hbusy)
    as (r & w3 & Hforce & Hup3 & _).
  assert (Hclock : clock (env (fired t w2)) = due t).
  { simpl. lia. }
  rewrite Hclock in Hup3.
  change (upserts (fired t w2)) with (upserts w2) in Hup3. rewrite Hup2 in Hup3.
  assert (P : preserves upserts
                (s <- gets sync ;;
                 if r then modify (with_sync (set_retryAttempts 0))
                 else if maxRetries s <=? retryAttempts s then
                   showNotification "Sync failed after multiple attempts" "error" ;;;
                   modify (with_sync (set_retryAttempts 0))
                 else ret tt)) by preserve.
  specialize (P w3). unfold run in P.
  unfold try_catch, retry_sync. rewrite (bind_ok _ _ _ _ _ Hforce).
  match goal with
  | |- upserts (snd (let (r0, w0) := ?m w3 in _)) = _ =>
      change (m w3) with
        ((s <- gets sync ;;
          if r then modify (with_sync (set_retryAttempts 0))
          else if maxRetries s <=? retryAttempts s then
            showNotification "Sync failed after multiple attempts" "error" ;;;
            modify (with_sync (set_retryAttempts 0))
          else ret tt) w3);
      destruct ((s <- gets sync ;;
                 if r then modify (with_sync (set_retryAttempts 0))
                 else if maxRetries s <=? retryAttempts s then
                   showNotification "Sync failed after multiple attempts" "error" ;;;
                   modify (with_sync (set_retryAttempts 0))
                 else ret tt) w3) as [[[]|] w4]
  end; simpl in P |- *; rewrite P, Hup3; reflexivity.
Qed.

Lemma failed_download_witness :
  let w := signed_in (record "ON" [] 100) 1000 in
  let w' := run (syncFromCloud Throw unreachable) w in
  exists t,
    timers (env w') = [t] /\ due t = 6000 /\
    map snd (upserts (run (fire (accept 2 6000) t) w')) =
    [progressData (record "ON" [] 100)].
Proof.
  intros w w'.
  destruct (failed_download_is_retried_as_upload w "user-1" unreachable (accept 2 6000)
              eq_refl eq_refl eq_refl eq_refl eq_refl eq_refl eq_refl)
    as (_ & _ & _ & t & Ht & _ & Hdue & Hup).
  - discriminate.
  - exists t. split; [exact Ht|]. split; [exact Hdue|].
    exact (f_equal (map snd) Hup).
Defined.

(** ** JSON texts read back *)

Lemma chars_text l : chars (text l) = l.
Proof. apply String.list_ascii_of_string_of_list_ascii. Qed.

Lemma text_chars s : text (chars s) = s.
Proof. apply String.string_of_list_ascii_of_string. Qed.

Lemma chars_append a b : chars (a +:+ b) = chars a ++ chars b.
Proof. induction a as [|c a IH]; simpl; [reflexivity|]. f_equal. exact IH. Qed.

Lemma lex_quote_char c acc toks :
  fold_left lex_step (quote_char c) (Some (LStr acc, toks)) = Some (LStr (c :: acc), toks).
Proof.
  destruct c as [b0 b1 b2 b3 b4 b5 b6 b7].
  destruct b0, b1, b2, b3, b4, b5, b6, b7; reflexivity.
Qed.

Lemma lex_quoted_chars cs acc toks :
  fold_left lex_step (concat (map quote_char cs)) (Some (LStr acc, toks)) =
  Some (LStr (rev cs ++ acc), toks).
Proof.
  revert acc. induction cs as [|c cs IH]; intros acc; [reflexivity|].
  simpl concat. rewrite fold_left_app, lex_quote_char, IH.
  simpl rev. rewrite <- app_assoc. reflexivity.
Qed.

(** A quoted string is read back as the string. *)
Lemma lex_quote s rest toks :
  fold_left lex_step (chars (quote s) ++ rest) (Some (LIdle, toks)) =
  fold_left lex_step rest (Some (LIdle, TStr s :: toks)).
Proof.
  unfold quote. rewrite chars_text.
  change (dquote :: concat (map quote_char (chars s)) ++ [dquote])
    with ([dquote] ++ concat (map quote_char (chars s)) ++ [dquote]).
  rewrite <- !app_assoc, fold_left_app.
  change (fold_left lex_step [dquote] (Some (LIdle, toks))) with (Some (LStr [], toks)).
  rewrite fold_left_app, lex_quoted_chars, app_nil_r.
  simpl app. simpl fold_left at 1.
  change (lex_step (Some (LStr (rev (chars s)), toks)) dquote)
    with (Some (LIdle, TStr (text (rev (rev (chars s)))) :: toks)).
  rewrite rev_involutive, text_chars. reflexivity.
Qed.

Lemma lex_word_go cs acc toks :
  forallb wordchar cs = true ->
  fold_left lex_step cs (Some (LWord acc, toks)) = Some (LWord (rev cs ++ acc), toks).
Proof.
  revert acc. induction cs as [|c cs IH]; intros acc H; [reflexivity|].
  simpl in H. apply andb_true_iff in H as [Hc Hcs].
  cbn [fold_left]. unfold lex_step at 2. unfold wordchar in Hc.
  apply negb_true_iff in Hc. rewrite Hc, (IH _ Hcs).
  simpl rev. rewrite <- app_assoc. reflexivity.
Qed.

Lemma lex_word c cs toks :
  forallb wordchar (c :: cs) = true ->
  fold_left lex_step (c :: cs) (Some (LIdle, toks)) = Some (LWord (rev (c :: cs)), toks).
Proof.
  intros H. simpl in H. apply andb_true_iff in H as [Hc Hcs].
  cbn [fold_left]. unfold lex_step at 2, lex_idle. unfold wordchar in Hc.
  apply negb_true_iff, orb_false_iff in Hc as [Hc Hp].
  apply orb_false_iff in Hc as [Hs Hq]. rewrite Hs, Hq.
  destruct (punctuation c); [discriminate Hp|].
  rewrite (lex_word_go _ _ _ Hcs). reflexivity.
Qed.

(** Punctuation ends a word. *)
Lemma lex_word_end acc toks d t :
  punctuation d = Some t ->
  lex_step (Some (LWord acc, toks)) d =
  match word_token (rev acc) with
  | Some tok => Some (LIdle, t :: tok :: toks)
  | None => None
  end.
Proof.
  intros Hd. unfold lex_step. rewrite Hd. simpl bool_decide.
  rewrite !orb_true_r.
  destruct (word_token (rev acc)); [|reflexivity].
  unfold lex_idle. rewrite Hd.
  destruct d as [b0 b1 b2 b3 b4 b5 b6 b7].
  destruct b0, b1, b2, b3, b4, b5, b6, b7; try discriminate Hd; reflexivity.
Qed.

Lemma lex_idle_punctuation toks d t :
  punctuation d = Some t -> lex_step (Some (LIdle, toks)) d = Some (LIdle, t :: toks).
Proof.
  intros Hd. unfold lex_step, lex_idle. rewrite Hd.
  destruct d as [b0 b1 b2 b3 b4 b5 b6 b7].
  destruct b0, b1, b2, b3, b4, b5, b6, b7; try discriminate Hd; reflexivity.
Qed.

Lemma digit_wordchar c : is_digit c = true -> wordchar c = true.
Proof.
  destruct c as [b0 b1 b2 b3 b4 b5 b6 b7].
  destruct b0, b1, b2, b3, b4, b5, b6, b7; try discriminate; reflexivity.
Qed.

Lemma pretty_N_char_digit y :
  (y < 10)%N ->
  is_digit (pretty_N_char y) = true /\ digit_val (pretty_N_char y) = Z.of_N y /\
  (y <> 0%N -> pretty_N_char y <> "0"%char).
Proof.
  intros Hy.
  assert (y = 0 \/ y = 1 \/ y = 2 \/ y = 3 \/ y = 4 \/ y = 5 \/ y = 6 \/ y = 7
          \/ y = 8 \/ y = 9)%N as H by lia.
  repeat destruct H as [->|H]; try subst y;
    (split; [reflexivity|]; split; [reflexivity|]; intros H0; try discriminate;
     destruct H0; reflexivity).
Qed.

(** The decimal digits of a positive number: no leading zero, and their
    value is the number. *)
Lemma pretty_N_go_digits x :
  (0 < x)%N ->
  exists c ds,
    (forall s, chars (pretty_N_go x s) = (c :: ds) ++ chars s) /\
    is_digit c = true /\ c <> "0"%char /\ forallb is_digit ds = true /\
    forall a, fold_left (fun acc c => 10 * acc + digit_val c) (c :: ds) a =
              a * 10 ^ Z.of_nat (S (length ds)) + Z.of_N x.
Proof.
  induction (N.lt_wf_0 x) as [x _ IH]. intros Hx.
  destruct (pretty_N_char_digit (x `mod` 10)%N) as (Hd & Hv & Hz);
    [apply N.mod_lt; discriminate|].
  destruct (N.eq_0_gt_0_cases (x `div` 10)%N) as [Hsmall|Hbig].
  - exists (pretty_N_char (x `mod` 10)%N), [].
    assert (Hlt : (x < 10)%N) by (apply N.div_small_iff in Hsmall; [exact Hsmall | discriminate]).
    split; [|split; [exact Hd|]; split; [|split; [reflexivity|]]].
    + intros s. rewrite pretty_N_go_step by exact Hx. rewrite Hsmall.
      rewrite pretty_N_go_0. reflexivity.
    + apply Hz. rewrite N.mod_small by exact Hlt. lia.
    + intros a. simpl fold_left. rewrite Hv, N.mod_small by exact Hlt.
      change (10 ^ Z.of_nat (S (length (@nil ascii)))) with 10. lia.
  - destruct (IH (x `div` 10)%N) as (c & ds & Hchars & Hc & Hc0 & Hds & Hval);
      [apply N.div_lt; [exact Hx | reflexivity] | exact Hbig |].
    exists c, (ds ++ [pretty_N_char (x `mod` 10)%N]).
    split; [|split; [exact Hc|]; split; [exact Hc0|]; split].
    + intros s. rewrite pretty_N_go_step by exact Hx. rewrite Hchars.
      simpl. rewrite <- app_assoc. reflexivity.
    + rewrite forallb_app, Hds. simpl. rewrite Hd. reflexivity.
    + intros a. rewrite app_comm_cons, fold_left_app, Hval. simpl fold_left.
      rewrite Hv, length_app. simpl length.
      rewrite N2Z.inj_mod, N2Z.inj_div.
      replace (Z.of_nat (S (length ds + 1))) with (Z.succ (Z.of_nat (S (length ds)))) by lia.
      rewrite Z.pow_succ_r by lia.
      pose proof (Z.div_mod (Z.of_N x) 10 ltac:(lia)) as Hdm.
      change (Z.of_N 10) with 10. lia.
Qed.

Lemma span_digits ds : forallb is_digit ds = true -> span is_digit ds = (ds, []).
Proof.
  induction ds as [|c ds IH]; intros H; [reflexivity|].
  simpl in H. apply andb_true_iff in H as [Hc Hds].
  simpl. change (is_digit c) with (is_digit c). rewrite Hc, (IH Hds). reflexivity.
Qed.

Lemma word_token_digits c ds :
  is_digit c = true -> c <> "0"%char -> forallb is_digit ds = true ->
  word_token (c :: ds) = Some (TLit (VNum (digits_val (c :: ds)))).
Proof.
  intros Hc Hc0 Hds.
  assert (Hshape : json_number_shape (c :: ds) = true).
  { unfold json_number_shape.
    destruct c as [b0 b1 b2 b3 b4 b5 b6 b7].
    destruct b0, b1, b2, b3, b4, b5, b6, b7; try discriminate Hc;
      try (destruct Hc0; reflexivity);
      cbn [span]; rewrite Hc, (span_digits ds Hds); destruct ds; reflexivity. }
  assert (Hscan : scan_decimal (c :: ds) = Some (digits_val (c :: ds), 0)).
  { unfold scan_decimal.
    destruct c as [b0 b1 b2 b3 b4 b5 b6 b7].
    destruct b0, b1, b2, b3, b4, b5, b6, b7; try discriminate Hc;
      try (destruct Hc0; reflexivity);
      cbn [scan_sign span]; rewrite Hc, (span_digits ds Hds);
      cbn [is_nil andb length Z.of_nat Z.opp]; rewrite app_nil_r; reflexivity. }
  unfold word_token. rewrite Hshape, Hscan.
  assert (Hword : forall lit, (forall r, lit <> String c r) ->
                              String.eqb (text (c :: ds)) lit = false).
  { intros lit Hne. apply String.eqb_neq. intros Heq. apply (Hne (text ds)).
    rewrite <- Heq. reflexivity. }
  rewrite !Hword;
    try (intros r H; injection H as Hc' _; subst c; discriminate Hc).
  unfold number_value. simpl Z.leb. cbv iota. rewrite Z.mul_1_r. reflexivity.
Qed.

Lemma scalar_stringify v : scalar v = true -> JSON_stringify v = Some (stringified v).
Proof. destruct v; try discriminate; reflexivity. Qed.

(** A scalar is read back as its token. *)
Lemma lex_scalar v d t rest toks :
  scalar v = true -> punctuation d = Some t ->
  fold_left lex_step (chars (stringified v) ++ d :: rest) (Some (LIdle, toks)) =
  fold_left lex_step rest (Some (LIdle, t :: value_token v :: toks)).
Proof.
  intros Hv Hd.
  assert (Hword : forall c cs,
            chars (stringified v) = c :: cs -> forallb wordchar (c :: cs) = true ->
            word_token (c :: cs) = Some (value_token v) ->
            fold_left lex_step (chars (stringified v) ++ d :: rest) (Some (LIdle, toks)) =
            fold_left lex_step rest (Some (LIdle, t :: value_token v :: toks))).
  { intros c cs Hchars Hw Htok. rewrite Hchars, fold_left_app, (lex_word c cs toks Hw).
    cbn [fold_left]. rewrite (lex_word_end _ _ _ _ Hd), rev_involutive, Htok.
    reflexivity. }
  destruct v as [| |b|n| |s|]; try discriminate Hv.
  - apply (Hword "n"%char ["u"; "l"; "l"]%char); reflexivity.
  - destruct b.
    + apply (Hword "t"%char ["r"; "u"; "e"]%char); reflexivity.
    + apply (Hword "f"%char ["a"; "l"; "s"; "e"]%char); reflexivity.
  - destruct n as [|p|p]; [| |discriminate Hv].
    + apply (Hword "0"%char []); reflexivity.
    + destruct (pretty_N_go_digits (N.pos p) eq_refl)
        as (c & ds & Hchars & Hc & Hc0 & Hds & Hval).
      assert (Hp : chars (stringified (VNum (Z.pos p))) = c :: ds).
      { change (stringified (VNum (Z.pos p))) with (pretty_N_go (N.pos p) EmptyString).
        rewrite Hchars. apply app_nil_r. }
      apply (Hword c ds Hp).
      * simpl. rewrite (digit_wordchar c Hc). simpl.
        apply forallb_forall. intros x Hx. apply digit_wordchar.
        exact (proj1 (forallb_forall _ _) Hds x Hx).
      * rewrite (word_token_digits c ds Hc Hc0 Hds). unfold digits_val.
        rewrite Hval. simpl. reflexivity.
  - change (stringified (VStr s)) with (quote s).
    rewrite lex_quote. cbn [fold_left app].
    rewrite (lex_idle_punctuation _ _ _ Hd). reflexivity.
Qed.

Lemma lex_member k v d t rest toks :
  scalar v = true -> punctuation d = Some t ->
  fold_left lex_step (chars (member_text (k, v)) ++ d :: rest) (Some (LIdle, toks)) =
  fold_left lex_step rest (Some (LIdle, t :: value_token v :: TColon :: TStr k :: toks)).
Proof.
  intros Hv Hd. unfold member_text. cbn [fst snd].
  rewrite !chars_append, <- !app_assoc, lex_quote.
  change (chars ":") with [":"%char]. cbn [app fold_left].
  rewrite (lex_idle_punctuation _ ":"%char TColon eq_refl).
  apply lex_scalar; assumption.
Qed.

Lemma chars_join_go sep r s :
  chars (fold_left (fun acc x => acc +:+ sep +:+ x) r s) =
  chars s ++ concat (map (fun x => chars sep ++ chars x) r).
Proof.
  revert s. induction r as [|x r IH]; intros s; simpl; [symmetry; apply app_nil_r|].
  rewrite IH, !chars_append, <- !app_assoc. reflexivity.
Qed.

Lemma member_tokens_cons k v r :
  r <> [] ->
  member_tokens ((k, v) :: r) =
  TStr k :: TColon :: value_token v :: TComma :: member_tokens r.
Proof. destruct r; [contradiction | reflexivity]. Qed.

Lemma lex_members ps rest toks :
  flat ps = true -> ps <> [] ->
  fold_left lex_step
    (chars (join "," (map member_text ps)) ++ "}"%char :: rest) (Some (LIdle, toks)) =
  fold_left lex_step rest (Some (LIdle, TRBrace :: rev (member_tokens ps) ++ toks)).
Proof.
  intros Hflat Hne. destruct ps as [|[k v] r]; [contradiction|]. clear Hne.
  unfold join. cbn [map]. rewrite chars_join_go, <- app_assoc.
  change (fun x => chars "," ++ chars x) with (fun x => ","%char :: chars x).
  revert k v toks Hflat. induction r as [|[k' v'] r IH]; intros k v toks Hflat.
  - simpl in Hflat. rewrite andb_true_r in Hflat.
    cbn [map concat app].
    rewrite (lex_member k v "}"%char TRBrace rest toks Hflat eq_refl).
    reflexivity.
  - simpl in Hflat. apply andb_true_iff in Hflat as [Hv Hflat].
    cbn [map concat app]. rewrite <- app_assoc.
    rewrite (lex_member k v ","%char TComma _ toks Hv eq_refl).
    rewrite (IH k' v' _ Hflat).
    rewrite (member_tokens_cons k v ((k', v') :: r)) by discriminate.
    cbn [rev]. rewrite <- !app_assoc. reflexivity.
Qed.

Lemma stringified_flat ps :
  flat ps = true ->
  stringified (VObj Plain ps) = "{" +:+ join "," (map member_text ps) +:+ "}".
Proof.
  assert (Hmembers : forall ps, flat ps = true ->
            omap (fun kt : string * option string =>
                    match snd kt with
                    | Some t => Some (quote (fst kt) +:+ ":" +:+ t)
                    | None => None
                    end)
              ((fix go (l : props) : list (string * option string) :=
                  match l with
                  | [] => []
                  | (k', x) :: r => (k', JSON_stringify x) :: go r
                  end) ps) = map member_text ps).
  { clear ps. induction ps as [|[k v] r IH]; intros Hflat; [reflexivity|].
    simpl in Hflat. apply andb_true_iff in Hflat as [Hv Hflat].
    specialize (IH Hflat). simpl in IH |- *.
    rewrite (scalar_stringify v Hv). f_equal. exact IH. }
  intros Hflat. unfold stringified. cbn [JSON_stringify].
  rewrite (Hmembers ps Hflat). reflexivity.
Qed.

(** The text of a flat object as tokens. *)
Lemma lex_flat ps :
  flat ps = true ->
  lex (stringified (VObj Plain ps)) = Some (TLBrace :: member_tokens ps ++ [TRBrace]).
Proof.
  intros Hflat. rewrite (stringified_flat ps Hflat). unfold lex.
  rewrite !chars_append. change (chars "{") with ["{"%char].
  change (chars "}") with ["}"%char]. cbn [app fold_left].
  rewrite (lex_idle_punctuation [] "{"%char TLBrace eq_refl).
  destruct ps as [|m r].
  - reflexivity.
  - rewrite (lex_members (m :: r) [] [TLBrace] Hflat) by discriminate.
    cbn [fold_left]. change (rev (TRBrace :: ?l)) with (rev l ++ [TRBrace]).
    rewrite rev_app_distr, rev_involutive. reflexivity.
Qed.

Lemma open_scalar v st : open_value (value_token v) st = push_value v st.
Proof. destruct v; reflexivity. Qed.

Lemma pda_members ps acc st rest e :
  ps <> [] -> e = EKeyOrClose \/ e = EKey ->
  fold_left pda_step (member_tokens ps ++ rest)
    (Some {| stack := FObj acc None :: st; expecting := e; result := None |}) =
  fold_left pda_step rest
    (Some {| stack := FObj (assign acc ps) None :: st; expecting := ECommaOrClose;
             result := None |}).
Proof.
  intros Hne. destruct ps as [|[k v] r]; [contradiction|]. clear Hne.
  revert k v acc e. induction r as [|[k' v'] r IH]; intros k v acc e He.
  - cbn [member_tokens app fold_left].
    destruct He as [->| ->]; cbn [pda_step expecting stack set_key];
      rewrite open_scalar; reflexivity.
  - rewrite (member_tokens_cons k v ((k', v') :: r)) by discriminate.
    cbn [app fold_left].
    assert (Hstep : pda_step (pda_step (pda_step (pda_step
              (Some {| stack := FObj acc None :: st; expecting := e; result := None |})
              (TStr k)) TColon) (value_token v)) TComma =
            Some {| stack := FObj (own_set k v acc) None :: st; expecting := EKey;
                    result := None |}).
    { destruct He as [->| ->]; cbn [pda_step expecting stack set_key];
        rewrite open_scalar; reflexivity. }
    rewrite Hstep. rewrite (IH k' v' _ EKey) by (right; reflexivity).
    reflexivity.
Qed.

(** [JSON.parse] reads back what [JSON.stringify] writes for an object of
    scalars ([null], booleans, strings, natural numbers), the keys in the
    order an object keeps them. *)
Lemma JSON_parse_stringify_flat (ps : props) :
  flat ps = true ->
  JSON_parse (stringified (VObj Plain ps)) = Ok (VObj Plain (assign [] ps)).
Proof.
  intros Hflat. unfold JSON_parse. rewrite (lex_flat ps Hflat).
  cbn [fold_left pda_step expecting stack open_value].
  destruct ps as [|m r]; [reflexivity|].
  rewrite (pda_members (m :: r) [] [] [TRBrace] EKeyOrClose) by (discriminate || auto).
  reflexivity.
Qed.

(** ** What is stored and what is loaded *)

Lemma item_or_some s fallback : s <> EmptyString -> item_or (Some s) fallback = s.
Proof.
  intros Hs. unfold item_or. destruct (String.eqb_spec s EmptyString); [contradiction|].
  reflexivity.
Qed.

Lemma stringified_object_nonempty ps :
  flat ps = true -> stringified (VObj Plain ps) <> EmptyString.
Proof. intros Hflat. rewrite (stringified_flat ps Hflat). discriminate. Qed.

(** [loadLocalState] when both texts parse. *)
Lemma loadLocalState_run w c m :
  mode (localStorage (env w)) <> Denied ->
  JSON_parse (completed_text w) = Ok c ->
  JSON_parse (meta_text w) = Ok m ->
  loadLocalState w =
  (Ok {| province := VStr (item_or (items (localStorage (env w)) !! "province") EmptyString);
         industry := VStr (item_or (items (localStorage (env w)) !! "industry") "general");
         hiring := VStr (item_or (items (localStorage (env w)) !! "hiring") "no");
         revenue := VStr (item_or (items (localStorage (env w)) !! "revenue") "gte30");
         completed := c; _meta := m |}, w).
Proof.
  unfold loadLocalState, completed_text, meta_text.
  unfold bind, try_catch, getItem, lift, ret. rewrite loadDefaultState_run.
  intros Hmode Hc Hm.
  destruct (mode (localStorage (env w))) eqn:Emode; try (destruct Hmode; reflexivity);
    repeat (progress (cbv beta iota; rewrite ?Emode));
    rewrite Hc; repeat (progress (cbv beta iota; rewrite ?Emode));
    rewrite Hm; reflexivity.
Qed.

(** [persistLocal] on a record of strings, with the storage it leaves. *)
Lemma persistLocal_stores w p i h r :
  mode (localStorage (env w)) = Usable ->
  province (state (esm w)) = VStr p -> industry (state (esm w)) = VStr i ->
  hiring (state (esm w)) = VStr h -> revenue (state (esm w)) = VStr r ->
  is_object (_meta (state (esm w))) = true ->
  let s' := touch (clock (env w)) (state (esm w)) in
  persistLocal w =
  (Ok tt,
   persisted {| items := stored p i h r (stringified (completed s'))
                           (stringified (_meta s')) (items (localStorage (env w)));
                mode := Usable |} w).
Proof.
  intros Hmode Hp Hi Hh Hr Hm s'. unfold s'. clear s'.
  destruct w as [[s busy ls lst pc tmo css] sy au [[it md] clk ts nt tr]].
  destruct s as [p0 i0 h0 r0 c m]. simpl in *. subst md p0 i0 h0 r0.
  destruct m as [| | | | | |k ps]; try discriminate Hm.
  unfold persistLocal, try_catch, persisted, touch, stored.
  rewrite (bind_ok _ _ _ _ _ (Date_now_run _)).
  erewrite (bind_ok (assign_meta _ _)) by (apply assign_meta_object; reflexivity).
  erewrite (bind_ok (assign_meta _ _)) by (apply assign_meta_object; reflexivity).
  rewrite (bind_ok _ _ _ _ _ (get_state_run _)).
  repeat (erewrite (bind_ok (setItem _ _)) by (apply setItem_run; reflexivity)).
  rewrite (bind_ok _ _ _ _ _ (modify_run _ _)).
  rewrite scheduleSyncToCloud_run. reflexivity.
Qed.

Lemma stored_lookup p i h r c m it :
  stored p i h r c m it !! "province" = Some p /\
  stored p i h r c m it !! "industry" = Some i /\
  stored p i h r c m it !! "hiring" = Some h /\
  stored p i h r c m it !! "revenue" = Some r /\
  stored p i h r c m it !! "completed" = Some c /\
  stored p i h r c m it !! "_state_meta" = Some m.
Proof.
  unfold stored.
  repeat split;
    repeat (rewrite lookup_insert_ne by discriminate); apply lookup_insert_eq.
Qed.

(** The texts [persistLocal] stores for a record of the data model are
    read back by [loadLocalState] as the record. *)
Lemma load_stored w p i h r c lm ver sa hc it :
  mode (localStorage (env w)) = Usable ->
  items (localStorage (env w)) =
    stored p i h r (stringified (VObj Plain c))
      (stringified (meta_literal lm ver sa hc)) it ->
  i <> EmptyString -> h <> EmptyString -> r <> EmptyString ->
  flat c = true -> well_ordered c ->
  flat [("lastModified", lm); ("version", ver); ("syncedAt", sa);
        ("hasLocalChanges", hc)] = true ->
  loadLocalState w =
  (Ok {| province := VStr p; industry := VStr i; hiring := VStr h; revenue := VStr r;
         completed := VObj Plain c; _meta := meta_literal lm ver sa hc |}, w).
Proof.
  intros Hmode Hitems Hi Hh Hr Hc Hord Hmeta.
  destruct (stored_lookup p i h r (stringified (VObj Plain c))
              (stringified (meta_literal lm ver sa hc)) it)
    as (Lp & Li & Lh & Lr & Lc & Lm).
  rewrite <- Hitems in Lp, Li, Lh, Lr, Lc, Lm.
  rewrite (loadLocalState_run w (VObj Plain c) (meta_literal lm ver sa hc)).
  - rewrite Lp, Li, Lh, Lr.
    rewrite (item_or_some i), (item_or_some h), (item_or_some r) by assumption.
    do 3 f_equal. unfold item_or. destruct (String.eqb p EmptyString) eqn:Ep; [|reflexivity].
    apply String.eqb_eq in Ep. f_equal. symmetry. exact Ep.
  - rewrite Hmode. discriminate.
  - unfold completed_text. rewrite Lc, item_or_some
      by (apply stringified_object_nonempty; exact Hc).
    rewrite (JSON_parse_stringify_flat c Hc). f_equal. f_equal. exact Hord.
  - unfold meta_text. rewrite Lm, item_or_some
      by (apply stringified_object_nonempty; exact Hmeta).
    unfold meta_literal. rewrite (JSON_parse_stringify_flat _ Hmeta). reflexivity.
Qed.

(** X14.  The record that [persistLocal] has stored is the record that
    [loadLocalState] loads: for a record of the data model (string
    selections, none of industry, hiring and revenue empty; a completion
    map whose values are booleans, or other scalars, its keys in the order
    an object keeps them; metadata whose version and [syncedAt] are
    scalars) the loaded record is the one in memory, the stamp of
    [persistLocal] included. *)
Theorem persisted_record_loads_back
    (w : World) (p i h r : string) (c : props) (lm ver sa hc : value) :
  mode (localStorage (env w)) = Usable ->
  state_of w = {| province := VStr p; industry := VStr i; hiring := VStr h;
                  revenue := VStr r; completed := VObj Plain c;
                  _meta := meta_literal lm ver sa hc |} ->
  i <> EmptyString -> h <> EmptyString -> r <> EmptyString ->
  flat c = true -> well_ordered c ->
  scalar ver = true -> scalar sa = true -> 0 <= clock (env w) ->
  let w' := run persistLocal w in
  loadLocalState w' = (Ok (state_of w'), w').
Proof.
  intros Hmode Hs Hi Hh Hr Hc Hord Hver Hsa Hclock w'.
  unfold state_of in Hs.
  assert (Hrun := persistLocal_stores w p i h r Hmode).
  rewrite Hs in Hrun. specialize (Hrun eq_refl eq_refl eq_refl eq_refl eq_refl).
  cbv zeta in Hrun.
  assert (Hw' : w' = persisted
            {| items := stored p i h r (stringified (VObj Plain c))
                 (stringified (meta_literal (VNum (clock (env w))) ver sa (VBool true)))
                 (items (localStorage (env w)));
               mode := Usable |} w).
  { unfold w', run. rewrite Hrun. reflexivity. }
  clearbody w'. subst w'.
  rewrite (load_stored _ p i h r c (VNum (clock (env w))) ver sa (VBool true)
             (items (localStorage (env w)))); try assumption; try reflexivity.
  - unfold state_of, persisted. simpl. rewrite Hs. reflexivity.
  - simpl. rewrite Hver, Hsa. apply Z.leb_le in Hclock. rewrite Hclock. reflexivity.
Qed.

Lemma persisted_record_witness :
  let w := signed_in (record "ON" [("structure", VBool true)] 100) 1000 in
  let w' := run persistLocal w in
  loadLocalState w' = (Ok (state_of w'), w').
Proof.
  intros w.
  assert (Hclock : 0 <= clock (env w)) by (intros H; discriminate H).
  exact (persisted_record_loads_back w "ON" "general" "no" "gte30"
           [("structure", VBool true)] (VNum 100) (VNum 1) (VNum 100) (VBool true)
           eq_refl eq_refl ltac:(discriminate) ltac:(discriminate) ltac:(discriminate)
           eq_refl eq_refl eq_refl eq_refl Hclock).
Defined.

Lemma storage_notifySyncListeners status message :
  preserves storage_of (notifySyncListeners status message).
Proof.
  unfold notifySyncListeners. apply preserves_bind; [apply preserves_gets|].
  intros ls. apply preserves_for_each. intros []. apply preserves_try_catch;
    [|apply preserves_ret].
  unfold call_listener, handleSyncEvent, handleSyncStatusChange, when, queueRetrySync.
  apply preserves_bind; [apply preserves_gets|]. intros [|]; [|apply preserves_ret].
  apply preserves_bind; [apply preserves_gets|]. intros online.
  destruct (String.eqb status "error" && online); [|apply preserves_ret].
  apply preserves_bind; [apply preserves_gets|]. intros sy.
  destruct (retryAttempts sy <? maxRetries sy); [|apply preserves_ret].
  intros w. reflexivity.
Qed.

Lemma storage_syncToCloud_start : preserves storage_of syncToCloud_start.
Proof.
  pose proof storage_notifySyncListeners as Hn.
  unfold syncToCloud_start, syncToCloud_request, syncToCloud_catch,
    syncToCloud_finally, setSyncStatus, isUserAuthenticated, getCurrentUser,
    get_state, user_id, effect.
  preserve.
Qed.

(** Without the six items, [loadLocalState] answers the default record. *)
Lemma load_without_items w :
  mode (localStorage (env w)) <> Denied ->
  (forall k, k ∈ storage_keys -> items (localStorage (env w)) !! k = None) ->
  0 <= clock (env w) ->
  loadLocalState w = (Ok (default_state (clock (env w))), w).
Proof.
  intros Hmode Hnone Hclock.
  assert (Hk : forall k, k ∈ storage_keys -> items (localStorage (env w)) !! k = None)
    by exact Hnone.
  assert (Lp := Hk "province" ltac:(unfold storage_keys; set_solver)).
  assert (Li := Hk "industry" ltac:(unfold storage_keys; set_solver)).
  assert (Lh := Hk "hiring" ltac:(unfold storage_keys; set_solver)).
  assert (Lr := Hk "revenue" ltac:(unfold storage_keys; set_solver)).
  assert (Lc := Hk "completed" ltac:(unfold storage_keys; set_solver)).
  assert (Lm := Hk "_state_meta" ltac:(unfold storage_keys; set_solver)).
  rewrite (loadLocalState_run w (VObj Plain [])
             (meta_literal (VNum (clock (env w))) (VNum 1) VNull (VBool false))).
  - rewrite Lp, Li, Lh, Lr. reflexivity.
  - exact Hmode.
  - unfold completed_text. rewrite Lc. reflexivity.
  - unfold meta_text. rewrite Lm. unfold item_or, default_state, _meta, meta_literal.
    rewrite JSON_parse_stringify_flat; [reflexivity|].
    simpl. apply Z.leb_le in Hclock. rewrite Hclock. reflexivity.
Qed.

(** X15.  After [reset], whoever is signed in, the stored items are gone
    and a reload answers the default record, the one [reset] has put in
    memory. *)
Theorem reset_then_load_gives_defaults (w : World) :
  mode (localStorage (env w)) <> Denied -> 0 <= clock (env w) ->
  let w' := run reset w in
  state_of w' = default_state (clock (env w)) /\
  loadLocalState w' = (Ok (default_state (clock (env w))), w').
Proof.
  intros Hmode Hclock w'.
  set (w1 := with_esm (set_state (default_state (clock (env w)))) w).
  pose proof (clear_storage_run w1 Hmode) as Hclear.
  set (w2 := with_env (set_localStorage
               {| items := foldr delete (items (localStorage (env w1)))
                             (reverse storage_keys);
                  mode := mode (localStorage (env w1)) |}) w1) in *.
  assert (Hrun : reset w =
                 (a <- isUserAuthenticated ;;
                  if a then _ <- syncToCloud_start ;; ret tt else ret tt) w2).
  { unfold reset. rewrite (bind_ok _ _ _ _ _ (loadDefaultState_run w)).
    unfold put_state. rewrite (bind_ok _ _ _ _ _ (modify_run _ w)). fold w1.
    unfold bind at 1. unfold try_catch. rewrite Hclear. reflexivity. }
  assert (Hw' : storage_of w' = storage_of w2 /\ time_of w' = time_of w2 /\
                state_of w' = state_of w2).
  { unfold w', run. rewrite Hrun.
    pose proof storage_syncToCloud_start as P1.
    assert (P3 : preserves state_of syncToCloud_start).
    { unfold syncToCloud_start, syncToCloud_request, syncToCloud_catch,
        syncToCloud_finally, isUserAuthenticated, getCurrentUser, get_state, user_id.
      preserve. }
    assert (Q1 : preserves storage_of
                   (a <- isUserAuthenticated ;;
                    if a then _ <- syncToCloud_start ;; ret tt else ret tt))
      by (unfold isUserAuthenticated; preserve).
    assert (Q2 : preserves time_of
                   (a <- isUserAuthenticated ;;
                    if a then _ <- syncToCloud_start ;; ret tt else ret tt))
      by (unfold isUserAuthenticated; preserve).
    assert (Q3 : preserves state_of
                   (a <- isUserAuthenticated ;;
                    if a then _ <- syncToCloud_start ;; ret tt else ret tt))
      by (unfold isUserAuthenticated; preserve).
    split; [apply Q1|]. split; [apply Q2 | apply Q3]. }
  destruct Hw' as (Hstorage & Htime & Hstate).
  clearbody w'. split; [rewrite Hstate; reflexivity|].
  unfold storage_of in Hstorage. unfold time_of in Htime.
  replace (clock (env w)) with (clock (env w')) by (rewrite Htime; reflexivity).
  apply load_without_items.
  - rewrite Hstorage. exact Hmode.
  - intros k Hk. rewrite Hstorage. simpl.
    unfold storage_keys in *. simpl.
    repeat (apply elem_of_cons in Hk as [->|Hk]);
      [..|apply elem_of_nil in Hk; destruct Hk];
      repeat (rewrite lookup_delete_ne by discriminate); apply lookup_delete_eq.
  - rewrite Htime. exact Hclock.
Qed.

Lemma reset_then_load_witness :
  let w := signed_in (record "ON" [("structure", VBool true)] 100) 1000 in
  let w' := run reset w in
  state_of w' = default_state (clock (env w)) /\
  loadLocalState w' = (Ok (default_state (clock (env w))), w').
Proof.
  intros w.
  assert (Hmode : mode (localStorage (env w)) <> Denied) by discriminate.
  assert (Hclock : 0 <= clock (env w)) by (intros H; discriminate H).
  exact (reset_then_load_gives_defaults w Hmode Hclock).
Defined.

(** X16.  After an upload that the service accepted, memory and storage
    disagree about the record: in memory [hasLocalChanges] is [false],
    while the stored metadata, written by [persistLocal] before the flag
    was reset, says [true]; a reload finds the same content with
    [hasLocalChanges] set. *)
Theorem uploaded_record_loads_as_changed
    (w : World) (row : Row) (p i h r : string) (c : props) (meta : value) :
  mode (localStorage (env w)) = Usable ->
  state_of w = {| province := VStr p; industry := VStr i; hiring := VStr h;
                  revenue := VStr r; completed := VObj Plain c; _meta := meta |} ->
  i <> EmptyString -> h <> EmptyString -> r <> EmptyString ->
  flat c = true -> well_ordered c ->
  scalar (row_version row) = true -> 0 <= clock (env w) ->
  let w' := run (syncToCloud_settle (Ok row)) w in
  hasLocalChanges w' = Ok (VBool false) /\
  exists s,
    loadLocalState w' = (Ok s, w') /\
    get_prop (_meta s) "hasLocalChanges" = Ok (VBool true) /\
    progressData s = content_of w'.
Proof.
  intros Hmode Hs Hi Hh Hr Hc Hord Hver Hclock w'.
  unfold state_of in Hs.
  destruct (syncToCloud_saved_run row w) as (w2 & m & Hp & Hm & Hsaved).
  match type of Hp with persistLocal ?w0 = _ => remember w0 as w1 eqn:Ew1 end.
  assert (Hs1 : state (esm w1) =
                {| province := VStr p; industry := VStr i; hiring := VStr h;
                   revenue := VStr r; completed := VObj Plain c;
                   _meta := meta_literal (VNum (row_updated_at row)) (row_version row)
                              (VNum (clock (env w))) (VBool false) |})
    by (rewrite Ew1; simpl; rewrite Hs; reflexivity).
  assert (Henv1 : env w1 = env w) by (rewrite Ew1; reflexivity).
  assert (Hmode1 : mode (localStorage (env w1)) = Usable) by (rewrite Henv1; exact Hmode).
  assert (Hstores := persistLocal_stores w1 p i h r Hmode1
                       (f_equal province Hs1) (f_equal industry Hs1)
                       (f_equal hiring Hs1) (f_equal revenue Hs1)
                       (eq_trans (f_equal (fun s => is_object (_meta s)) Hs1) eq_refl)).
  cbv zeta in Hstores. rewrite Hs1, Henv1 in Hstores.
  change (touch (clock (env w))
            {| province := VStr p; industry := VStr i; hiring := VStr h;
               revenue := VStr r; completed := VObj Plain c;
               _meta := meta_literal (VNum (row_updated_at row)) (row_version row)
                          (VNum (clock (env w))) (VBool false) |})
    with {| province := VStr p; industry := VStr i; hiring := VStr h;
            revenue := VStr r; completed := VObj Plain c;
            _meta := meta_literal (VNum (clock (env w))) (row_version row)
                       (VNum (clock (env w))) (VBool true) |} in Hstores.
  cbn [completed _meta] in Hstores.
  rewrite Hstores in Hp. injection Hp as Hw2.
  assert (Hw' : w' = with_esm (set_syncInProgress false) (snd (syncToCloud_saved row w)))
    by (unfold w', run; rewrite syncToCloud_settle_saved; reflexivity).
  rewrite Hsaved in Hw'. cbn [snd] in Hw'. clearbody w'.
  assert (Hstate2 : state (esm w2) =
                    {| province := VStr p; industry := VStr i; hiring := VStr h;
                       revenue := VStr r; completed := VObj Plain c;
                       _meta := meta_literal (VNum (clock (env w))) (row_version row)
                                  (VNum (clock (env w))) (VBool true) |}).
  { rewrite <- Hw2. unfold persisted. simpl. rewrite Hs1.
    rewrite (f_equal clock Henv1). reflexivity. }
  assert (Hm' : m = [("lastModified", VNum (clock (env w))); ("version", row_version row);
                     ("syncedAt", VNum (clock (env w))); ("hasLocalChanges", VBool true)]).
  { rewrite Hstate2 in Hm. injection Hm as <-. reflexivity. }
  split.
  - rewrite Hw'. unfold hasLocalChanges. cbn -[own_get own_set].
    rewrite own_get_set. reflexivity.
  - eexists. split; [|split].
    + apply (load_stored w' p i h r c (VNum (clock (env w))) (row_version row)
               (VNum (clock (env w))) (VBool true) (items (localStorage (env w))));
        try assumption.
      * rewrite Hw', <- Hw2. reflexivity.
      * rewrite Hw', <- Hw2. unfold persisted. cbn [env with_env with_esm scheduled
          localStorage set_localStorage set_timers items]. rewrite ?Henv1. reflexivity.
      * simpl. rewrite Hver. apply Z.leb_le in Hclock. rewrite Hclock. reflexivity.
    + reflexivity.
    + rewrite Hw'. unfold content_of. cbn [esm with_esm state set_state
        set_syncInProgress set_currentSyncStatus set_pendingChanges set_lastSyncTime].
      rewrite Hstate2. reflexivity.
Qed.

Lemma uploaded_record_witness :
  let w := signed_in (record "ON" [("structure", VBool true)] 100) 1000 in
  let w' := run (syncToCloud_settle (accept 2 1000 (content_of w))) w in
  hasLocalChanges w' = Ok (VBool false) /\
  exists s,
    loadLocalState w' = (Ok s, w') /\
    get_prop (_meta s) "hasLocalChanges" = Ok (VBool true) /\
    progressData s = content_of w'.
Proof.
  intros w.
  assert (Hclock : 0 <= clock (env w)) by (intros H; discriminate H).
  exact (uploaded_record_loads_as_changed w
           {| row_province := VStr "ON"; row_industry := VStr "general";
              row_hiring := VStr "no"; row_revenue := VStr "gte30";
              row_completed := VObj Plain [("structure", VBool true)];
              row_version := VNum 2; row_updated_at := 1000 |}
           "ON" "general" "no" "gte30" [("structure", VBool true)]
           (meta_literal (VNum 100) (VNum 1) (VNum 100) (VBool true))
           eq_refl eq_refl ltac:(discriminate) ltac:(discriminate) ltac:(discriminate)
           eq_refl eq_refl eq_refl Hclock).
Defined.

(** ** Signing in when the cloud holds no row *)

(** X17.  A sign-in that finds no row in the cloud uploads the local record
    when [hasProgressData] holds of it, and not otherwise.  Then the record
    is uploaded if it is still marked as changed: that is the only upload
    of a record without progress data, and a second, identical request
    right after a first one that the service refused.  The content of the
    record stays as it was. *)
Theorem sign_in_without_cloud_row
    (w : World) (u : string) (respond : ProgressData -> Result Row)
    (has : bool) (dirty : value) :
  isAuthenticated (auth w) = true -> currentUser (auth w) = Some u ->
  syncInProgress (esm w) = false ->
  hasProgressData (state_of w) = Ok has ->
  hasLocalChanges w = Ok dirty ->
  let w' := run (handleAuthStateChange true (Ok None) respond) w in
  let sent := (clock (env w), content_of w) in
  let accepted := is_ok (respond (content_of w)) in
  upserts w' = upserts w
                 ++ (if has then [sent] else [])
                 ++ (if truthy dirty && negb (has && accepted) then [sent] else []) /\
  content_of w' = content_of w.
Proof.
  intros Ha Hu Hbusy Hhas Hdirty w' sent accepted.
  set (w1 := with_env (emit (Fetch u))
               (with_esm (set_currentSyncStatus (Some "syncing")) w)).
  assert (Hup1 : upserts w1 = upserts w).
  { unfold upserts, w1. simpl. rewrite omap_app. apply app_nil_r. }
  (* the download, up to the second upload *)
  assert (Hdown : exists w3,
    syncFromCloud (Ok None) respond w = (Ok true, w3) /\
    upserts w3 = upserts w ++ (if has then [sent] else []) /\
    content_of w3 = content_of w /\ auth w3 = auth w /\
    clock (env w3) = clock (env w) /\ syncInProgress (esm w3) = false /\
    hasLocalChanges w3 =
      (if has && accepted then Ok (VBool false) else Ok dirty)).
  { unfold syncFromCloud.
    rewrite (bind_ok _ _ _ _ _ (syncFromCloud_start_run w u Ha Hu)). fold w1.
    unfold syncFromCloud_settle, try_catch.
    unfold bind at 1. unfold lift at 1. unfold syncFromCloud_fetched.
    unfold bind at 1 2. unfold get_state at 1, gets at 1.
    change (state (esm w1)) with (state_of w). rewrite Hhas.
    unfold bind at 1, lift at 1.
    destruct has.
    - destruct (syncToCloud_run respond w1 u Ha Hu Hbusy)
        as (w2 & Hrun & Hup & Hc & Hauth & Hclock & Hb & Hl).
      rewrite (bind_ok _ _ _ _ _ Hrun). unfold ret at 1.
      unfold bind at 1. unfold Date_now at 1, gets at 1.
      unfold bind at 1. unfold modify at 1.
      rewrite (bind_ok _ _ _ _ _ (setSyncStatus_quiet "synced" _ eq_refl)).
      eexists. split; [reflexivity|].
      split; [exact (eq_trans Hup (f_equal (fun l => l ++ [sent]) Hup1))|].
      split; [exact Hc|]. split; [exact Hauth|]. split; [exact Hclock|].
      split; [exact Hb|].
      change (content_of w1) with (content_of w) in *.
      change (clock (env w1)) with (clock (env w)) in *.
      unfold hasLocalChanges in *.
      change (state (esm w1)) with (state (esm w)) in Hl.
      cbn [esm with_esm state set_currentSyncStatus set_lastSyncTime].
      rewrite Hl. unfold accepted. cbn [andb].
      destruct (is_ok (respond (content_of w))); [reflexivity | exact Hdirty].
    - unfold ret at 1.
      unfold bind at 1. unfold Date_now at 1, gets at 1.
      unfold bind at 1. unfold modify at 1.
      rewrite (bind_ok _ _ _ _ _ (setSyncStatus_quiet "synced" _ eq_refl)).
      eexists. split; [reflexivity|].
      split; [rewrite app_nil_r; exact Hup1|].
      split; [reflexivity|]. split; [reflexivity|]. split; [reflexivity|].
      split; [exact Hbusy | exact Hdirty]. }
  destruct Hdown as (w3 & Hrun3 & Hup3 & Hc3 & Hauth3 & Hclock3 & Hb3 & Hl3).
  assert (Hw' : w' = run (if has && accepted then ret tt
                          else if truthy dirty
                               then _ <- syncToCloud respond ;; ret tt
                               else ret tt) w3).
  { unfold w', run, handleAuthStateChange.
    rewrite (bind_ok _ _ _ _ _ Hrun3).
    unfold upload_local_changes.
    rewrite (bind_ok _ _ _ _ _ (get_state_run w3)).
    unfold hasLocalChanges in Hl3. rewrite Hl3.
    destruct (has && accepted); reflexivity. }
  clearbody w'. subst w'.
  destruct (has && accepted) eqn:Hsent.
  - rewrite andb_false_r, app_nil_r. split; [exact Hup3 | exact Hc3].
  - rewrite andb_true_r. destruct (truthy dirty).
    + rewrite <- Hauth3 in Ha, Hu.
      destruct (syncToCloud_run respond w3 u Ha Hu Hb3)
        as (w4 & Hrun4 & Hup4 & Hc4 & _).
      unfold run. rewrite (bind_ok _ _ _ _ _ Hrun4). unfold ret. cbn [snd].
      split; [|congruence].
      rewrite Hup4, Hup3, Hclock3, Hc3, <- app_assoc. reflexivity.
    + rewrite app_nil_r. split; [exact Hup3 | exact Hc3].
Qed.

Lemma sign_in_without_cloud_row_witness :
  let w := signed_in (record "ON" [] 100) 1000 in
  let sent := (1000, progressData (record "ON" [] 100)) in
  upserts (run (handleAuthStateChange true (Ok None) (accept 1 1000)) w) = [sent] /\
  upserts (run (handleAuthStateChange true (Ok None) unreachable) w) = [sent; sent].
Proof.
  intros w sent. split.
  - exact (proj1 (sign_in_without_cloud_row w "user-1" (accept 1 1000) true (VBool true)
                    eq_refl eq_refl eq_refl eq_refl eq_refl)).
  - exact (proj1 (sign_in_without_cloud_row w "user-1" unreachable true (VBool true)
                    eq_refl eq_refl eq_refl eq_refl eq_refl)).
Defined.

(** ** A burst of mutations *)

Lemma debounce_all_timers w :
  only_debounce_timers w -> debounce_timers w = timers (env w).
Proof.
  unfold only_debounce_timers, debounce_timers.
  induction (timers (env w)) as [|t ts IH]; intros H; [reflexivity|].
  rewrite filter_cons_True by (apply H; left).
  f_equal. apply IH. intros t' Ht'. apply H. right. exact Ht'.
Qed.

(** A mutation in a world in working order leaves one timer, its own. *)
Lemma mutate_leaves_one_timer m w :
  ready w -> only_debounce_timers w ->
  let w' := run (mutate m) w in
  ready w' /\ only_debounce_timers w' /\ auth w' = auth w /\
  syncInProgress (esm w') = syncInProgress (esm w) /\
  trace (env w') = trace (env w) /\ clock (env w') = clock (env w) /\
  pendingChanges (esm w') = true /\
  exists id,
    timers (env w') =
    [{| timer_id := id;
        due := clock (env w) + debounce_window m (isAuthenticated (auth w));
        callback := DebouncedSync |}].
Proof.
  intros Hready Ht w'.
  destruct (mutate_changed m w Hready) as (Hrc & st & Hst & Hrun).
  set (wc := with_esm (set_state (changed m (state (esm w)))) w) in *.
  assert (Htc : only_debounce_timers wc) by exact Ht.
  assert (Hrp : ready (persisted st wc)) by (apply ready_persisted; assumption).
  assert (Htp : only_debounce_timers (persisted st wc))
    by (apply only_debounce_persisted; exact Htc).
  assert (Hw' : w' = if decide (debounce_window m (isAuthenticated (auth w)) = 500)
                     then scheduled 500 (persisted st wc) else persisted st wc).
  { unfold w', run. rewrite Hrun. reflexivity. }
  clearbody w'. clear Hrun.
  destruct (decide _) as [H500|Hnot]; subst w'.
  - split; [apply ready_scheduled, Hrp|].
    split; [apply only_debounce_scheduled, Htp|].
    do 5 (split; [reflexivity|]).
    eexists. rewrite <- debounce_all_timers by (apply only_debounce_scheduled, Htp).
    rewrite debounce_scheduled by apply Hrp. rewrite H500. reflexivity.
  - split; [exact Hrp|]. split; [exact Htp|].
    do 5 (split; [reflexivity|]).
    eexists. rewrite <- debounce_all_timers by exact Htp.
    pose proof Hrc as (_ & _ & _ & _ & _ & _ & _ & Hok).
    unfold persisted. rewrite (debounce_scheduled 2000) by exact Hok.
    destruct (debounce_window_values m (isAuthenticated (auth w))) as [H|H];
      [contradiction | rewrite H; reflexivity].
Qed.

(** While each pause is shorter than the window of the mutation before it,
    no timer fires. *)
Lemma burst_sends_nothing n respond l :
  forall w,
    ready w -> only_debounce_timers w -> isAuthenticated (auth w) = true ->
    Forall (fun md => 0 <= snd md < debounce_window (fst md) true) l ->
    let w1 := burst (S n) respond l w in
    ready w1 /\ only_debounce_timers w1 /\ auth w1 = auth w /\
    syncInProgress (esm w1) = syncInProgress (esm w) /\
    trace (env w1) = trace (env w).
Proof.
  induction l as [|[m d] l IH]; intros w Hready Ht Ha Hl;
    [cbv zeta; split; [exact Hready|]; split; [exact Ht|]; repeat split|].
  inversion Hl as [|md l' Hd Hl']; subst. cbn [fst snd] in Hd.
  destruct (mutate_leaves_one_timer m w Hready Ht)
    as (Hr1 & Ht1 & Hauth & Hbusy & Htrace & Hclock & _ & id & Htimers).
  unfold burst. cbn [fold_left fst snd].
  set (wm := run (mutate m) w) in *.
  assert (Hwait : elapse (S n) respond (clock (env wm) + d) wm =
                  with_env (set_clock (Z.max (clock (env wm)) (clock (env wm) + d))) wm).
  { cbn [elapse]. rewrite Htimers. cbn [earliest fold_left due].
    rewrite Ha, Hclock.
    destruct (Z.leb_spec (clock (env w) + debounce_window m true) (clock (env w) + d));
      [lia | reflexivity]. }
  rewrite Hwait.
  set (w2 := with_env _ wm).
  destruct (IH w2) as (Hr & Ht' & Hauth' & Hbusy' & Htrace'); unfold burst in *.
  - exact Hr1.
  - exact Ht1.
  - unfold w2. cbn [auth with_env]. rewrite Hauth. exact Ha.
  - exact Hl'.
  - split; [exact Hr|]. split; [exact Ht'|].
    split; [rewrite Hauth'; exact Hauth|].
    split; [rewrite Hbusy'; exact Hbusy|].
    rewrite Htrace'. exact Htrace.
Qed.

(** X18.  Mutations that follow one another, each before the debounce
    window of the one before has run out, send nothing; the last one leaves
    a single timer, and when that fires one upload goes out, carrying the
    record with all the changes.  The window runs from the last mutation:
    500 ms when it ticks a step, 2000 ms otherwise. *)
Theorem burst_of_mutations_uploads_once
    (w : World) (u : string) (n : nat) (respond : ProgressData -> Result Row)
    (l : list (Mutation * Z)) (m : Mutation) :
  ready w -> only_debounce_timers w ->
  isAuthenticated (auth w) = true -> currentUser (auth w) = Some u ->
  syncInProgress (esm w) = false ->
  Forall (fun md => 0 <= snd md < debounce_window (fst md) true) l ->
  let w1 := burst (S n) respond l w in
  let w' := run (mutate m) w1 in
  upserts w' = upserts w /\
  exists t,
    timers (env w') = [t] /\
    due t = clock (env w1) + debounce_window m true /\
    upserts (elapse 1 respond (due t) w') = upserts w ++ [(due t, content_of w')].
Proof.
  intros Hready Ht Ha Hu Hbusy Hl w1 w'.
  destruct (burst_sends_nothing n respond l w Hready Ht Ha Hl)
    as (Hr1 & Ht1 & Hauth1 & Hbusy1 & Htrace1).
  fold w1 in Hr1, Ht1, Hauth1, Hbusy1, Htrace1. clearbody w1.
  destruct (mutate_leaves_one_timer m w1 Hr1 Ht1)
    as (Hr' & Ht' & Hauth' & Hbusy' & Htrace' & Hclock' & Hpending & id & Htimers).
  fold w' in Hr', Ht', Hauth', Hbusy', Htrace', Hclock', Hpending, Htimers.
  clearbody w'.
  rewrite Hauth1, Ha in Htimers.
  assert (Hup : upserts w' = upserts w)
    by (unfold upserts; rewrite Htrace', Htrace1; reflexivity).
  split; [exact Hup|].
  match type of Htimers with _ = [?x] => set (t := x) in * end.
  exists t. split; [exact Htimers|]. split; [reflexivity|].
  cbn [elapse]. rewrite Htimers. cbn [earliest fold_left].
  rewrite Z.leb_refl, <- Hup. unfold content_of.
  apply (fire_debounced respond t w' u).
  - reflexivity.
  - unfold t. cbn [due]. rewrite Hclock'.
    destruct (debounce_window_values m true) as [H|H]; rewrite H; lia.
  - rewrite Hauth', Hauth1. exact Ha.
  - rewrite Hauth', Hauth1. exact Hu.
  - rewrite Hbusy', Hbusy1. exact Hbusy.
  - exact Hpending.
Qed.

Lemma burst_of_mutations_witness :
  let w := signed_in (record "ON" [] 100) 1000 in
  let l := [(SetProvince "BC", 1500); (SetStepCompleted "structure" true, 400)] in
  let w' := run (mutate (SetHiring "yes")) (burst 1 (accept 2 5000) l w) in
  upserts w' = [] /\
  exists t, timers (env w') = [t] /\ due t = 4900 /\
    map fst (upserts (elapse 1 (accept 2 5000) (due t) w')) = [4900].
Proof.
  intros w l w'.
  assert (Hready : ready w).
  { do 7 (split; [reflexivity|]). split; [reflexivity|].
    intros t0 Ht0. inversion Ht0. }
  assert (Ht : only_debounce_timers w) by (intros t0 Ht0; inversion Ht0).
  assert (Hl : Forall (fun md => 0 <= snd md < debounce_window (fst md) true) l).
  { constructor; [simpl; lia|]. constructor; [simpl; lia|]. constructor. }
  destruct (burst_of_mutations_uploads_once w "user-1" 0 (accept 2 5000) l
              (SetHiring "yes") Hready Ht eq_refl eq_refl eq_refl Hl)
    as (Hup & t & Htimers & Hdue & Hfire).
  fold w' in Hup, Htimers, Hfire.
  split; [exact Hup|].
  exists t. split; [exact Htimers|].
  assert (Hdue' : due t = 4900) by (rewrite Hdue; vm_compute; reflexivity).
  split; [exact Hdue'|].
  rewrite Hfire, Hdue'. reflexivity.
Defined.

(** ** The choice of the cloud data *)

(** X19.  Choosing the cloud data in the dialog downloads as a sign-in
    does: the cloud row replaces the local record only when it is newer
    than the record's [lastModified] or the record has never synced.  A
    local record that is as new as the row, or newer, and has synced
    before stays as it is; either way nothing is uploaded and the visitor
    is told "Using cloud progress data". *)
Theorem useCloudData_keeps_newer_local_record
    (w : World) (u : string) (cloud : Row) (respond : ProgressData -> Result Row)
    (lm : Z) (sa : value) :
  isAuthenticated (auth w) = true -> currentUser (auth w) = Some u ->
  get_prop (_meta (state_of w)) "lastModified" = Ok (VNum lm) ->
  get_prop (_meta (state_of w)) "syncedAt" = Ok sa ->
  let w' := run (useCloudData (Ok (Some cloud)) respond) w in
  state_of w' = (if (lm <? row_updated_at cloud) || negb (truthy sa)
                 then adopted cloud (time_of w) else state_of w) /\
  upserts w' = upserts w /\
  snd <$> last (trace (env w')) =
  Some (Notification "success" "Using cloud progress data").
Proof.
  intros Ha Hu Hlm Hsa w'.
  set (w1 := with_env (emit (Fetch u))
               (with_esm (set_currentSyncStatus (Some "syncing")) w)).
  destruct (syncFromCloud_fetched_row w1 cloud respond lm sa Hlm Hsa)
    as (w2 & Hrun & Hstate).
  pose proof (frame_syncFromCloud_row is_upsert upserts cloud respond
                (fun _ _ => eq_refl) w1) as Pu.
  unfold run in Pu. rewrite Hrun in Pu. cbn [snd] in Pu.
  assert (Hw' : w' = with_env (emit (Notification "success"
                                       "Using cloud progress data")) w2).
  { assert (Hdown : syncFromCloud (Ok (Some cloud)) respond w = (Ok true, w2)).
    { unfold syncFromCloud.
      rewrite (bind_ok _ _ _ _ _ (syncFromCloud_start_run w u Ha Hu)). exact Hrun. }
    unfold w', run, useCloudData, try_catch.
    rewrite (bind_ok _ _ _ _ _ Hdown). reflexivity. }
  clearbody w'. subst w'.
  split; [exact Hstate|]. split.
  - rewrite (by_effect (Onlooker := upserts_onlooker)) by reflexivity.
    rewrite Pu. unfold upserts, w1. simpl. rewrite omap_app. apply app_nil_r.
  - rewrite last_emit. reflexivity.
Qed.

Lemma useCloudData_keeps_witness :
  let w := signed_in (record "ON" [("structure", VBool true)] 500) 1000 in
  let cloud := cloud_row "BC" [] 200 in
  state_of (run (useCloudData (Ok (Some cloud)) (accept 2 1000)) w) = state_of w.
Proof.
  intros w cloud.
  exact (proj1 (useCloudData_keeps_newer_local_record w "user-1" cloud (accept 2 1000)
                  500 (VNum 500) eq_refl eq_refl eq_refl eq_refl)).
Defined.

(** * The retry policy on the page *)

(** ** Invariants, method by method *)

Section Keeping.
Context (I : World -> Prop).

Lemma keeps_ret {A} (a : A) : keeps I (ret a).
Proof. intros w Hw. exact Hw. Qed.

Lemma keeps_throw {A} : keeps I (@throw A).
Proof. intros w Hw. exact Hw. Qed.

Lemma keeps_lift {A} (r : Result A) : keeps I (lift r).
Proof. intros w Hw. unfold run, lift. destruct r; exact Hw. Qed.

Lemma keeps_gets {A} (f : World -> A) : keeps I (gets f).
Proof. intros w Hw. exact Hw. Qed.

Lemma keeps_modify (f : World -> World) :
  (forall w, I w -> I (f w)) -> keeps I (modify f).
Proof. intros H w Hw. apply H, Hw. Qed.

Lemma keeps_bind {A B} (m : M A) (k : A -> M B) :
  keeps I m -> (forall a, keeps I (k a)) -> keeps I (bind m k).
Proof.
  intros Hm Hk w Hw. unfold run, bind. specialize (Hm w Hw). unfold run in Hm.
  destruct (m w) as [[a|] w1]; simpl in *; [|exact Hm].
  apply Hk, Hm.
Qed.

Lemma keeps_try_catch {A} (body handler : M A) :
  keeps I body -> keeps I handler -> keeps I (try_catch body handler).
Proof.
  intros Hb Hh w Hw. unfold run, try_catch. specialize (Hb w Hw). unfold run in Hb.
  destruct (body w) as [[a|] w1]; simpl in *; [exact Hb|].
  apply Hh, Hb.
Qed.

Lemma keeps_finally {A} (body : M A) (cleanup : M unit) :
  keeps I body -> keeps I cleanup -> keeps I (finally body cleanup).
Proof.
  intros Hb Hc w Hw. unfold run, finally. specialize (Hb w Hw). unfold run in Hb.
  destruct (body w) as [r w1]. specialize (Hc w1 Hb). unfold run in Hc.
  destruct (cleanup w1) as [[u|] w2]; simpl in *; exact Hc.
Qed.

Lemma keeps_when (b : bool) (m : M unit) : keeps I m -> keeps I (when b m).
Proof. intros H. destruct b; [exact H | apply keeps_ret]. Qed.

Lemma keeps_for_each {A} (f : A -> M unit) (l : list A) :
  (forall a, keeps I (f a)) -> keeps I (for_each f l).
Proof.
  intros H. induction l as [|a l IH]; simpl.
  - apply keeps_ret.
  - apply keeps_bind; [apply H | intros _; exact IH].
Qed.
End Keeping.

Create HintDb kept.

Ltac keep :=
  repeat first
    [ solve [eauto with kept nocore]
    | apply keeps_ret | apply keeps_throw | apply keeps_lift | apply keeps_gets
    | apply keeps_bind; [ | intros ? ]
    | apply keeps_try_catch | apply keeps_finally
    | apply keeps_when
    | apply keeps_for_each; intros ?
    | match goal with
      | |- keeps _ (match ?x with _ => _ end) => destruct x
      end ].

Section Backstage.
Context (I : World -> Prop) `{!Backstage I}.

Lemma backstage_esm f : keeps I (modify (with_esm f)).
Proof. apply keeps_modify. intros w. apply inv_esm. Qed.

Lemma backstage_put_state s : keeps I (put_state s).
Proof. apply backstage_esm. Qed.

Lemma backstage_update_state f : keeps I (update_state f).
Proof. apply backstage_esm. Qed.

Lemma backstage_effect e : keeps I (effect e).
Proof. apply keeps_modify. intros w. apply inv_effect. Qed.

Lemma backstage_getItem k : keeps I (getItem k).
Proof. intros w Hw. unfold run, getItem. destruct (mode _); exact Hw. Qed.

Lemma backstage_setItem k v : keeps I (setItem k v).
Proof.
  unfold setItem. apply keeps_bind; [apply keeps_lift|].
  intros s w Hw. unfold run. destruct (mode _); try exact Hw.
  apply inv_storage, Hw.
Qed.

Lemma backstage_removeItem k : keeps I (removeItem k).
Proof.
  intros w Hw. unfold run, removeItem.
  destruct (mode _); try exact Hw; apply inv_storage, Hw.
Qed.

Lemma backstage_debounce d : keeps I (setTimeout DebouncedSync d).
Proof. intros w. apply inv_debounce. Qed.

Lemma backstage_clearTimeout id : keeps I (clearTimeout id).
Proof. intros w. apply inv_clear. Qed.

#[local] Hint Resolve backstage_esm backstage_put_state backstage_update_state
  backstage_effect backstage_getItem backstage_setItem backstage_removeItem
  backstage_debounce backstage_clearTimeout inv_listener : kept.

Lemma backstage_scheduleSyncToCloud d : keeps I (scheduleSyncToCloud d).
Proof. unfold scheduleSyncToCloud. keep. Qed.

Lemma backstage_notifySyncListeners status message :
  keeps I (notifySyncListeners status message).
Proof. unfold notifySyncListeners. keep. Qed.
#[local] Hint Resolve backstage_scheduleSyncToCloud backstage_notifySyncListeners : kept.

Lemma backstage_setSyncStatus status : keeps I (setSyncStatus status).
Proof. unfold setSyncStatus. keep. Qed.

Lemma backstage_assign_meta k v : keeps I (assign_meta k v).
Proof. unfold assign_meta, get_state. keep. Qed.

Lemma backstage_showNotification m t : keeps I (showNotification m t).
Proof. unfold showNotification. keep. Qed.
#[local] Hint Resolve backstage_setSyncStatus backstage_assign_meta
  backstage_showNotification : kept.

Lemma backstage_persistLocal : keeps I persistLocal.
Proof. unfold persistLocal, Date_now, get_state. keep. Qed.
#[local] Hint Resolve backstage_persistLocal : kept.

Lemma backstage_syncToCloud_start : keeps I syncToCloud_start.
Proof.
  unfold syncToCloud_start, syncToCloud_request, syncToCloud_catch,
    syncToCloud_finally, isUserAuthenticated, getCurrentUser, get_state, user_id.
  keep.
Qed.

Lemma backstage_syncToCloud_settle reply : keeps I (syncToCloud_settle reply).
Proof.
  unfold syncToCloud_settle, syncToCloud_saved, syncToCloud_catch,
    syncToCloud_finally, Date_now.
  keep.
Qed.
#[local] Hint Resolve backstage_syncToCloud_start backstage_syncToCloud_settle : kept.

Lemma backstage_syncToCloud respond : keeps I (syncToCloud respond).
Proof. unfold syncToCloud. keep. Qed.
#[local] Hint Resolve backstage_syncToCloud : kept.

Lemma backstage_forceSyncToCloud respond : keeps I (forceSyncToCloud respond).
Proof. unfold forceSyncToCloud, cancel_debounce. keep. Qed.
#[local] Hint Resolve backstage_forceSyncToCloud : kept.

Lemma backstage_syncFromCloud reply respond : keeps I (syncFromCloud reply respond).
Proof.
  unfold syncFromCloud, syncFromCloud_start, syncFromCloud_settle,
    syncFromCloud_fetched, adopt_cloud, isUserAuthenticated, getCurrentUser,
    get_state, user_id, Date_now.
  keep.
Qed.
#[local] Hint Resolve backstage_syncFromCloud : kept.

Lemma backstage_mutate m : keeps I (mutate m).
Proof.
  destruct m; simpl mutate;
    unfold setProvince, setIndustry, setHiring, setRevenue, setStepCompleted,
      get_state, isUserAuthenticated;
    keep.
Qed.

Lemma backstage_reset : keeps I reset.
Proof. unfold reset, loadDefaultState, Date_now, isUserAuthenticated. keep. Qed.

Lemma backstage_importProgress v : keeps I (importProgress v).
Proof. unfold importProgress, get_state, Date_now, isUserAuthenticated. keep. Qed.
#[local] Hint Resolve backstage_mutate backstage_reset backstage_importProgress : kept.

Lemma backstage_importProgressData_start v : keeps I (importProgressData_start v).
Proof.
  unfold importProgressData_start, forceSyncToCloud_start, cancel_debounce,
    isUserAuthenticated.
  keep.
Qed.

Lemma backstage_forceSync reply respond : keeps I (forceSync reply respond).
Proof. unfold forceSync, isUserAuthenticated. keep. Qed.
#[local] Hint Resolve backstage_importProgressData_start backstage_forceSync : kept.

(** Whatever the managers do at start-up keeps the invariant. *)
Lemma backstage_perform reply respond a :
  at_startup a -> keeps I (perform reply respond a).
Proof. destruct a; simpl; intros Ha; try destruct Ha; keep. Qed.

Lemma backstage_perform_all reply respond l :
  Forall at_startup l ->
  forall w, I w -> I (perform_all reply respond l w).
Proof.
  unfold perform_all. induction 1 as [|a l Ha Hl IH]; intros w Hw; [exact Hw|].
  simpl. apply IH. apply (backstage_perform reply respond a Ha), Hw.
Qed.
End Backstage.

(** ** The two invariants *)

Lemma retry_timers_cleared id ts :
  sublist (filter (fun t => callback t = RetrySync)
             (filter (fun t => timer_id t ≠ id) ts))
          (filter (fun t => callback t = RetrySync) ts).
Proof.
  induction ts as [|t ts IH]; [constructor|].
  rewrite (filter_cons (fun t => timer_id t ≠ id)).
  destruct (decide (timer_id t ≠ id)) as [Hid|Hid].
  - rewrite !(filter_cons (fun t => callback t = RetrySync)).
    destruct (decide (callback t = RetrySync)); [constructor|]; exact IH.
  - rewrite (filter_cons (fun t => callback t = RetrySync) t ts).
    destruct (decide (callback t = RetrySync)); [constructor|]; exact IH.
Qed.

Lemma retry_timers_debounce w d :
  retry_timers (run (setTimeout DebouncedSync d) w) = retry_timers w.
Proof.
  unfold retry_timers, run, setTimeout. simpl.
  rewrite filter_app, filter_cons_False by discriminate.
  apply app_nil_r.
Qed.

Lemma retry_timers_clearTimeout w id :
  sublist (retry_timers (run (clearTimeout id) w)) (retry_timers w).
Proof. apply retry_timers_cleared. Qed.

(** A retry is queued as the next of the three, or not at all. *)
Lemma startup_queueRetrySync c : keeps (startup_invariant c) queueRetrySync.
Proof.
  intros w (Hclock & Hmax & Hdelay & Hcount & Hsub).
  destruct (Z.lt_ge_cases (retryAttempts (sync w)) (maxRetries (sync w))) as [Hlt|Hge].
  - unfold run. rewrite (queueRetrySync_run w Hlt). cbn [snd].
    unfold startup_invariant, retry_timers in *.
    cbn [env sync with_env with_sync set_timers set_retryAttempts clock timers
         maxRetries retryDelay retryAttempts].
    rewrite Hmax in Hlt.
    split; [exact Hclock|]. split; [exact Hmax|]. split; [exact Hdelay|].
    split; [lia|].
    rewrite filter_app, filter_cons_True, filter_nil by reflexivity.
    rewrite map_app. cbn [map due]. rewrite Hclock, Hdelay.
    assert (Hr : retryAttempts (sync w) = 0 \/ retryAttempts (sync w) = 1 \/
                 retryAttempts (sync w) = 2) by lia.
    destruct Hr as [Hr|[Hr|Hr]]; rewrite Hr in *; simpl in Hsub |- *.
    + apply (sublist_app _ [] _ [_] Hsub). reflexivity.
    + apply (sublist_app _ [_] _ [_] Hsub). reflexivity.
    + apply (sublist_app _ [_; _] _ [_] Hsub). reflexivity.
  - unfold run. rewrite (queueRetrySync_at_limit w Hge). split; [|split; [|split]]; auto.
Qed.

#[local] Instance startup_backstage c : Backstage (startup_invariant c).
Proof.
  split.
  - intros w f Hw. exact Hw.
  - intros w st Hw. exact Hw.
  - intros w e Hw. exact Hw.
  - intros w d (Hclock & Hmax & Hdelay & Hcount & Hsub).
    split; [exact Hclock|]. split; [exact Hmax|]. split; [exact Hdelay|].
    split; [exact Hcount|]. rewrite retry_timers_debounce. exact Hsub.
  - intros w id (Hclock & Hmax & Hdelay & Hcount & Hsub).
    split; [exact Hclock|]. split; [exact Hmax|]. split; [exact Hdelay|].
    split; [exact Hcount|].
    etransitivity; [|exact Hsub].
    apply fmap_sublist, retry_timers_clearTimeout.
  - intros [] status message. unfold call_listener.
    apply keeps_bind; [apply keeps_gets|]. intros [|].
    + unfold handleSyncEvent. apply keeps_bind; [apply keeps_gets|]. intros online.
      apply keeps_when, startup_queueRetrySync.
    + apply keeps_ret.
Qed.

#[local] Instance page_backstage L : Backstage (page_invariant L).
Proof.
  split.
  - intros w f Hw. exact Hw.
  - intros w st Hw. exact Hw.
  - intros w e Hw. exact Hw.
  - intros w d [Hpage Hsub]. split; [exact Hpage|].
    rewrite retry_timers_debounce. exact Hsub.
  - intros w id [Hpage Hsub]. split; [exact Hpage|].
    etransitivity; [apply retry_timers_clearTimeout | exact Hsub].
  - intros [] status message w [Hpage Hsub].
    unfold run, call_listener, bind, gets. rewrite Hpage. split; assumption.
Qed.

(** ** After the set-up *)

Lemma page_retry_sync respond L : keeps (page_invariant L) (retry_sync respond).
Proof.
  assert (Hreset : forall n, keeps (page_invariant L)
                               (modify (with_sync (set_retryAttempts n)))).
  { intros n. apply keeps_modify. intros w Hw. exact Hw. }
  pose proof (backstage_forceSyncToCloud (page_invariant L) respond).
  pose proof (backstage_showNotification (page_invariant L)).
  unfold retry_sync. keep.
Qed.

Lemma page_run_callback respond cb L :
  keeps (page_invariant L) (run_callback respond cb).
Proof.
  destruct cb; simpl.
  - pose proof (backstage_syncToCloud (page_invariant L) respond).
    unfold debounced_sync, isUserAuthenticated. keep.
  - apply page_retry_sync.
Qed.

Lemma fire_run respond t w :
  run (fire respond t) w =
  run (try_catch (run_callback respond (callback t)) (ret tt)) (fired t w).
Proof. unfold run, fire. rewrite (bind_ok _ _ _ _ _ (modify_run _ w)). reflexivity. Qed.

Lemma retry_timers_fired t w :
  sublist (retry_timers (fired t w)) (retry_timers w) /\
  (t ∈ timers (env w) -> callback t = RetrySync ->
   (length (retry_timers (fired t w)) < length (retry_timers w))%nat).
Proof.
  split; [apply retry_timers_cleared|].
  intros Ht Hcb. unfold retry_timers, fired. cbn [env with_env timers set_timers set_clock].
  assert (Hcomm : filter (fun a => callback a = RetrySync)
                    (filter (fun a => timer_id a ≠ timer_id t) (timers (env w))) =
                  filter (fun a => timer_id a ≠ timer_id t)
                    (filter (fun a => callback a = RetrySync) (timers (env w)))).
  { rewrite !list_filter_filter. apply list_filter_iff. intros a. tauto. }
  rewrite Hcomm.
  apply (length_filter_lt _ _ t).
  - apply list_elem_of_filter. split; assumption.
  - intros H. apply H. reflexivity.
Qed.

(** Once the page's handler is in place, a timer that fires queues no
    retry, and a retry that fires is gone. *)
Lemma page_fire respond t w :
  syncEventHandler (sync w) = PageHandler ->
  let w' := run (fire respond t) w in
  syncEventHandler (sync w') = PageHandler /\
  sublist (retry_timers w') (retry_timers w) /\
  (t ∈ timers (env w) -> callback t = RetrySync ->
   (length (retry_timers w') < length (retry_timers w))%nat).
Proof.
  intros Hpage w'. unfold w'. rewrite fire_run.
  destruct (retry_timers_fired t w) as [Hsub Hless].
  assert (Hkeep : page_invariant (retry_timers (fired t w))
                    (run (try_catch (run_callback respond (callback t)) (ret tt))
                       (fired t w))).
  { apply keeps_try_catch; [apply page_run_callback | apply keeps_ret|].
    split; [exact Hpage | reflexivity]. }
  destruct Hkeep as [Hpage' Hsub'].
  split; [exact Hpage'|]. split; [etransitivity; eassumption|].
  intros Ht Hcb. apply sublist_length in Hsub'. specialize (Hless Ht Hcb). lia.
Qed.

Lemma page_elapse respond deadline n :
  forall w,
    syncEventHandler (sync w) = PageHandler ->
    (retries_fired n respond deadline w <= length (retry_timers w))%nat /\
    sublist (retry_timers (elapse n respond deadline w)) (retry_timers w).
Proof.
  induction n as [|n IH]; intros w Hpage; [split; [simpl; lia | reflexivity]|].
  cbn [retries_fired elapse].
  destruct (earliest (timers (env w))) as [t|] eqn:Et; [|split; [lia | reflexivity]].
  destruct (due t <=? deadline); [|split; [lia | reflexivity]].
  destruct (page_fire respond t w Hpage) as (Hpage' & Hsub & Hless).
  destruct (IH _ Hpage') as [Hcount Hsub'].
  split; [|etransitivity; eassumption].
  destruct (decide (callback t = RetrySync)) as [Hcb|Hcb].
  - specialize (Hless (earliest_elem _ _ Et) Hcb). lia.
  - apply sublist_length in Hsub. lia.
Qed.

(** ** A service that keeps failing *)

Lemma failing_syncToCloud respond :
  (forall pd, respond pd = Throw) -> keeps in_error (syncToCloud respond).
Proof.
  intros Hfail w Hw. unfold run, syncToCloud.
  unfold bind at 1. unfold syncToCloud_start.
  unfold bind at 1. unfold isUserAuthenticated at 1, gets at 1.
  unfold bind at 1. unfold gets at 1.
  destruct (negb (isAuthenticated (auth w)) || syncInProgress (esm w));
    [exact Hw|].
  unfold try_catch at 1. unfold bind at 1.
  destruct (syncToCloud_request w) as [[pd|] w1].
  - cbn [ret]. rewrite Hfail.
    destruct (syncToCloud_settle_run Throw w1) as (w' & Hrun & _ & Hstatus & _).
    rewrite Hrun. exact Hstatus.
  - destruct (syncToCloud_catch_run w1) as (w2 & Hcatch & Hesm).
    unfold bind, finally, syncToCloud_finally. rewrite Hcatch.
    unfold in_error. simpl. rewrite Hesm. reflexivity.
Qed.

Lemma failing_forceSyncToCloud respond :
  (forall pd, respond pd = Throw) -> keeps in_error (forceSyncToCloud respond).
Proof.
  intros Hfail w Hw. unfold run, forceSyncToCloud.
  destruct (cancel_debounce_run w) as (ts & Hc & _).
  rewrite (bind_ok _ _ _ _ _ Hc).
  apply (failing_syncToCloud respond Hfail). exact Hw.
Qed.

Lemma failing_fire respond t :
  (forall pd, respond pd = Throw) -> keeps in_error (fire respond t).
Proof.
  intros Hfail w Hw. rewrite fire_run.
  assert (Hf : in_error (fired t w)) by exact Hw.
  revert Hf. generalize (fired t w). clear w Hw.
  change (keeps in_error (try_catch (run_callback respond (callback t)) (ret tt))).
  pose proof (failing_syncToCloud respond Hfail).
  pose proof (failing_forceSyncToCloud respond Hfail).
  assert (Hreset : forall n, keeps in_error (modify (with_sync (set_retryAttempts n)))).
  { intros n. apply keeps_modify. intros w Hw. exact Hw. }
  assert (Hnote : forall m ty, keeps in_error (showNotification m ty)).
  { intros m ty. apply keeps_modify. intros w Hw. exact Hw. }
  destruct (callback t); simpl;
    unfold debounced_sync, retry_sync, isUserAuthenticated; keep.
Qed.

Lemma failing_elapse respond deadline n :
  (forall pd, respond pd = Throw) ->
  forall w, in_error w -> in_error (elapse n respond deadline w).
Proof.
  intros Hfail. induction n as [|n IH]; intros w Hw; [exact Hw|].
  cbn [elapse].
  destruct (earliest (timers (env w))) as [t|]; [|exact Hw].
  destruct (due t <=? deadline); [|exact Hw].
  apply IH, (failing_fire respond t Hfail), Hw.
Qed.

(** Whatever happens after the set-up, timers firing included, queues no
    retry. *)
Lemma page_perform_all reply respond l :
  forall w,
    syncEventHandler (sync w) = PageHandler ->
    syncEventHandler (sync (perform_all reply respond l w)) = PageHandler /\
    sublist (retry_timers (perform_all reply respond l w)) (retry_timers w).
Proof.
  unfold perform_all. induction l as [|a l IH]; intros w Hpage;
    [split; [exact Hpage | reflexivity]|].
  cbn [fold_left].
  assert (Hstep : syncEventHandler (sync (run (perform reply respond a) w)) = PageHandler /\
                  sublist (retry_timers (run (perform reply respond a) w)) (retry_timers w)).
  { assert (Hw : page_invariant (retry_timers w) w)
      by (split; [exact Hpage | reflexivity]).
    destruct a as [m| |payload|payload| | | |t];
      try (refine (backstage_perform (page_invariant (retry_timers w)) reply respond
                     _ _ w Hw); exact I).
    destruct (page_fire respond t w Hpage) as (Hpage' & Hsub & _).
    split; assumption. }
  destruct Hstep as [Hpage' Hsub].
  destruct (IH _ Hpage') as [Hpage'' Hsub'].
  split; [exact Hpage''|]. etransitivity; eassumption.
Qed.


